(** * BearCart dashboard: traffic analytics and the data hook

    A shallow embedding of

    - [client/src/components/dashboard/sections/Traffic.jsx]
      ([calculateMetrics] and what the component shows of it), and
    - [client/src/hooks/useDashBoardData.js], with and without the row cap
      (the cleaning step, the guarded metric computations, the timer),

    followed by the properties of the specification that concern them.

    Conventions of the embedding.

    - A row is a record whose fields hold a JavaScript [value]: a string,
      [null], or [undefined] (what reading a missing property gives).
      These are the values of the cleaned records of the data model;
      rows with a number or an object in a field are outside the
      embedding.
    - The accumulators of the reducers are plain objects.  Their own
      properties are an association list in insertion order, with distinct
      keys; [Object.values] and [Object.entries] list array-index keys
      first, in ascending numeric order, and then the other keys in
      insertion order.  Behind the own properties stands
      [Object.prototype]: reading a key that is no own property but the
      name of one of its members gives that member, and writing a
      primitive under [__proto__] does nothing.
    - Where a reducer adds to a field of an inherited member
      ([acc[k].sessions += 1] with [acc[k]] inherited), the addition lands
      on an object of the runtime that the component never lists, and what
      it stores there ([NaN]) reads as absent in every test the code
      makes; these writes are not tracked.
    - [Date] parsing, [String.prototype.toLowerCase] and the order that
      [Array.prototype.sort] gives under an inconsistent comparator belong
      to the engine: they are parameters ([engine]).
    - Counts are natural numbers and ratios are exact rationals: the
      rounding of IEEE doubles is not modelled.
    - A computation that may raise returns a [result]. *)

From Stdlib Require Import List String Ascii Bool Arith ZArith QArith Lia.
From Stdlib Require Import Permutation Sorted.
Import ListNotations.

Set Implicit Arguments.
Close Scope Q_scope.

(* ================================================================== *)
(** * Part I: definitions *)
(* ================================================================== *)

(** ** The JavaScript runtime, as far as the program uses it *)

Module JS.

Inductive value : Type :=
| undefined
| null
| str (s : string).

Definition value_eqb (a b : value) : bool :=
  match a, b with
  | undefined, undefined => true
  | null, null => true
  | str s, str t => String.eqb s t
  | _, _ => false
  end.

(** ToBoolean: [undefined], [null] and the empty string are falsy. *)
Definition truthy (v : value) : bool :=
  match v with
  | str s => negb (String.eqb s "")
  | _ => false
  end.

(** [v || d] *)
Definition or (v d : value) : value := if truthy v then v else d.

(** [a === b] *)
Definition strict_eq (a b : value) : bool := value_eqb a b.

(** ToPropertyKey, applied by [o[k]]. *)
Definition ToPropertyKey (v : value) : string :=
  match v with
  | undefined => "undefined"
  | null => "null"
  | str s => s
  end.

(** A computation either completes or throws (the message is kept). *)
Inductive result (A : Type) : Type :=
| Ok (a : A)
| Throw (message : string).
Arguments Ok {A} a.
Arguments Throw {A} message.

Definition bind {A B} (r : result A) (k : A -> result B) : result B :=
  match r with
  | Ok a => k a
  | Throw m => Throw m
  end.

(** [try { body } catch (err) { handler(err) }] *)
Definition try_catch {A} (body : result A) (handler : string -> A) : A :=
  match body with
  | Ok a => a
  | Throw m => handler m
  end.

(** [xs.reduce(step, init)] where [step] may throw. *)
Fixpoint reduce {A B} (step : B -> A -> result B) (xs : list A) (init : B)
  : result B :=
  match xs with
  | [] => Ok init
  | x :: xs' => bind (step init x) (reduce step xs')
  end.

(** *** Strings *)

(** [v?.toLowerCase()], the optional chain stopping on [undefined] and
    [null]; [lower] is [String.prototype.toLowerCase]. *)
Definition opt_toLowerCase (lower : string -> string) (v : value) : value :=
  match v with
  | str s => str (lower s)
  | _ => undefined
  end.

(** [s.split(' ')[0]]: the part of [s] before its first space. *)
Fixpoint before_space (s : string) : string :=
  match s with
  | EmptyString => EmptyString
  | String c r =>
      if Ascii.eqb c " " then EmptyString else String c (before_space r)
  end.

(** [v.split(' ')[0]]: reading [split] off [undefined]/[null] throws. *)
Definition split_space_0 (v : value) : result string :=
  match v with
  | str s => Ok (before_space s)
  | undefined =>
      Throw "TypeError: Cannot read properties of undefined (reading 'split')"
  | null =>
      Throw "TypeError: Cannot read properties of null (reading 'split')"
  end.

(** *** Array.prototype.sort

    A stable insertion sort: what [sort] gives whenever the comparator is
    consistent (the order under an inconsistent comparator is the
    engine's).  The comparator answers a sign; a [NaN] answer counts as
    [0] and is given as such by the callers. *)
Section Sort.
Variable A : Type.
Variable cmp : A -> A -> Z.

Fixpoint insert (x : A) (l : list A) : list A :=
  match l with
  | [] => [x]
  | y :: l' => if (cmp x y <=? 0)%Z then x :: y :: l' else y :: insert x l'
  end.

Definition sort (l : list A) : list A := fold_right insert [] l.
End Sort.

(** *** Plain objects *)

(** The own properties of an object, in insertion order. *)
Definition obj (V : Type) : Type := list (string * V).

(** The names that a plain object inherits from [Object.prototype]. *)
Definition Object_prototype_names : list string :=
  ["constructor"; "__defineGetter__"; "__defineSetter__"; "hasOwnProperty";
   "__lookupGetter__"; "__lookupSetter__"; "isPrototypeOf";
   "propertyIsEnumerable"; "toString"; "valueOf"; "__proto__";
   "toLocaleString"]%string.

Definition inherited (k : string) : bool :=
  existsb (String.eqb k) Object_prototype_names.

Section Obj.
Variable V : Type.

(** The own property [k], if there is one. *)
Fixpoint get (k : string) (o : obj V) : option V :=
  match o with
  | [] => None
  | (k', v) :: o' => if String.eqb k k' then Some v else get k o'
  end.

(** Defining or updating the own property [k]: an existing property keeps
    its place, a new one is added last.  This is what [o[k] = v] does for
    every key but [__proto__]. *)
Fixpoint set (k : string) (v : V) (o : obj V) : obj V :=
  match o with
  | [] => [(k, v)]
  | (k', v') :: o' =>
      if String.eqb k k' then (k', v) :: o' else (k', v') :: set k v o'
  end.

(** What [o[k]] reads: the own property, else the member of
    [Object.prototype] of that name (for [__proto__], [Object.prototype]
    itself), else [undefined]. *)
Inductive lookup : Type :=
| own (v : V)
| from_prototype (name : string)
| missing.

Definition read (k : string) (o : obj V) : lookup :=
  match get k o with
  | Some v => own v
  | None => if inherited k then from_prototype k else missing
  end.

(** [o[k] = v] for a primitive [v]: the setter of [__proto__] ignores
    it. *)
Definition assign (k : string) (v : V) (o : obj V) : obj V :=
  if String.eqb k "__proto__" then o else set k v o.

Definition digit (c : ascii) : option N :=
  let n := N_of_ascii c in
  if (48 <=? n)%N && (n <=? 57)%N then Some (n - 48)%N else None.

Fixpoint digits (s : string) (acc : N) : option N :=
  match s with
  | EmptyString => Some acc
  | String c r =>
      match digit c with
      | Some d => digits r (10 * acc + d)%N
      | None => None
      end
  end.

(** An array index is the canonical decimal string of an integer
    below 2^32 - 1. *)
Definition array_index (s : string) : option N :=
  match s with
  | EmptyString => None
  | String c r =>
      if Ascii.eqb c "0" && negb (String.eqb r "") then None
      else match digits s 0 with
           | Some n => if (n <? 4294967295)%N then Some n else None
           | None => None
           end
  end.

Definition is_index (e : string * V) : bool :=
  match array_index (fst e) with Some _ => true | None => false end.

Definition index_of (e : string * V) : Z :=
  match array_index (fst e) with Some n => Z.of_N n | None => 0 end.

(** OrdinaryOwnPropertyKeys: array indices ascending, then the other
    string keys in insertion order. *)
Definition own_order (o : obj V) : obj V :=
  sort (fun a b => index_of a - index_of b)%Z (filter is_index o)
  ++ filter (fun e => negb (is_index e)) o.

Definition Object_entries (o : obj V) : list (string * V) := own_order o.
Definition Object_values (o : obj V) : list V := map snd (own_order o).
Definition keys (o : obj V) : list string := map fst o.
End Obj.
Arguments from_prototype {V} name.
Arguments missing {V}.

(** *** Set ([new Set], [add], [size]): distinct members, insertion order *)

Definition Set_has (x : value) (s : list value) : bool :=
  existsb (value_eqb x) s.

Definition Set_add (x : value) (s : list value) : list value :=
  if Set_has x s then s else s ++ [x].

Definition new_Set (l : list value) : list value :=
  fold_left (fun s x => Set_add x s) l [].

Definition size (s : list value) : nat := List.length s.

(** *** Numbers that may be non-finite: results of [/] *)

Inductive number : Type :=
| num (q : Q)
| NaN
| Infinity (negative : bool).

Definition Qsign_neg (q : Q) : bool :=
  match Qcompare q 0%Q with Lt => true | _ => false end.

(** [a / b] on finite operands. *)
Definition div (a b : Q) : number :=
  if Qeq_bool b 0%Q
  then if Qeq_bool a 0%Q then NaN else Infinity (Qsign_neg a)
  else num (a / b)%Q.

(** [a - b] *)
Definition sub (a b : number) : number :=
  match a, b with
  | num x, num y => num (x - y)%Q
  | NaN, _ | _, NaN => NaN
  | Infinity s, num _ => Infinity s
  | num _, Infinity s => Infinity (negb s)
  | Infinity s, Infinity t => if Bool.eqb s t then NaN else Infinity s
  end.

Definition finite (n : number) : Prop :=
  match n with num _ => True | _ => False end.

End JS.


(** ** What the engine decides *)

(** [Date_parse s] is [Number(new Date(s))], the time value of a date
    string, [None] for an Invalid Date ([NaN]); [toLowerCase] is
    [String.prototype.toLowerCase]; [Array_sort] is
    [Array.prototype.sort]. *)
Record engine : Type := mkEngine {
  Date_parse : string -> option Z;
  toLowerCase : string -> string;
  Array_sort : forall A : Type, (A -> A -> Z) -> list A -> list A
}.

(** What the language promises of [sort]: the array is rearranged, and
    under a comparator that compares by a numeric key (a consistent one)
    the order is that of a stable sort. *)
Definition conforming (e : engine) : Prop :=
  (forall (A : Type) (cmp : A -> A -> Z) (l : list A),
     Permutation (Array_sort e cmp l) l) /\
  (forall (A : Type) (cmp : A -> A -> Z) (key : A -> Z) (l : list A),
     (forall x y, In x l -> In y l -> cmp x y = (key x - key y)%Z) ->
     Array_sort e cmp l = JS.sort cmp l).

(** ** client/src/components/dashboard/sections/Traffic.jsx *)

(** The fields of a cleaned session row that the component reads. *)
Record session : Type := mkSession {
  user_id : JS.value;
  device_type : JS.value;
  is_repeat_session : JS.value;
  utm_source : JS.value;
  utm_campaign : JS.value;
  created_at : JS.value
}.

(** The fields of a cleaned pageview row that the component reads. *)
Record pageview : Type := mkPageview {
  website_session_id : JS.value;
  pageview_url : JS.value
}.

(** What a counter property holds: a number, or the text that [+ 1] makes
    of an inherited member, [String(Object.prototype[name])] followed by
    one character [1] per addition.  Such a text is not empty and is no
    numeric string. *)
Inductive counter : Type :=
| count (n : nat)
| native (name : string) (ones : nat).

(** [(acc[k] || 0) + 1] *)
Definition plus_one (r : JS.lookup counter) : counter :=
  match r with
  | JS.own (count n) => count (n + 1)
  | JS.own (native name ones) => native name (ones + 1)
  | JS.from_prototype name => native name 1
  | JS.missing => count 1
  end.

(** [count === 1] *)
Definition is_one (c : counter) : bool :=
  match c with
  | count 1 => true
  | _ => false
  end.

(** ToNumber of a counter: a text gives [NaN]. *)
Definition to_number (c : counter) : option Z :=
  match c with
  | count n => Some (Z.of_nat n)
  | native _ _ => None
  end.

(** [c || 0] on a counter property read off as own property or absent. *)
Definition or_zero (c : option counter) : counter :=
  match c with
  | Some v => v
  | None => count 0
  end.

(** [{ source, sessions: 0, users: new Set() }] *)
Record source_bucket : Type := mkSourceBucket {
  bucket_source : JS.value;
  bucket_sessions : nat;
  bucket_users : list JS.value
}.

(** [{ source, sessions, users: item.users.size }] *)
Record source_row : Type := mkSourceRow {
  source : JS.value;
  source_sessions : nat;
  source_users : nat
}.

(** [{ campaign, sessions }] *)
Record campaign_row : Type := mkCampaignRow {
  campaign : JS.value;
  campaign_sessions : nat
}.

(** [{ date, sessions, desktop, mobile }] *)
Record date_row : Type := mkDateRow {
  date : string;
  date_sessions : nat;
  desktop : nat;
  mobile : nat
}.

(** [{ url, sessions: count }] *)
Record landing_row : Type := mkLandingRow {
  url : string;
  landing_sessions : counter
}.

(** The accumulator [{ sessions: {}, pages: {} }] of the landing pages. *)
Record landing_acc : Type := mkLandingAcc {
  acc_sessions : JS.obj bool;
  acc_pages : JS.obj counter
}.

(** The object that [calculateMetrics] returns. *)
Record traffic_metrics : Type := mkTrafficMetrics {
  totalSessions : nat;
  uniqueUsers : nat;
  bounceRate : Q;
  avgPagesPerSession : Q;
  deviceCounts : JS.obj counter;
  newSessions : nat;
  returningSessions : nat;
  sourceData : list source_row;
  campaignData : list campaign_row;
  timelineData : list date_row;
  topLandingPages : list landing_row
}.

(** [!acc[k]] where an own property, when present, holds an object. *)
Definition no_object {V} (r : JS.lookup V) : bool :=
  match r with
  | JS.missing => true
  | _ => false
  end.

(** [!acc.sessions[k]] where an own property holds a boolean. *)
Definition not_seen (r : JS.lookup bool) : bool :=
  match r with
  | JS.own b => negb b
  | JS.from_prototype _ => false
  | JS.missing => true
  end.

Definition Q_of_nat (n : nat) : Q := inject_Z (Z.of_nat n).

(** Line 99: [b.sessions - a.sessions]; with a text on either side the
    difference is [NaN], read as [0] by the sort. *)
Definition by_sessions_desc (a b : landing_row) : Z :=
  match to_number (landing_sessions b), to_number (landing_sessions a) with
  | Some x, Some y => (x - y)%Z
  | _, _ => 0%Z
  end.

(** Lines 27-30: the reducer of [sessionPageviewCounts]. *)
Definition sessionPageviewCounts_step (acc : JS.obj counter) (pv : pageview)
  : JS.obj counter :=
  let k := JS.ToPropertyKey (website_session_id pv) in
  JS.assign k (plus_one (JS.read k acc)) acc.

(** Lines 27-30. *)
Definition sessionPageviewCounts (pageviews : list pageview)
  : JS.obj counter :=
  fold_left sessionPageviewCounts_step pageviews [].

(** Line 32. *)
Definition bouncedSessions (pageviews : list pageview) : nat :=
  List.length
    (filter is_one (JS.Object_values (sessionPageviewCounts pageviews))).

(** Lines 39-47: the reducer of [trafficBySource].  Under a key that names
    a member of [Object.prototype] no bucket is created, [sessions += 1]
    lands on that member, which has no [users]: [users.add] throws. *)
Definition trafficBySource_step (acc : JS.obj source_bucket) (s : session)
  : JS.result (JS.obj source_bucket) :=
  let source' := JS.or (utm_source s) (JS.str "direct") in
  let k := JS.ToPropertyKey source' in
  let acc1 :=
    if no_object (JS.read k acc)
    then JS.set k (mkSourceBucket source' 0 []) acc
    else acc in
  match JS.read k acc1 with
  | JS.own b =>
      JS.Ok (JS.set k (mkSourceBucket (bucket_source b) (bucket_sessions b + 1)
                         (JS.Set_add (user_id s) (bucket_users b))) acc1)
  | JS.from_prototype _ =>
      JS.Throw "TypeError: Cannot read properties of undefined (reading 'add')"
  | JS.missing =>
      JS.Throw
        "TypeError: Cannot read properties of undefined (reading 'sessions')"
  end.

(** Lines 39-47. *)
Definition trafficBySource (sessions : list session)
  : JS.result (JS.obj source_bucket) :=
  JS.reduce trafficBySource_step sessions [].

(** Lines 56-63: the reducer of [trafficByCampaign].  Under a key that
    names a member of [Object.prototype] no row is created and
    [sessions += 1] lands on that member. *)
Definition trafficByCampaign_step (acc : JS.obj campaign_row) (s : session)
  : JS.result (JS.obj campaign_row) :=
  let campaign' := JS.or (utm_campaign s) (JS.str "none") in
  let k := JS.ToPropertyKey campaign' in
  let acc1 :=
    if no_object (JS.read k acc)
    then JS.set k (mkCampaignRow campaign' 0) acc
    else acc in
  match JS.read k acc1 with
  | JS.own r =>
      JS.Ok (JS.set k (mkCampaignRow (campaign r) (campaign_sessions r + 1))
               acc1)
  | JS.from_prototype _ => JS.Ok acc1
  | JS.missing =>
      JS.Throw
        "TypeError: Cannot read properties of undefined (reading 'sessions')"
  end.

(** Lines 56-63. *)
Definition trafficByCampaign (sessions : list session)
  : JS.result (JS.obj campaign_row) :=
  JS.reduce trafficByCampaign_step sessions [].

(** Lines 87-95: the reducer of [landingPages]. *)
Definition landingPages_step (acc : landing_acc) (pv : pageview) : landing_acc :=
  let k := JS.ToPropertyKey (website_session_id pv) in
  if not_seen (JS.read k (acc_sessions acc))
  then
    let sessions1 := JS.assign k true (acc_sessions acc) in
    let url' := JS.ToPropertyKey (JS.or (pageview_url pv) (JS.str "/")) in
    mkLandingAcc sessions1
      (JS.assign url' (plus_one (JS.read url' (acc_pages acc))) (acc_pages acc))
  else acc.

(** Lines 87-95. *)
Definition landingPages (pageviews : list pageview) : landing_acc :=
  fold_left landingPages_step pageviews (mkLandingAcc [] []).

Section Traffic.

Variable e : engine.

(** [session.device_type?.toLowerCase() || 'unknown'] *)
Definition device_of (s : session) : JS.value :=
  JS.or (JS.opt_toLowerCase (toLowerCase e) (device_type s))
    (JS.str "unknown").

(** Lines 16-20: the reducer of [deviceCounts]. *)
Definition deviceCounts_step (acc : JS.obj counter) (s : session)
  : JS.obj counter :=
  let device := JS.ToPropertyKey (device_of s) in
  JS.assign device (plus_one (JS.read device acc)) acc.

(** [session.device_type?.toLowerCase() === name] *)
Definition is_device (name : string) (s : session) : bool :=
  JS.strict_eq (JS.opt_toLowerCase (toLowerCase e) (device_type s))
    (JS.str name).

(** Lines 68-80: the reducer of [trafficByDate]; [created_at.split] throws
    on a session without a string [created_at].  Under a date that names a
    member of [Object.prototype] no row is created and the additions land
    on that member. *)
Definition trafficByDate_step (acc : JS.obj date_row) (s : session)
  : JS.result (JS.obj date_row) :=
  JS.bind (JS.split_space_0 (created_at s)) (fun date' =>
  let acc1 :=
    if no_object (JS.read date' acc)
    then JS.set date' (mkDateRow date' 0 0 0) acc
    else acc in
  match JS.read date' acc1 with
  | JS.own r =>
      let r1 := mkDateRow (date r) (date_sessions r + 1) (desktop r) (mobile r) in
      let r2 :=
        if is_device "desktop" s
        then mkDateRow (date r1) (date_sessions r1) (desktop r1 + 1) (mobile r1)
        else if is_device "mobile" s
        then mkDateRow (date r1) (date_sessions r1) (desktop r1) (mobile r1 + 1)
        else r1 in
      JS.Ok (JS.set date' r2 acc1)
  | JS.from_prototype _ => JS.Ok acc1
  | JS.missing =>
      JS.Throw
        "TypeError: Cannot read properties of undefined (reading 'sessions')"
  end).

(** Lines 68-80. *)
Definition trafficByDate (sessions : list session)
  : JS.result (JS.obj date_row) :=
  JS.reduce trafficByDate_step sessions [].

(** Lines 82-84: [new Date(a.date) - new Date(b.date)]; a [NaN]
    difference is read as [0] by the sort. *)
Definition by_date (a b : date_row) : Z :=
  match Date_parse e (date a), Date_parse e (date b) with
  | Some x, Some y => (x - y)%Z
  | _, _ => 0%Z
  end.

(** Lines 8-114. *)
Definition calculateMetrics (sessions : list session)
  (pageviews : list pageview) : JS.result traffic_metrics :=
  let totalSessions := List.length sessions in
  let uniqueUsers := JS.size (JS.new_Set (map user_id sessions)) in
  let deviceCounts := fold_left deviceCounts_step sessions [] in
  let newSessions :=
    List.length
      (filter (fun s => JS.strict_eq (is_repeat_session s) (JS.str "0"))
         sessions) in
  let returningSessions :=
    List.length
      (filter (fun s => JS.strict_eq (is_repeat_session s) (JS.str "1"))
         sessions) in
  let bounceRate :=
    if (0 <? totalSessions)%nat
    then ((Q_of_nat (bouncedSessions pageviews) / Q_of_nat totalSessions)
          * 100)%Q
    else 0%Q in
  let avgPagesPerSession :=
    if (0 <? totalSessions)%nat
    then (Q_of_nat (List.length pageviews) / Q_of_nat totalSessions)%Q
    else 0%Q in
  JS.bind (trafficBySource sessions) (fun trafficBySource =>
  let sourceData :=
    map (fun item =>
           mkSourceRow (bucket_source item) (bucket_sessions item)
             (JS.size (bucket_users item)))
      (JS.Object_values trafficBySource) in
  JS.bind (trafficByCampaign sessions) (fun trafficByCampaign =>
  let campaignData := JS.Object_values trafficByCampaign in
  JS.bind (trafficByDate sessions) (fun trafficByDate =>
  let timelineData :=
    Array_sort e by_date (JS.Object_values trafficByDate) in
  let topLandingPages :=
    Array_sort e by_sessions_desc
      (map (fun entry => mkLandingRow (fst entry) (snd entry))
         (JS.Object_entries (acc_pages (landingPages pageviews)))) in
  JS.Ok
    (mkTrafficMetrics totalSessions uniqueUsers bounceRate avgPagesPerSession
       deviceCounts newSessions returningSessions sourceData campaignData
       timelineData topLandingPages)))).

End Traffic.

(** ** An engine for the examples

    It stands for the runtime on the inputs of the examples only: ASCII
    strings, dates written in one of two ISO forms with a day of the
    month that exists, and comparators that compare by a key. *)

Definition lower_ascii (c : ascii) : ascii :=
  let n := nat_of_ascii c in
  if (65 <=? n)%nat && (n <=? 90)%nat then ascii_of_nat (n + 32) else c.

(** [s.toLowerCase()] for a string of ASCII characters. *)
Fixpoint ascii_toLowerCase (s : string) : string :=
  match s with
  | EmptyString => EmptyString
  | String c r => String (lower_ascii c) (ascii_toLowerCase r)
  end.

(** Two decimal digits. *)
Definition two_digits (a b : ascii) : option Z :=
  match JS.digit a, JS.digit b with
  | Some x, Some y => Some (Z.of_N (10 * x + y))
  | _, _ => None
  end.

Definition leap (y : Z) : bool :=
  ((y mod 4 =? 0) && negb (y mod 100 =? 0) || (y mod 400 =? 0))%Z.

Definition days_in_month (y m : Z) : Z :=
  if (m =? 2)%Z then (if leap y then 29 else 28)%Z
  else if ((m =? 4) || (m =? 6) || (m =? 9) || (m =? 11))%Z then 30%Z
  else 31%Z.

Definition days_from_civil (y m d : Z) : Z :=
  let y' := (if m <=? 2 then y - 1 else y)%Z in
  let era := (y' / 400)%Z in
  let yoe := (y' - era * 400)%Z in
  let mp := (if m >? 2 then m - 3 else m + 9)%Z in
  let doy := ((153 * mp + 2) / 5 + d - 1)%Z in
  let doe := (yoe * 365 + yoe / 4 - yoe / 100 + doy)%Z in
  (era * 146097 + doe - 719468)%Z.

Definition iso_day_ms (y1 y2 y3 y4 m1 m2 d1 d2 : ascii) : option Z :=
  match two_digits y1 y2, two_digits y3 y4,
        two_digits m1 m2, two_digits d1 d2 with
  | Some yh, Some yl, Some m, Some d =>
      let y := (100 * yh + yl)%Z in
      if ((1 <=? m) && (m <=? 12) && (1 <=? d) && (d <=? days_in_month y m))%Z
      then Some (days_from_civil y m d * 86400000)%Z
      else None
  | _, _, _, _ => None
  end.

Definition iso_time_ms (h1 h2 n1 n2 s1 s2 : ascii) : option Z :=
  match two_digits h1 h2, two_digits n1 n2, two_digits s1 s2 with
  | Some h, Some n, Some s =>
      if (((h <=? 23) && (n <=? 59) && (s <=? 59))
          || ((h =? 24) && (n =? 0) && (s =? 0)))%Z
      then Some (h * 3600000 + n * 60000 + s * 1000)%Z
      else None
  | _, _, _ => None
  end.

(** The time value, in milliseconds, of a date written as [YYYY-MM-DD]
    (midnight UTC) or [YYYY-MM-DDTHH:mm:ssZ], the day being one of the
    month.  It answers [None] on every other string, which is not what
    every engine does there (some roll an overflowing day over): it is
    used on the two ISO forms only. *)
Definition iso_date_ms (s : string) : option Z :=
  match s with
  | String y1 (String y2 (String y3 (String y4 (String "-"
      (String m1 (String m2 (String "-" (String d1 (String d2 rest))))))))) =>
      match rest with
      | EmptyString => iso_day_ms y1 y2 y3 y4 m1 m2 d1 d2
      | String "T" (String h1 (String h2 (String ":" (String n1 (String n2
          (String ":" (String s1 (String s2 (String "Z" EmptyString))))))))) =>
          match iso_day_ms y1 y2 y3 y4 m1 m2 d1 d2,
                iso_time_ms h1 h2 n1 n2 s1 s2 with
          | Some day, Some time => Some (day + time)%Z
          | _, _ => None
          end
      | _ => None
      end
  | _ => None
  end.

Definition sample_engine : engine :=
  mkEngine iso_date_ms ascii_toLowerCase (@JS.sort).

(** ** utils/dataCleaners.js (the records and calculators the hook imports) *)

Module Cleaners.

(** Modelled from the spec: the cleaned Order of the data model (id,
    created_at, total_amount); utils/dataCleaners.js, which builds it,
    is not among the sources. *)
Record order : Type := mkOrder {
  order_id : JS.value;
  order_created_at : JS.value;
  total_amount : Q
}.

(** Modelled from the spec: the cleaned Refund of the data model
    (order_item_id, amount); utils/dataCleaners.js is not among the
    sources. *)
Record refund : Type := mkRefund {
  order_item_id : JS.value;
  amount : Q
}.

(** Modelled from the spec: [totalRevenue = Σ order.total_amount]
    (calculateTotalRevenue of utils/dataCleaners.js, not among the
    sources). *)
Definition calculateTotalRevenue (orders : list order) : Q :=
  fold_left (fun sum o => (sum + total_amount o)%Q) orders 0%Q.

(** Modelled from the spec: [totalRefunds = Σ refund.amount]
    (calculateTotalRefunds of utils/dataCleaners.js, not among the
    sources). *)
Definition calculateTotalRefunds (refunds : list refund) : Q :=
  fold_left (fun sum r => (sum + amount r)%Q) refunds 0%Q.

Definition Qpos_bool (q : Q) : bool := negb (Qle_bool q 0%Q).

(** Modelled from the spec: [refundRate = totalRefunds / totalRevenue]
    when [totalRevenue > 0], else [0] (calculateRefundRate of
    utils/dataCleaners.js, not among the sources). *)
Definition calculateRefundRate (orders : list order) (refunds : list refund)
  : JS.number :=
  let totalRevenue := calculateTotalRevenue orders in
  let totalRefunds := calculateTotalRefunds refunds in
  if Qpos_bool totalRevenue
  then JS.div totalRefunds totalRevenue
  else JS.num 0%Q.

(** Modelled from the spec: [AOV = totalRevenue / orders.length] when
    [orders.length > 0], else [0] (calculateAOV of utils/dataCleaners.js,
    not among the sources). *)
Definition calculateAOV (orders : list order) : JS.number :=
  if (0 <? List.length orders)%nat
  then JS.div (calculateTotalRevenue orders) (Q_of_nat (List.length orders))
  else JS.num 0%Q.

End Cleaners.

(** ** client/src/hooks/useDashBoardData.js *)

Module Hook.

Import Cleaners.

(** Line 27. *)
Definition LIMIT_ROWS : nat := 500.

(** An imported JSON document: an array of rows, or something else. *)
Inductive json (Row : Type) : Type :=
| json_array (rows : list Row)
| json_other.
Arguments json_other {Row}.

(** [Array.isArray(raw) ? raw.slice(0, LIMIT_ROWS) : []] *)
Definition limit_rows {Row} (raw : json Row) : list Row :=
  match raw with
  | json_array rows => firstn LIMIT_ROWS rows
  | json_other => []
  end.

(** What is written on the error channel: [console.error] and the
    [setError] of the hook's state ([console.log] is not tracked). *)
Inductive effect : Type :=
| console_error (label message : string)
| setError (message : string).


(** [err.message || fallback] *)
Definition message_or (m fallback : string) : string :=
  if String.eqb m "" then fallback else m.

Section UseDashboardData.

(** The rows of the JSON files, and the cleaned records that
    Traffic.jsx does not read. *)
Variables raw_row order_item product : Type.

(** The cleaners and aggregators of utils/dataCleaners.js: any of them
    may throw. *)
Variable cleanOrdersData : list raw_row -> JS.result (list order).
Variable cleanOrderItemsData : list raw_row -> JS.result (list order_item).
Variable cleanRefundsData : list raw_row -> JS.result (list refund).
Variable cleanProductsData : list raw_row -> JS.result (list product).
Variable cleanSessionsData : list raw_row -> JS.result (list session).
Variable cleanPageviewsData : list raw_row -> JS.result (list pageview).

Variable calculateTotalRevenue : list order -> JS.result JS.number.
Variable calculateTotalRefunds : list refund -> JS.result JS.number.
Variable calculateRefundRate :
  list order -> list refund -> JS.result JS.number.
Variable calculateAOV : list order -> JS.result JS.number.

Variables month_row year_row product_row : Type.
Variable aggregateRevenueByMonth : list order -> JS.result (list month_row).
Variable aggregateRevenueByYear : list order -> JS.result (list year_row).
Variable getRefundsByProduct :
  list refund -> list order_item -> list product
  -> JS.result (list product_row).
Variable getOrdersByProduct :
  list order_item -> list product -> JS.result (list product_row).

(** Lines 20-25: the six imported documents. *)
Record raw_data : Type := mkRaw {
  ordersRaw : json raw_row;
  orderItemsRaw : json raw_row;
  refundsRaw : json raw_row;
  productsRaw : json raw_row;
  sessionsRaw : json raw_row;
  pageviewsRaw : json raw_row
}.

(** Lines 39-56: the six capped arrays. *)
Record limited_data : Type := mkLimited {
  ordersLimited : list raw_row;
  orderItemsLimited : list raw_row;
  refundsLimited : list raw_row;
  productsLimited : list raw_row;
  sessionsLimited : list raw_row;
  pageviewsLimited : list raw_row
}.

Definition limit_all (raw : raw_data) : limited_data :=
  mkLimited (limit_rows (ordersRaw raw)) (limit_rows (orderItemsRaw raw))
    (limit_rows (refundsRaw raw)) (limit_rows (productsRaw raw))
    (limit_rows (sessionsRaw raw)) (limit_rows (pageviewsRaw raw)).

(** Line 83: what [processedData] holds. *)
Record processed : Type := mkProcessed {
  orders : list order;
  orderItems : list order_item;
  refunds : list refund;
  products : list product;
  sessions : list session;
  pageviews : list pageview
}.

(** Lines 67-83: the six cleaners, in order. *)
Definition clean_all (l : limited_data) : JS.result processed :=
  JS.bind (cleanOrdersData (ordersLimited l)) (fun orders =>
  JS.bind (cleanOrderItemsData (orderItemsLimited l)) (fun orderItems =>
  JS.bind (cleanRefundsData (refundsLimited l)) (fun refunds =>
  JS.bind (cleanProductsData (productsLimited l)) (fun products =>
  JS.bind (cleanSessionsData (sessionsLimited l)) (fun sessions =>
  JS.bind (cleanPageviewsData (pageviewsLimited l)) (fun pageviews =>
  JS.Ok (mkProcessed orders orderItems refunds products sessions
           pageviews))))))).

(** Lines 34-96. *)
Definition processedData (raw : raw_data) : processed * list effect :=
  JS.try_catch
    (JS.bind (clean_all (limit_all raw)) (fun d => JS.Ok (d, [])))
    (fun err =>
       (mkProcessed [] [] [] [] [] [],
        [console_error "Error processing data:" err;
         setError (message_or err "Failed to process data")])).

(** The object held by [metrics]. *)
Record metrics_record : Type := mkMetrics {
  totalOrders : JS.number;
  totalRevenue : JS.number;
  totalRefunds : JS.number;
  refundRate : JS.number;
  aov : JS.number;
  netRevenue : JS.number;
  totalSessions : JS.number;
  totalPageviews : JS.number;
  totalProducts : JS.number;
  limited : nat
}.

Definition count {A} (l : list A) : JS.number :=
  JS.num (Q_of_nat (List.length l)).

(** Lines 123-134: the zeroed fallback. *)
Definition zero_metrics : metrics_record :=
  mkMetrics (JS.num 0%Q) (JS.num 0%Q) (JS.num 0%Q) (JS.num 0%Q)
    (JS.num 0%Q) (JS.num 0%Q) (JS.num 0%Q) (JS.num 0%Q) (JS.num 0%Q)
    LIMIT_ROWS.

(** Lines 104-120: the body of the [try]. *)
Definition metrics_body (d : processed) : JS.result metrics_record :=
  JS.bind (calculateTotalRevenue (orders d)) (fun totalRevenue =>
  JS.bind (calculateTotalRefunds (refunds d)) (fun totalRefunds =>
  JS.bind (calculateRefundRate (orders d) (refunds d)) (fun refundRate =>
  JS.bind (calculateAOV (orders d)) (fun aov =>
  JS.Ok
    (mkMetrics (count (orders d)) totalRevenue totalRefunds refundRate aov
       (JS.sub totalRevenue totalRefunds) (count (sessions d))
       (count (pageviews d)) (count (products d)) LIMIT_ROWS))))).

(** Lines 102-136. *)
Definition metrics (d : processed) : metrics_record * list effect :=
  JS.try_catch
    (JS.bind (metrics_body d) (fun m => JS.Ok (m, [])))
    (fun err =>
       (zero_metrics, [console_error "Error calculating metrics:" err])).





End UseDashboardData.

End Hook.


(** ** Vocabulary of the specification *)

(** The read-modify-write [acc[key x] = f x acc[key x]] of an own
    property. *)
Definition upsert {A V} (key : A -> string) (f : A -> option V -> V)
  (acc : JS.obj V) (x : A) : JS.obj V :=
  JS.set (key x) (f x (JS.get (key x) acc)) acc.

(** The elements of [xs] grouped under [k]. *)
Definition bucket {A} (key : A -> string) (k : string) (xs : list A) : list A :=
  filter (fun x => String.eqb (key x) k) xs.

(** The elements whose key names no member of [Object.prototype], and
    those whose key is not [__proto__]. *)
Definition plain {A} (key : A -> string) (xs : list A) : list A :=
  filter (fun x => negb (JS.inherited (key x))) xs.

Definition storable {A} (key : A -> string) (xs : list A) : list A :=
  filter (fun x => negb (String.eqb (key x) "__proto__")) xs.

(** The grouping keys of a session and of a pageview. *)
Definition device_key (e : engine) (s : session) : string :=
  JS.ToPropertyKey (device_of e s).

Definition source_key (s : session) : string :=
  JS.ToPropertyKey (JS.or (utm_source s) (JS.str "direct")).

Definition campaign_key (s : session) : string :=
  JS.ToPropertyKey (JS.or (utm_campaign s) (JS.str "none")).

(** The date portion of [created_at] (for a session that has one). *)
Definition date_key (s : session) : string :=
  match created_at s with
  | JS.str c => JS.before_space c
  | _ => EmptyString
  end.

Definition session_key (pv : pageview) : string :=
  JS.ToPropertyKey (website_session_id pv).

Definition url_key (pv : pageview) : string :=
  JS.ToPropertyKey (JS.or (pageview_url pv) (JS.str "/")).

(** A session whose [created_at] is a string. *)
Definition has_created_at (s : session) : bool :=
  match created_at s with JS.str _ => true | _ => false end.

(** A session on which [calculateMetrics] does not throw: its source names
    no member of [Object.prototype] and its [created_at] is a string. *)
Definition harmless (s : session) : bool :=
  negb (JS.inherited (source_key s)) && has_created_at s.

(** The first pageview of each session id, in input order: a pageview is
    kept when none of those before it carries its session id.  A session
    id that names a member of [Object.prototype] has none. *)
Definition is_first (before : list pageview) (pv : pageview) : bool :=
  negb (JS.inherited (session_key pv))
  && negb (existsb (fun p => String.eqb (session_key p) (session_key pv))
             before).

Fixpoint landing_from (before pvs : list pageview) : list pageview :=
  match pvs with
  | [] => []
  | pv :: rest =>
      (if is_first before pv then [pv] else [])
      ++ landing_from (before ++ [pv]) rest
  end.

Definition landing_pageviews (pvs : list pageview) : list pageview :=
  landing_from [] pvs.

(** The number of elements that satisfy a test. *)
Definition count_if {A} (p : A -> bool) (xs : list A) : nat :=
  List.length (filter p xs).

(** The numbers among the values of a counter object, added up. *)
Definition cell_count (c : counter) : nat :=
  match c with
  | count n => n
  | native _ _ => 0
  end.

Definition sum_counts (o : JS.obj counter) : nat :=
  list_sum (map cell_count (JS.Object_values o)).

(** What a counter holds under [k] after [n] additions. *)
Definition counter_cell (k : string) (n : nat) : counter :=
  if JS.inherited k then native k n else count n.

(** What each reducer writes into the own property it touches, given what
    that property held before. *)
Definition counter_update {A} (key : A -> string) (x : A) (c : option counter)
  : counter :=
  plus_one
    match c with
    | Some v => JS.own v
    | None =>
        if JS.inherited (key x) then JS.from_prototype (key x) else JS.missing
    end.

Definition source_update (s : session) (c : option source_bucket)
  : source_bucket :=
  let b := match c with
           | Some b => b
           | None => mkSourceBucket (JS.or (utm_source s) (JS.str "direct")) 0 []
           end in
  mkSourceBucket (bucket_source b) (bucket_sessions b + 1)
    (JS.Set_add (user_id s) (bucket_users b)).

Definition campaign_update (s : session) (c : option campaign_row)
  : campaign_row :=
  let r := match c with
           | Some r => r
           | None => mkCampaignRow (JS.or (utm_campaign s) (JS.str "none")) 0
           end in
  mkCampaignRow (campaign r) (campaign_sessions r + 1).

Definition date_update (e : engine) (s : session) (c : option date_row)
  : date_row :=
  let r := match c with
           | Some r => r
           | None => mkDateRow (date_key s) 0 0 0
           end in
  if is_device e "desktop" s
  then mkDateRow (date r) (date_sessions r + 1) (desktop r + 1) (mobile r)
  else if is_device e "mobile" s
  then mkDateRow (date r) (date_sessions r + 1) (desktop r) (mobile r + 1)
  else mkDateRow (date r) (date_sessions r + 1) (desktop r) (mobile r).

(** A weight summed over the properties of an object. *)
Definition weight_of {V} (w : V -> nat) (c : option V) : nat :=
  match c with Some v => w v | None => 0 end.

Definition total_weight {V} (w : V -> nat) (o : JS.obj V) : nat :=
  list_sum (map (fun entry => w (snd entry)) o).

(** The pure reading of the three groupings of sessions, on sessions for
    which the reducers do not throw. *)
Definition trafficBySource_of (sessions : list session)
  : JS.obj source_bucket :=
  fold_left (upsert source_key source_update) sessions [].

Definition trafficByCampaign_of (sessions : list session)
  : JS.obj campaign_row :=
  fold_left (upsert campaign_key campaign_update)
    (plain campaign_key sessions) [].

Definition trafficByDate_of (e : engine) (sessions : list session)
  : JS.obj date_row :=
  fold_left (upsert date_key (date_update e)) (plain date_key sessions) [].

(** The session ids that the pageviews mention, each once, and the number
    of pageviews that carry a given id. *)
Definition mentioned_session_ids (pageviews : list pageview) : list string :=
  nodup string_dec (map session_key pageviews).

Definition pageview_count (pageviews : list pageview) (k : string) : nat :=
  count_if (fun pv => String.eqb (session_key pv) k) pageviews.

(** The distinct user ids of some sessions. *)
Definition value_eq_dec (a b : JS.value) : {a = b} + {a <> b}.
Proof. decide equality; apply string_dec. Defined.

Definition distinct_users (l : list session) : list JS.value :=
  nodup value_eq_dec (map user_id l).

(** The time value of a timeline row, and the strict order of two rows by
    date (an Invalid Date is before nothing and after nothing). *)
Definition time_of (e : engine) (r : date_row) : Z :=
  match Date_parse e (date r) with Some t => t | None => 0%Z end.

Definition date_before (e : engine) (a b : date_row) : Prop :=
  match Date_parse e (date a), Date_parse e (date b) with
  | Some x, Some y => (x < y)%Z
  | _, _ => False
  end.

(** The timeline row of the sessions of one date. *)
Definition date_row_of (e : engine) (k : string) (l : list session)
  : date_row :=
  mkDateRow k (List.length l) (count_if (is_device e "desktop") l)
    (count_if (is_device e "mobile") l).

(** The landing page row of a URL with [n] landing pageviews. *)
Definition landing_row_of (u : string) (n : nat) : landing_row :=
  mkLandingRow u (counter_cell u n).


(** ** Sample rows *)

Definition a_session (user device repeat source campaign created : string)
  : session :=
  mkSession (JS.str user) (JS.str device) (JS.str repeat) (JS.str source)
    (JS.str campaign) (JS.str created).

Definition a_pageview (sid page : string) : pageview :=
  mkPageview (JS.str sid) (JS.str page).

(** One session and the pageviews of two session ids: at least one of the
    pageviews belongs to no session of the array. *)
Definition one_session : list session :=
  [a_session "7" "mobile" "0" "gsearch" "nonbrand" "2012-03-19 08:04:16"].


(** Three sessions (ids 1, 2, 3) with one, two and two pageviews: the
    scenario of the specification. *)
Definition three_sessions : list session :=
  [a_session "1" "mobile" "0" "gsearch" "nonbrand" "2012-03-19 08:04:16";
   a_session "2" "desktop" "1" "" "" "2012-03-19 09:10:00";
   a_session "3" "Desktop" "0" "bsearch" "brand" "2012-03-20 11:00:00"].

Definition five_pageviews : list pageview :=
  [a_pageview "1" "/home";
   a_pageview "2" "/home"; a_pageview "2" "/products";
   a_pageview "3" "/lander-1"; a_pageview "3" "/cart"].

(** Two sessions of the same day, whose [created_at] are written in the
    two ISO forms. *)
Definition same_day_sessions : list session :=
  [a_session "1" "mobile" "0" "gsearch" "nonbrand" "2012-03-19T00:00:00Z";
   a_session "2" "desktop" "0" "gsearch" "nonbrand" "2012-03-19 08:04:16"].

(** The same two sessions in the other order. *)
Definition same_day_sessions_swapped : list session :=
  [a_session "2" "desktop" "0" "gsearch" "nonbrand" "2012-03-19 08:04:16";
   a_session "1" "mobile" "0" "gsearch" "nonbrand" "2012-03-19T00:00:00Z"].

(** Two pageviews of one session, in both orders. *)
Definition home_then_cart : list pageview :=
  [a_pageview "1" "/home"; a_pageview "1" "/cart"].

Definition cart_then_home : list pageview :=
  [a_pageview "1" "/cart"; a_pageview "1" "/home"].




(** ** Vocabulary for the hook *)

(** The first [n] rows of an imported document, none if it is no array. *)
Definition first_rows {Row} (n : nat) (raw : Hook.json Row) : list Row :=
  match raw with
  | Hook.json_array rows => firstn n rows
  | Hook.json_other => []
  end.

(** The six documents cut down to their first [n] rows. *)
Definition capped {Row} (n : nat) (raw : Hook.raw_data Row) : Hook.raw_data Row :=
  Hook.mkRaw
    (Hook.json_array (first_rows n (Hook.ordersRaw raw)))
    (Hook.json_array (first_rows n (Hook.orderItemsRaw raw)))
    (Hook.json_array (first_rows n (Hook.refundsRaw raw)))
    (Hook.json_array (first_rows n (Hook.productsRaw raw)))
    (Hook.json_array (first_rows n (Hook.sessionsRaw raw)))
    (Hook.json_array (first_rows n (Hook.pageviewsRaw raw))).

(** What [processedData] holds when a cleaner has thrown: six empty
    arrays, one [console.error] line and the error indicator. *)
Definition cleaning_failed {order_item product} (err : string)
  : Hook.processed order_item product * list Hook.effect :=
  (Hook.mkProcessed [] [] [] [] [] [],
   [Hook.console_error "Error processing data:" err;
    Hook.setError (Hook.message_or err "Failed to process data")]).

(** The hook's [metrics] over the calculators of the specification. *)
Definition dashboard_metrics {order_item product}
  (d : Hook.processed order_item product)
  : Hook.metrics_record * list Hook.effect :=
  Hook.metrics
    (fun orders => JS.Ok (JS.num (Cleaners.calculateTotalRevenue orders)))
    (fun refunds => JS.Ok (JS.num (Cleaners.calculateTotalRefunds refunds)))
    (fun orders refunds => JS.Ok (Cleaners.calculateRefundRate orders refunds))
    (fun orders => JS.Ok (Cleaners.calculateAOV orders))
    d.

(** Orders of 100 and 50 with one refund of 25: the scenario of the
    specification; and a refund against no revenue. *)
Definition an_order (total : Q) : Cleaners.order :=
  Cleaners.mkOrder JS.undefined JS.undefined total.

Definition a_refund (amount : Q) : Cleaners.refund :=
  Cleaners.mkRefund JS.undefined amount.

Definition scenario_data : Hook.processed unit unit :=
  Hook.mkProcessed [an_order (100 # 1); an_order (50 # 1)] []
    [a_refund (25 # 1)] [] [] [].

Definition refund_without_revenue : Hook.processed unit unit :=
  Hook.mkProcessed [] [] [a_refund (25 # 1)] [] [] [].


(** ** Traffic.jsx, lines 116-281: what the component hands to its children

    The values that the JSX passes on, before [formatNumber],
    [formatPercentage] and [toFixed] turn them into text. *)

(** [a * b] *)
Definition times (a b : JS.number) : JS.number :=
  match a, b with
  | JS.num x, JS.num y => JS.num (x * y)%Q
  | JS.NaN, _ | _, JS.NaN => JS.NaN
  | JS.Infinity s, JS.num y =>
      if Qeq_bool y 0%Q then JS.NaN else JS.Infinity (xorb s (JS.Qsign_neg y))
  | JS.num x, JS.Infinity s =>
      if Qeq_bool x 0%Q then JS.NaN else JS.Infinity (xorb s (JS.Qsign_neg x))
  | JS.Infinity s, JS.Infinity t => JS.Infinity (xorb s t)
  end.

(** [(part / total) * 100], with nothing guarding the division. *)
Definition percent_of (part total : nat) : JS.number :=
  times (JS.div (Q_of_nat part) (Q_of_nat total)) (JS.num 100%Q).

(** The same for a counter: a text divides to [NaN]. *)
Definition percent_of_counter (part : counter) (total : nat) : JS.number :=
  match part with
  | count n => percent_of n total
  | native _ _ => JS.NaN
  end.

(** [{ device, sessions }] *)
Record device_slice : Type := mkDeviceSlice {
  device : string;
  device_sessions : counter
}.

(** A line of the landing page table: URL, sessions, share. *)
Record landing_line : Type := mkLandingLine {
  line_url : string;
  line_sessions : counter;
  line_percent : JS.number
}.

(** Line 236: [b.sessions - a.sessions] on the rows of [sourceData]. *)
Definition by_source_sessions_desc (a b : source_row) : Z :=
  (Z.of_nat (source_sessions b) - Z.of_nat (source_sessions a))%Z.

Record traffic_view : Type := mkTrafficView {
  kpi_totalSessions : nat;
  kpi_uniqueUsers : nat;
  kpi_bounceRate : Q;
  kpi_avgPagesPerSession : Q;
  kpi_desktop : counter;
  kpi_mobile : counter;
  kpi_returning : JS.number;
  timeline_chart : list date_row;
  source_chart : list source_row;
  device_chart : list device_slice;
  campaign_chart : list campaign_row;
  sources_table : list source_row;
  landing_table : list landing_line
}.

(** Lines 118-281.  [metrics.sourceData.sort(...)] of line 235 sorts the
    array in place, and the chart of line 198 was handed that same array:
    by the time the chart is drawn it holds the sorted rows; its
    comparator compares two numbers, so the order is that of the stable
    sort.  [desktop] and [mobile] name no member of [Object.prototype]:
    reading them is reading an own property. *)
Definition render (metrics : traffic_metrics) : traffic_view :=
  let sourceData_sorted :=
    JS.sort by_source_sessions_desc (sourceData metrics) in
  mkTrafficView
    (totalSessions metrics)
    (uniqueUsers metrics)
    (bounceRate metrics)
    (avgPagesPerSession metrics)
    (or_zero (JS.get "desktop" (deviceCounts metrics)))
    (or_zero (JS.get "mobile" (deviceCounts metrics)))
    (percent_of (returningSessions metrics) (totalSessions metrics))
    (timelineData metrics)
    sourceData_sorted
    [mkDeviceSlice "Desktop" (or_zero (JS.get "desktop" (deviceCounts metrics)));
     mkDeviceSlice "Mobile" (or_zero (JS.get "mobile" (deviceCounts metrics)))]
    (firstn 5 (campaignData metrics))
    (firstn 5 sourceData_sorted)
    (map (fun item =>
            mkLandingLine (url item) (landing_sessions item)
              (percent_of_counter (landing_sessions item)
                 (totalSessions metrics)))
       (firstn 5 (topLandingPages metrics))).

(** Lines 6-281: the component. *)
Definition TrafficSection (e : engine)
  (sessions : list session) (pageviews : list pageview)
  : JS.result traffic_view :=
  JS.bind (calculateMetrics e sessions pageviews)
    (fun metrics => JS.Ok (render metrics)).

(** ** useDashBoardData.js, lines 175-219: the timer and the returned state *)

Module HookState.

(** [if (error)] on the state, which holds [null] or a message. *)
Definition error_truthy (error : option string) : bool :=
  match error with
  | Some m => negb (String.eqb m "")
  | None => false
  end.

(** Lines 177-189, the callback of the timer, for documents that are
    arrays: the arguments of the [setError] and [setIsLoading] calls, as
    the new [error] and [isLoading]. *)
Definition timer_callback {raw_row order}
  (orders : list order) (sessions : list session)
  (ordersRaw sessionsRaw : list raw_row) (error : option string)
  : option string * bool :=
  let error' :=
    if Nat.eqb (List.length orders) 0 && (0 <? List.length ordersRaw)%nat
    then Some "Failed to load order data"%string
    else if Nat.eqb (List.length sessions) 0
            && (0 <? List.length sessionsRaw)%nat
    then Some "Failed to load session data"%string
    else if error_truthy error then error
    else None in
  (error', false).

(** The [error] state after the [setError] calls of a computation
    ([useState(null)] to begin with). *)
Definition error_after (effects : list Hook.effect) (error : option string)
  : option string :=
  fold_left
    (fun e eff =>
       match eff with
       | Hook.setError m => Some m
       | Hook.console_error _ _ => e
       end)
    effects error.

Section Loaded.

Variables raw_row order_item product : Type.
Variable cleanOrdersData : list raw_row -> JS.result (list Cleaners.order).
Variable cleanOrderItemsData : list raw_row -> JS.result (list order_item).
Variable cleanRefundsData : list raw_row -> JS.result (list Cleaners.refund).
Variable cleanProductsData : list raw_row -> JS.result (list product).
Variable cleanSessionsData : list raw_row -> JS.result (list session).
Variable cleanPageviewsData : list raw_row -> JS.result (list pageview).

(** The six documents, all arrays. *)
Definition arrays (o i r p s v : list raw_row) : Hook.raw_data raw_row :=
  Hook.mkRaw (Hook.json_array o) (Hook.json_array i) (Hook.json_array r)
    (Hook.json_array p) (Hook.json_array s) (Hook.json_array v).

(** The [error] and [isLoading] that the hook returns once the timer has
    fired: the cleaning step (lines 34-96), then the callback. *)
Definition loaded (o i r p s v : list raw_row) : option string * bool :=
  let '(data, effects) :=
    Hook.processedData cleanOrdersData cleanOrderItemsData cleanRefundsData
      cleanProductsData cleanSessionsData cleanPageviewsData
      (arrays o i r p s v) in
  timer_callback (Hook.orders data) (Hook.sessions data) o s
    (error_after effects None).

End Loaded.

End HookState.

(** ** The hook without the row cap (the second source file of the hook) *)

Module Uncapped.

Section UseDashboardData.

Variables raw_row order_item product : Type.

(** The cleaners are handed the documents as imported, arrays or not. *)
Variable cleanOrdersData :
  Hook.json raw_row -> JS.result (list Cleaners.order).
Variable cleanOrderItemsData :
  Hook.json raw_row -> JS.result (list order_item).
Variable cleanRefundsData :
  Hook.json raw_row -> JS.result (list Cleaners.refund).
Variable cleanProductsData : Hook.json raw_row -> JS.result (list product).
Variable cleanSessionsData : Hook.json raw_row -> JS.result (list session).
Variable cleanPageviewsData : Hook.json raw_row -> JS.result (list pageview).

Variable calculateTotalRevenue : list Cleaners.order -> JS.result JS.number.
Variable calculateTotalRefunds : list Cleaners.refund -> JS.result JS.number.
Variable calculateRefundRate :
  list Cleaners.order -> list Cleaners.refund -> JS.result JS.number.
Variable calculateAOV : list Cleaners.order -> JS.result JS.number.

(** Lines 139-155 of that file. *)
Definition clean_all (raw : Hook.raw_data raw_row)
  : JS.result (Hook.processed order_item product) :=
  JS.bind (cleanOrdersData (Hook.ordersRaw raw)) (fun orders =>
  JS.bind (cleanOrderItemsData (Hook.orderItemsRaw raw)) (fun orderItems =>
  JS.bind (cleanRefundsData (Hook.refundsRaw raw)) (fun refunds =>
  JS.bind (cleanProductsData (Hook.productsRaw raw)) (fun products =>
  JS.bind (cleanSessionsData (Hook.sessionsRaw raw)) (fun sessions =>
  JS.bind (cleanPageviewsData (Hook.pageviewsRaw raw)) (fun pageviews =>
  JS.Ok (Hook.mkProcessed orders orderItems refunds products sessions
           pageviews))))))).

(** Lines 135-168 of that file. *)
Definition processedData (raw : Hook.raw_data raw_row)
  : Hook.processed order_item product * list Hook.effect :=
  JS.try_catch
    (JS.bind (clean_all raw) (fun d => JS.Ok (d, [])))
    (fun err =>
       (Hook.mkProcessed [] [] [] [] [] [],
        [Hook.console_error "Error processing data:" err;
         Hook.setError (Hook.message_or err "Failed to process data")])).

(** The object held by [metrics]: no [limited] field here. *)
Record metrics_record : Type := mkMetrics {
  totalOrders : JS.number;
  totalRevenue : JS.number;
  totalRefunds : JS.number;
  refundRate : JS.number;
  aov : JS.number;
  netRevenue : JS.number;
  totalSessions : JS.number;
  totalPageviews : JS.number;
  totalProducts : JS.number
}.

(** Lines 193-203 of that file. *)
Definition zero_metrics : metrics_record :=
  mkMetrics (JS.num 0%Q) (JS.num 0%Q) (JS.num 0%Q) (JS.num 0%Q)
    (JS.num 0%Q) (JS.num 0%Q) (JS.num 0%Q) (JS.num 0%Q) (JS.num 0%Q).

(** Lines 173-205 of that file. *)
Definition metrics (d : Hook.processed order_item product)
  : metrics_record * list Hook.effect :=
  JS.try_catch
    (JS.bind (calculateTotalRevenue (Hook.orders d)) (fun totalRevenue =>
     JS.bind (calculateTotalRefunds (Hook.refunds d)) (fun totalRefunds =>
     JS.bind (calculateRefundRate (Hook.orders d) (Hook.refunds d))
       (fun refundRate =>
     JS.bind (calculateAOV (Hook.orders d)) (fun aov =>
     JS.Ok
       (mkMetrics (Hook.count (Hook.orders d)) totalRevenue totalRefunds
          refundRate aov (JS.sub totalRevenue totalRefunds)
          (Hook.count (Hook.sessions d)) (Hook.count (Hook.pageviews d))
          (Hook.count (Hook.products d)), []))))))
    (fun err =>
       (zero_metrics, [Hook.console_error "Error calculating metrics:" err])).

End UseDashboardData.

End Uncapped.

(** The rows of a document, none if it is no array: a cleaner's first
    step in the examples below. *)
Definition rows_of {Row} (raw : Hook.json Row) : list Row :=
  match raw with
  | Hook.json_array rows => rows
  | Hook.json_other => []
  end.

(** ** Invariants of the accumulators *)

(** An accumulator none of whose own keys names a member of
    [Object.prototype]. *)
Definition unshadowing {V} (o : JS.obj V) : Prop :=
  forall k, JS.inherited k = true -> JS.get k o = None.

(** A counter object whose texts sit under the inherited names and whose
    numbers sit under the other keys. *)
Definition well_kinded (o : JS.obj counter) : Prop :=
  forall k c,
    JS.get k o = Some c ->
    match c with
    | count _ => JS.inherited k = false
    | native _ _ => JS.inherited k = true
    end.

(** The step of a counter keyed by [key]. *)
Definition counter_step {A} (key : A -> string) (acc : JS.obj counter) (x : A)
  : JS.obj counter :=
  JS.assign (key x) (plus_one (JS.read (key x) acc)) acc.

(** The [seen] object of the landing pages holds [true] only, under the
    session ids met so far. *)
Definition seen_so_far (before : list pageview) (o : JS.obj bool) : Prop :=
  (forall k b, JS.get k o = Some b -> b = true) /\
  (forall k, JS.get k o <> None <->
             In k (map session_key before) /\ JS.inherited k = false).

(** What [calculateMetrics] returns when it returns. *)
Definition metrics_of (e : engine) (sessions : list session)
  (pageviews : list pageview) : traffic_metrics :=
  mkTrafficMetrics
    (List.length sessions)
    (JS.size (JS.new_Set (map user_id sessions)))
    (if (0 <? List.length sessions)%nat
     then ((Q_of_nat (bouncedSessions pageviews)
            / Q_of_nat (List.length sessions)) * 100)%Q
     else 0%Q)
    (if (0 <? List.length sessions)%nat
     then (Q_of_nat (List.length pageviews)
           / Q_of_nat (List.length sessions))%Q
     else 0%Q)
    (fold_left (counter_step (device_key e)) sessions [])
    (count_if (fun s => JS.strict_eq (is_repeat_session s) (JS.str "0"))
       sessions)
    (count_if (fun s => JS.strict_eq (is_repeat_session s) (JS.str "1"))
       sessions)
    (map (fun item =>
            mkSourceRow (bucket_source item) (bucket_sessions item)
              (JS.size (bucket_users item)))
       (JS.Object_values (trafficBySource_of sessions)))
    (JS.Object_values (trafficByCampaign_of sessions))
    (Array_sort e (by_date e) (JS.Object_values (trafficByDate_of e sessions)))
    (Array_sort e by_sessions_desc
       (map (fun entry => mkLandingRow (fst entry) (snd entry))
          (JS.Object_entries (acc_pages (landingPages pageviews))))).

(* ================================================================== *)
(** * Part II: properties *)
(* ================================================================== *)

(** ** Facts about the runtime model *)

Lemma value_eqb_eq (a b : JS.value) : JS.value_eqb a b = true <-> a = b.
Proof.
  destruct a, b; simpl; split; intro H; try congruence; try reflexivity.
  - apply String.eqb_eq in H. now subst.
  - inversion H. apply String.eqb_refl.
Qed.

Lemma or_is_string (v : JS.value) (d : string) :
  JS.or v (JS.str d) = JS.str (JS.ToPropertyKey (JS.or v (JS.str d))).
Proof.
  unfold JS.or. destruct v; simpl; try reflexivity.
  destruct (negb (s =? "")%string); reflexivity.
Qed.

(** *** Sorting *)

Section SortFacts.
Variable A : Type.
Variable cmp : A -> A -> Z.

Lemma insert_perm (x : A) (l : list A) :
  Permutation (JS.insert cmp x l) (x :: l).
Proof.
  induction l as [|y l IH]; simpl.
  - apply Permutation_refl.
  - destruct (cmp x y <=? 0)%Z.
    + apply Permutation_refl.
    + eapply Permutation_trans.
      * apply perm_skip, IH.
      * apply perm_swap.
Qed.

Lemma sort_perm (l : list A) : Permutation (JS.sort cmp l) l.
Proof.
  induction l as [|x l IH]; simpl.
  - apply Permutation_refl.
  - eapply Permutation_trans; [apply insert_perm|].
    apply perm_skip, IH.
Qed.

Lemma sort_In (l : list A) (x : A) : In x (JS.sort cmp l) <-> In x l.
Proof.
  split; apply Permutation_in;
    [apply sort_perm | apply Permutation_sym, sort_perm].
Qed.

(** When the comparator orders by an integer key, the array comes out
    ascending in that key. *)
Variable key : A -> Z.

Lemma insert_sorted (x : A) (l : list A) :
  (forall y, In y l -> (cmp x y <= 0 <-> key x <= key y)%Z) ->
  StronglySorted (fun a b => key a <= key b)%Z l ->
  StronglySorted (fun a b => key a <= key b)%Z (JS.insert cmp x l).
Proof.
  intros Hc Hs. induction Hs as [|y l Hs IH Hy]; simpl.
  - constructor; [constructor | constructor].
  - destruct (Z.leb_spec (cmp x y) 0) as [Hle|Hgt].
    + assert (Hxy : (key x <= key y)%Z)
        by (apply (proj1 (Hc y (or_introl eq_refl))); exact Hle).
      constructor.
      * constructor; assumption.
      * constructor; [exact Hxy|].
        rewrite Forall_forall in Hy |- *. intros z Hz.
        specialize (Hy z Hz). lia.
    + assert (Hyx : (key y <= key x)%Z).
      { destruct (Z.le_gt_cases (key x) (key y)) as [H|H]; [|lia].
        apply (proj2 (Hc y (or_introl eq_refl))) in H. lia. }
      constructor.
      * apply IH. intros z Hz. apply Hc. now right.
      * rewrite Forall_forall in Hy |- *. intros z Hz.
        apply (Permutation_in _ (insert_perm x l)) in Hz.
        destruct Hz as [<-|Hz]; [exact Hyx | now apply Hy].
Qed.

Lemma sort_sorted (l : list A) :
  (forall x y, In x l -> In y l -> (cmp x y <= 0 <-> key x <= key y)%Z) ->
  StronglySorted (fun a b => key a <= key b)%Z (JS.sort cmp l).
Proof.
  induction l as [|x l IH]; intros Hc; simpl.
  - constructor.
  - apply insert_sorted.
    + intros y Hy. apply Hc; [now left | right; exact (proj1 (sort_In l y) Hy)].
    + apply IH. intros a b Ha Hb. apply Hc; now right.
Qed.
End SortFacts.

(** *** Objects *)

Section ObjFacts.
Variable V : Type.
Implicit Types (o : JS.obj V) (k : string) (v : V).

Lemma get_set_same k v o : JS.get k (JS.set k v o) = Some v.
Proof.
  induction o as [|[k' v'] o IH]; simpl.
  - now rewrite String.eqb_refl.
  - destruct (String.eqb k k') eqn:E; simpl; rewrite E; [reflexivity | exact IH].
Qed.

Lemma get_set_other k k' v o :
  k' <> k -> JS.get k' (JS.set k v o) = JS.get k' o.
Proof.
  intros Hne. induction o as [|[k1 v1] o IH]; simpl.
  - apply String.eqb_neq in Hne. now rewrite Hne.
  - destruct (String.eqb k k1) eqn:E; simpl.
    + apply String.eqb_eq in E. subst k1.
      apply String.eqb_neq in Hne. now rewrite Hne.
    + now rewrite IH.
Qed.

Lemma set_set k v w o : JS.set k v (JS.set k w o) = JS.set k v o.
Proof.
  induction o as [|[k1 v1] o IH]; simpl.
  - now rewrite String.eqb_refl.
  - destruct (String.eqb k k1) eqn:E; simpl; rewrite E; [reflexivity | now rewrite IH].
Qed.

Lemma get_None_keys k o : JS.get k o = None <-> ~ In k (JS.keys o).
Proof.
  induction o as [|[k1 v1] o IH]; simpl.
  - tauto.
  - destruct (String.eqb_spec k k1) as [->|Hne].
    + split; [discriminate | intros H; exfalso; apply H; now left].
    + rewrite IH. split; [intros H [Heq|Hin]; [congruence | tauto] | tauto].
Qed.


Lemma keys_set k v o :
  JS.keys (JS.set k v o) =
  match JS.get k o with Some _ => JS.keys o | None => JS.keys o ++ [k] end.
Proof.
  induction o as [|[k1 v1] o IH]; simpl.
  - reflexivity.
  - destruct (String.eqb k k1) eqn:E; simpl.
    + reflexivity.
    + unfold JS.keys in *. simpl. rewrite IH.
      destruct (JS.get k o); reflexivity.
Qed.

Lemma NoDup_keys_set k v o :
  NoDup (JS.keys o) -> NoDup (JS.keys (JS.set k v o)).
Proof.
  intros Hnd. rewrite keys_set. destruct (JS.get k o) eqn:E.
  - exact Hnd.
  - apply get_None_keys in E.
    apply (Permutation_NoDup (l := k :: JS.keys o)).
    + apply Permutation_cons_append.
    + now constructor.
Qed.

Lemma get_In k v o : JS.get k o = Some v -> In (k, v) o.
Proof.
  induction o as [|[k1 v1] o IH]; simpl; [discriminate|].
  destruct (String.eqb_spec k k1) as [->|Hne].
  - intros [= ->]. now left.
  - intros H. right. now apply IH.
Qed.

Lemma In_get k v o : NoDup (JS.keys o) -> In (k, v) o -> JS.get k o = Some v.
Proof.
  induction o as [|[k1 v1] o IH]; simpl; [tauto|].
  intros Hnd [Heq|Hin].
  - inversion Heq; subst. now rewrite String.eqb_refl.
  - inversion Hnd as [|? ? Hnotin Hnd']; subst.
    destruct (String.eqb_spec k k1) as [->|Hne].
    + exfalso. apply Hnotin. change k1 with (fst (k1, v)).
      now apply in_map.
    + now apply IH.
Qed.

Lemma filter_split_perm (p : string * V -> bool) o :
  Permutation (filter p o ++ filter (fun e => negb (p e)) o) o.
Proof.
  induction o as [|e o IH]; simpl.
  - constructor.
  - destruct (p e); simpl.
    + now constructor.
    + eapply Permutation_trans; [apply Permutation_sym, Permutation_middle|].
      now constructor.
Qed.

Lemma own_order_perm o : Permutation (JS.own_order o) o.
Proof.
  unfold JS.own_order.
  eapply Permutation_trans; [|apply (filter_split_perm (@JS.is_index V))].
  apply Permutation_app_tail, sort_perm.
Qed.

Lemma Object_values_perm o : Permutation (JS.Object_values o) (map snd o).
Proof. apply Permutation_map, own_order_perm. Qed.


Lemma In_Object_values v o :
  NoDup (JS.keys o) ->
  In v (JS.Object_values o) <-> exists k, JS.get k o = Some v.
Proof.
  intros Hnd. split.
  - intros H. apply (Permutation_in _ (Object_values_perm o)) in H.
    apply in_map_iff in H. destruct H as [[k v'] [Hv Hin]]. simpl in Hv.
    subst v'. exists k. now apply In_get.
  - intros [k Hk]. apply get_In in Hk.
    apply (Permutation_in _ (Permutation_sym (Object_values_perm o))).
    change v with (snd (k, v)). now apply in_map.
Qed.
End ObjFacts.

(** *** Grouping *)

Section Grouping.
Variables A V : Type.
Variable key : A -> string.
Variable f : A -> option V -> V.

Lemma NoDup_keys_fold (xs : list A) (o : JS.obj V) :
  NoDup (JS.keys o) -> NoDup (JS.keys (fold_left (upsert key f) xs o)).
Proof.
  revert o. induction xs as [|x xs IH]; intros o Hnd; simpl.
  - exact Hnd.
  - apply IH. unfold upsert. now apply NoDup_keys_set.
Qed.

(** Each property of the result folds the elements of its own bucket. *)
Lemma get_fold (k : string) (xs : list A) (o : JS.obj V) :
  JS.get k (fold_left (upsert key f) xs o) =
  fold_left (fun v x => Some (f x v)) (bucket key k xs) (JS.get k o).
Proof.
  revert o. induction xs as [|x xs IH]; intros o; simpl.
  - reflexivity.
  - rewrite IH. unfold bucket, upsert. simpl.
    destruct (String.eqb_spec (key x) k) as [<-|Hne]; simpl.
    + now rewrite get_set_same.
    + rewrite get_set_other; [reflexivity | congruence].
Qed.
End Grouping.

Section Weights.
Variables A V : Type.
Variable w : V -> nat.

Lemma total_weight_set (k : string) (v : V) (o : JS.obj V) :
  total_weight w (JS.set k v o) + weight_of w (JS.get k o)
  = total_weight w o + w v.
Proof.
  unfold total_weight. induction o as [|[k1 v1] o IH]; simpl.
  - lia.
  - destruct (String.eqb k k1); simpl in *; lia.
Qed.

Variable key : A -> string.
Variable f : A -> option V -> V.
Hypothesis f_adds_one : forall x c, w (f x c) = weight_of w c + 1.

End Weights.

Lemma list_sum_perm (l l' : list nat) :
  Permutation l l' -> list_sum l = list_sum l'.
Proof. induction 1; simpl; lia. Qed.

Lemma total_weight_values V (w : V -> nat) (o : JS.obj V) :
  list_sum (map w (JS.Object_values o)) = total_weight w o.
Proof.
  unfold total_weight. rewrite <- (map_map snd w).
  apply list_sum_perm, Permutation_map, Object_values_perm.
Qed.


Lemma fold_left_ext A B (g h : B -> A -> B) (xs : list A) (b : B) :
  (forall b x, g b x = h b x) -> fold_left g xs b = fold_left h xs b.
Proof.
  intros E. revert b. induction xs as [|x xs IH]; intros b; simpl.
  - reflexivity.
  - now rewrite E, IH.
Qed.

(** *** Reducers that leave some elements out *)

Lemma fold_skip A V (key : A -> string) (f : A -> option V -> V)
  (skip : A -> bool) (step : JS.obj V -> A -> JS.obj V) :
  (forall acc x, step acc x = if skip x then acc else upsert key f acc x) ->
  forall (xs : list A) (o : JS.obj V),
    fold_left step xs o
    = fold_left (upsert key f) (filter (fun x => negb (skip x)) xs) o.
Proof.
  intros Hstep xs. induction xs as [|x xs IH]; intros o; simpl.
  - reflexivity.
  - rewrite Hstep. destruct (skip x); simpl; apply IH.
Qed.

Lemma reduce_cases A B (P : B -> Prop) (step : B -> A -> JS.result B)
  (ok : A -> bool) (g : B -> A -> B) :
  (forall acc x, P acc -> ok x = true ->
     step acc x = JS.Ok (g acc x) /\ P (g acc x)) ->
  (forall acc x, P acc -> ok x = false -> exists m, step acc x = JS.Throw m) ->
  forall (xs : list A) (o : B),
    P o ->
    match JS.reduce step xs o with
    | JS.Ok r => forallb ok xs = true /\ r = fold_left g xs o
    | JS.Throw _ => forallb ok xs = false
    end.
Proof.
  intros Hok Hthrow xs. induction xs as [|x xs IH]; intros o Ho; simpl.
  - split; reflexivity.
  - destruct (ok x) eqn:Hx.
    + destruct (Hok o x Ho Hx) as [-> HP]. simpl. now apply IH.
    + destruct (Hthrow o x Ho Hx) as [m ->]. reflexivity.
Qed.

Lemma bucket_filter A (key : A -> string) (g : string -> bool) (k : string)
  (xs : list A) :
  bucket key k (filter (fun x => g (key x)) xs)
  = if g k then bucket key k xs else [].
Proof.
  unfold bucket. induction xs as [|x xs IH]; simpl.
  - now destruct (g k).
  - destruct (g (key x)) eqn:Hg; simpl.
    + destruct (String.eqb_spec (key x) k) as [E|E].
      * rewrite <- E, Hg. rewrite <- E, Hg in IH. now rewrite IH.
      * exact IH.
    + destruct (String.eqb_spec (key x) k) as [E|E].
      * rewrite <- E, Hg. rewrite <- E, Hg in IH. exact IH.
      * exact IH.
Qed.

(** *** Counters *)

Lemma counter_step_upsert A (key : A -> string) acc x :
  counter_step key acc x =
  if String.eqb (key x) "__proto__" then acc
  else upsert key (counter_update key) acc x.
Proof.
  unfold counter_step, JS.assign, upsert, counter_update, JS.read.
  destruct (String.eqb (key x) "__proto__"); [reflexivity|].
  destruct (JS.get (key x) acc); reflexivity.
Qed.

Lemma counter_fold_upsert A (key : A -> string) (xs : list A) o :
  fold_left (counter_step key) xs o
  = fold_left (upsert key (counter_update key)) (storable key xs) o.
Proof.
  unfold storable.
  apply (fold_skip key (counter_update key)
           (fun x => String.eqb (key x) "__proto__")).
  apply counter_step_upsert.
Qed.

Lemma counter_update_cell A (key : A -> string) (x : A) (n : nat) :
  counter_update key x (Some (counter_cell (key x) n))
  = counter_cell (key x) (n + 1).
Proof.
  unfold counter_update, counter_cell.
  destruct (JS.inherited (key x)); reflexivity.
Qed.

Lemma counter_update_first A (key : A -> string) (x : A) :
  counter_update key x None = counter_cell (key x) 1.
Proof.
  unfold counter_update, counter_cell.
  destruct (JS.inherited (key x)); reflexivity.
Qed.

Lemma counter_cells_fold A (key : A -> string) (k : string) (l : list A)
  (n : nat) :
  Forall (fun x => key x = k) l ->
  fold_left (fun v x => Some (counter_update key x v)) l
    (Some (counter_cell k n))
  = Some (counter_cell k (n + List.length l)).
Proof.
  intros Hl. revert n. induction Hl as [|x l Hx _ IH]; intros n; simpl.
  - now rewrite Nat.add_0_r.
  - rewrite <- Hx at 1. rewrite counter_update_cell, Hx, IH.
    f_equal. f_equal. lia.
Qed.

Lemma bucket_keys A (key : A -> string) (k : string) (xs : list A) :
  Forall (fun x => key x = k) (bucket key k xs).
Proof.
  apply Forall_forall. intros x Hx. apply filter_In in Hx.
  now apply String.eqb_eq.
Qed.

(** A counter holds, under each key other than [__proto__], what the
    additions of the key's bucket make of it, and nothing for an empty
    bucket; it never has an own property [__proto__]. *)
Lemma get_counter A (key : A -> string) (xs : list A) (k : string) :
  JS.get k (fold_left (counter_step key) xs []) =
  if String.eqb k "__proto__" then None
  else match count_if (fun x => String.eqb (key x) k) xs with
       | 0 => None
       | S n => Some (counter_cell k (S n))
       end.
Proof.
  rewrite counter_fold_upsert, get_fold. unfold storable.
  rewrite (bucket_filter key (fun k => negb (String.eqb k "__proto__"))).
  destruct (String.eqb k "__proto__"); simpl; [reflexivity|].
  unfold count_if. fold (bucket key k xs).
  pose proof (bucket_keys key k xs) as Hk.
  destruct (bucket key k xs) as [|x l]; [reflexivity|].
  inversion Hk as [|? ? Hx Hl]; subst. cbn [fold_left].
  rewrite counter_update_first, (counter_cells_fold key 1 Hl).
  reflexivity.
Qed.

Lemma NoDup_counter_keys A (key : A -> string) (xs : list A) :
  NoDup (JS.keys (fold_left (counter_step key) xs [])).
Proof.
  rewrite counter_fold_upsert. apply NoDup_keys_fold. constructor.
Qed.

Lemma well_kinded_counter A (key : A -> string) (xs : list A) :
  well_kinded (fold_left (counter_step key) xs []).
Proof.
  intros k c Hk. rewrite get_counter in Hk.
  destruct (String.eqb k "__proto__"); [discriminate|].
  destruct (count_if _ xs); [discriminate|].
  injection Hk as <-. unfold counter_cell.
  destruct (JS.inherited k); reflexivity.
Qed.

Lemma count_if_le A (p : A -> bool) (xs : list A) :
  count_if p xs <= List.length xs.
Proof. unfold count_if. apply filter_length_le. Qed.

Lemma list_sum_indicator A (p : A -> bool) (xs : list A) :
  list_sum (map (fun x => if p x then 1 else 0) xs) = count_if p xs.
Proof.
  unfold count_if. induction xs as [|x xs IH]; simpl; [reflexivity|].
  destruct (p x); simpl; lia.
Qed.

Lemma total_weight_fold_by A V (w : V -> nat) (key : A -> string)
  (f : A -> option V -> V) (inc : A -> nat) (P : JS.obj V -> Prop) :
  (forall o x, P o ->
     w (f x (JS.get (key x) o)) = weight_of w (JS.get (key x) o) + inc x /\
     P (upsert key f o x)) ->
  forall (xs : list A) (o : JS.obj V),
    P o ->
    total_weight w (fold_left (upsert key f) xs o)
    = total_weight w o + list_sum (map inc xs).
Proof.
  intros Hf xs. induction xs as [|x xs IH]; intros o Ho; simpl.
  - lia.
  - destruct (Hf o x Ho) as [Hw HP]. rewrite (IH _ HP). unfold upsert.
    pose proof (total_weight_set w (key x) (f x (JS.get (key x) o)) o) as H.
    rewrite Hw in H. lia.
Qed.

Lemma well_kinded_upsert A (key : A -> string) (o : JS.obj counter) (x : A) :
  well_kinded o -> well_kinded (upsert key (counter_update key) o x).
Proof.
  intros Ho k c. unfold upsert.
  destruct (string_dec k (key x)) as [->|Hne].
  - rewrite get_set_same. intros [= <-]. unfold counter_update.
    destruct (JS.get (key x) o) as [[n|name ones]|] eqn:E; simpl.
    + exact (Ho _ _ E).
    + exact (Ho _ _ E).
    + destruct (JS.inherited (key x)) eqn:Hi; simpl; reflexivity.
  - rewrite get_set_other by exact Hne. apply Ho.
Qed.

Lemma filter_filter A (p q : A -> bool) (xs : list A) :
  (forall x, p x = true -> q x = true) ->
  filter p (filter q xs) = filter p xs.
Proof.
  intros H. induction xs as [|x xs IH]; simpl; [reflexivity|].
  destruct (q x) eqn:Hq; simpl.
  - now rewrite IH.
  - destruct (p x) eqn:Hp; [|exact IH]. rewrite (H x Hp) in Hq. discriminate.
Qed.

(** The numbers of a counter add up to the number of elements whose key
    names no member of [Object.prototype]. *)
Lemma sum_counter A (key : A -> string) (xs : list A) :
  sum_counts (fold_left (counter_step key) xs [])
  = count_if (fun x => negb (JS.inherited (key x))) xs.
Proof.
  unfold sum_counts. rewrite (total_weight_values cell_count).
  rewrite counter_fold_upsert.
  rewrite (total_weight_fold_by cell_count key (counter_update key)
             (fun x => if negb (JS.inherited (key x)) then 1 else 0)
             well_kinded).
  - rewrite list_sum_indicator. unfold storable, count_if. simpl.
    rewrite filter_filter; [reflexivity|].
    intros x Hx. destruct (String.eqb_spec (key x) "__proto__") as [E|E];
      [rewrite E in Hx; discriminate | reflexivity].
  - intros o x Ho. split; [|now apply well_kinded_upsert].
    unfold counter_update.
    destruct (JS.get (key x) o) as [[n|name ones]|] eqn:E; simpl.
    + rewrite (Ho _ _ E). simpl. lia.
    + rewrite (Ho _ _ E). reflexivity.
    + destruct (JS.inherited (key x)); reflexivity.
  - intros k c Hk. discriminate.
Qed.

(** *** Reading behind the own properties *)

Lemma read_plain V (k : string) (o : JS.obj V) :
  JS.inherited k = false ->
  JS.read k o = match JS.get k o with Some v => JS.own v | None => JS.missing end.
Proof. intros H. unfold JS.read. now rewrite H. Qed.

Lemma read_inherited V (k : string) (o : JS.obj V) :
  unshadowing o -> JS.inherited k = true -> JS.read k o = JS.from_prototype k.
Proof. intros Ho H. unfold JS.read. now rewrite (Ho k H), H. Qed.

Lemma unshadowing_nil V : unshadowing (@nil (string * V)).
Proof. intros k _. reflexivity. Qed.

Lemma unshadowing_upsert A V (key : A -> string) (f : A -> option V -> V)
  (o : JS.obj V) (x : A) :
  unshadowing o -> JS.inherited (key x) = false ->
  unshadowing (upsert key f o x).
Proof.
  intros Ho Hx k Hk. unfold upsert. rewrite get_set_other; [now apply Ho|].
  intros E. rewrite E in Hk. congruence.
Qed.

(** *** The grouping reducers are read-modify-writes of one own property *)

Lemma trafficBySource_step_plain acc s :
  JS.inherited (source_key s) = false ->
  trafficBySource_step acc s = JS.Ok (upsert source_key source_update acc s).
Proof.
  intros Hk. unfold trafficBySource_step, upsert, source_update, no_object.
  fold (source_key s). cbv zeta. rewrite !read_plain by exact Hk.
  destruct (JS.get (source_key s) acc) as [b|] eqn:E.
  - rewrite E. reflexivity.
  - rewrite get_set_same. cbn [bucket_source bucket_sessions bucket_users].
    now rewrite set_set.
Qed.

Lemma trafficBySource_step_throws acc s :
  unshadowing acc -> JS.inherited (source_key s) = true ->
  trafficBySource_step acc s =
  JS.Throw "TypeError: Cannot read properties of undefined (reading 'add')".
Proof.
  intros Ho Hk. unfold trafficBySource_step, no_object.
  fold (source_key s). cbv zeta.
  rewrite (@read_inherited _ _ acc Ho Hk).
  now rewrite read_inherited by assumption.
Qed.

Lemma trafficByCampaign_step_upsert acc s :
  unshadowing acc ->
  trafficByCampaign_step acc s =
  JS.Ok (if JS.inherited (campaign_key s) then acc
         else upsert campaign_key campaign_update acc s).
Proof.
  intros Ho. unfold trafficByCampaign_step, upsert, campaign_update, no_object.
  fold (campaign_key s). cbv zeta.
  destruct (JS.inherited (campaign_key s)) eqn:Hk.
  - rewrite (@read_inherited _ _ acc Ho Hk).
    now rewrite read_inherited by assumption.
  - rewrite !read_plain by exact Hk.
    destruct (JS.get (campaign_key s) acc) as [r|] eqn:E.
    + rewrite E. reflexivity.
    + rewrite get_set_same. cbn [campaign campaign_sessions].
      now rewrite set_set.
Qed.

Lemma trafficByDate_step_upsert e acc s :
  unshadowing acc -> has_created_at s = true ->
  trafficByDate_step e acc s =
  JS.Ok (if JS.inherited (date_key s) then acc
         else upsert date_key (date_update e) acc s).
Proof.
  intros Ho. unfold has_created_at, trafficByDate_step, upsert, date_update,
    date_key, no_object.
  destruct (created_at s) as [| |c]; try discriminate. intros _.
  cbn [JS.split_space_0 JS.bind]. cbv zeta.
  destruct (JS.inherited (JS.before_space c)) eqn:Hk.
  - rewrite (@read_inherited _ _ acc Ho Hk).
    now rewrite read_inherited by assumption.
  - rewrite !read_plain by exact Hk.
    destruct (JS.get (JS.before_space c) acc) as [r|] eqn:E.
    + rewrite E.
      destruct (is_device e "desktop" s), (is_device e "mobile" s);
        reflexivity.
    + rewrite get_set_same.
      cbn [date date_sessions desktop mobile].
      destruct (is_device e "desktop" s), (is_device e "mobile" s);
        now rewrite set_set.
Qed.

Lemma trafficByDate_step_throws e acc s :
  has_created_at s = false ->
  exists m, trafficByDate_step e acc s = JS.Throw m.
Proof.
  unfold has_created_at, trafficByDate_step.
  destruct (created_at s); try discriminate; intros _; simpl; eauto.
Qed.

Lemma unshadowing_skip A V (key : A -> string) (f : A -> option V -> V)
  (o : JS.obj V) (x : A) :
  unshadowing o ->
  unshadowing (if JS.inherited (key x) then o else upsert key f o x).
Proof.
  intros Ho. destruct (JS.inherited (key x)) eqn:Hk; [exact Ho|].
  now apply unshadowing_upsert.
Qed.

Lemma trafficBySource_cases (sessions : list session) :
  match trafficBySource sessions with
  | JS.Ok r =>
      forallb (fun s => negb (JS.inherited (source_key s))) sessions = true /\
      r = trafficBySource_of sessions
  | JS.Throw _ =>
      forallb (fun s => negb (JS.inherited (source_key s))) sessions = false
  end.
Proof.
  unfold trafficBySource, trafficBySource_of.
  apply (reduce_cases (@unshadowing source_bucket) trafficBySource_step
           (fun s => negb (JS.inherited (source_key s)))
           (upsert source_key source_update)).
  - intros acc x Ho Hx. apply negb_true_iff in Hx. split.
    + now apply trafficBySource_step_plain.
    + now apply unshadowing_upsert.
  - intros acc x Ho Hx. apply negb_false_iff in Hx.
    rewrite trafficBySource_step_throws by assumption. eauto.
  - apply unshadowing_nil.
Qed.

Lemma forallb_true A (xs : list A) : forallb (fun _ => true) xs = true.
Proof. induction xs; simpl; auto. Qed.

Lemma trafficByCampaign_returns (sessions : list session) :
  trafficByCampaign sessions = JS.Ok (trafficByCampaign_of sessions).
Proof.
  unfold trafficByCampaign, trafficByCampaign_of, plain.
  pose proof (reduce_cases (@unshadowing campaign_row)
                trafficByCampaign_step (fun _ => true)
                (fun acc s => if JS.inherited (campaign_key s) then acc
                              else upsert campaign_key campaign_update acc s))
    as H.
  specialize (H (fun acc x Ho _ =>
                   conj (trafficByCampaign_step_upsert x Ho)
                        (unshadowing_skip campaign_key campaign_update x Ho))).
  specialize (H (fun acc x _ (Hx : true = false) =>
                   False_ind _ (diff_true_false Hx))).
  specialize (H sessions [] (@unshadowing_nil campaign_row)).
  destruct (JS.reduce trafficByCampaign_step sessions []) as [r|m].
  - destruct H as [_ ->]. f_equal.
    apply (fold_skip campaign_key campaign_update
             (fun s => JS.inherited (campaign_key s))).
    reflexivity.
  - rewrite forallb_true in H. discriminate.
Qed.

Lemma trafficByDate_cases e (sessions : list session) :
  match trafficByDate e sessions with
  | JS.Ok r =>
      forallb has_created_at sessions = true /\
      r = trafficByDate_of e sessions
  | JS.Throw _ => forallb has_created_at sessions = false
  end.
Proof.
  unfold trafficByDate, trafficByDate_of, plain.
  pose proof (reduce_cases (@unshadowing date_row)
                (trafficByDate_step e) has_created_at
                (fun acc s => if JS.inherited (date_key s) then acc
                              else upsert date_key (date_update e) acc s))
    as H.
  specialize (H (fun acc x Ho Hx =>
                   conj (trafficByDate_step_upsert e x Ho Hx)
                        (unshadowing_skip date_key (date_update e) x Ho))).
  specialize (H (fun acc x _ Hx => trafficByDate_step_throws e acc x Hx)).
  specialize (H sessions [] (@unshadowing_nil date_row)).
  destruct (JS.reduce (trafficByDate_step e) sessions []) as [r|m];
    [|exact H].
  destruct H as [Hok ->]. split; [exact Hok|].
  apply (fold_skip date_key (date_update e)
           (fun s => JS.inherited (date_key s))).
  reflexivity.
Qed.

(** *** What [calculateMetrics] returns, and when it throws *)

Lemma forallb_harmless (sessions : list session) :
  forallb harmless sessions =
  forallb (fun s => negb (JS.inherited (source_key s))) sessions
  && forallb has_created_at sessions.
Proof.
  unfold harmless. induction sessions as [|s l IH]; simpl; [reflexivity|].
  rewrite IH. destruct (negb (JS.inherited (source_key s))),
    (has_created_at s),
    (forallb (fun s => negb (JS.inherited (source_key s))) l); reflexivity.
Qed.

(** [calculateMetrics] throws exactly when some session has a source that
    names a member of [Object.prototype] or has no string [created_at]. *)
Lemma calculateMetrics_cases (e : engine)
  (sessions : list session) (pageviews : list pageview) :
  match calculateMetrics e sessions pageviews with
  | JS.Ok m =>
      forallb harmless sessions = true /\ m = metrics_of e sessions pageviews
  | JS.Throw _ => forallb harmless sessions = false
  end.
Proof.
  unfold calculateMetrics. rewrite forallb_harmless.
  pose proof (trafficBySource_cases sessions) as Hs.
  destruct (trafficBySource sessions) as [bySource|m]; cbn [JS.bind].
  - destruct Hs as [-> ->]. rewrite trafficByCampaign_returns. cbn [JS.bind].
    pose proof (trafficByDate_cases e sessions) as Hd.
    destruct (trafficByDate e sessions) as [byDate|m]; cbn [JS.bind].
    + destruct Hd as [-> ->]. split; reflexivity.
    + rewrite Hd. reflexivity.
  - rewrite Hs. reflexivity.
Qed.

(** The sample engine sorts as the language promises. *)
Lemma sample_engine_conforming : conforming sample_engine.
Proof.
  split.
  - intros A cmp l. apply sort_perm.
  - intros A cmp key l _. reflexivity.
Qed.

(** ** C5: new and returning sessions *)

(** C5.  [calculateMetrics] either throws (exactly when some session has a
    source that names a member of [Object.prototype], or no string
    [created_at]) or returns metrics in which [newSessions] is the number
    of sessions whose [is_repeat_session] is the string ["0"],
    [returningSessions] the number of those where it is ["1"]; a session
    with any other value is in neither count, and the two counts add up to
    at most [totalSessions]. *)
Theorem new_and_returning_sessions (e : engine)
  (sessions : list session) (pageviews : list pageview) :
  match calculateMetrics e sessions pageviews with
  | JS.Ok m =>
      newSessions m =
        count_if (fun s => JS.value_eqb (is_repeat_session s) (JS.str "0"))
          sessions /\
      returningSessions m =
        count_if (fun s => JS.value_eqb (is_repeat_session s) (JS.str "1"))
          sessions /\
      newSessions m + returningSessions m +
        count_if (fun s =>
                    negb (JS.value_eqb (is_repeat_session s) (JS.str "0"))
                    && negb (JS.value_eqb (is_repeat_session s) (JS.str "1")))
          sessions = totalSessions m /\
      newSessions m + returningSessions m <= totalSessions m
  | JS.Throw _ => forallb harmless sessions = false
  end.
Proof.
  pose proof (calculateMetrics_cases e sessions pageviews) as H.
  destruct (calculateMetrics e sessions pageviews) as [m|err]; [|exact H].
  destruct H as [_ ->]. simpl. unfold JS.strict_eq.
  assert (Hsum : forall xs : list session,
    count_if (fun s => JS.value_eqb (is_repeat_session s) (JS.str "0")) xs +
    count_if (fun s => JS.value_eqb (is_repeat_session s) (JS.str "1")) xs +
    count_if (fun s =>
                negb (JS.value_eqb (is_repeat_session s) (JS.str "0"))
                && negb (JS.value_eqb (is_repeat_session s) (JS.str "1"))) xs
    = List.length xs).
  { unfold count_if. induction xs as [|x xs IH]; simpl; [reflexivity|].
    destruct (is_repeat_session x) as [| |r]; simpl; try lia.
    destruct (String.eqb_spec r "0") as [->|H0]; simpl; [lia|].
    destruct (String.eqb r "1"); simpl; lia. }
  repeat split; try reflexivity.
  - apply Hsum.
  - specialize (Hsum sessions). lia.
Qed.

(** ** C2: the device breakdown *)

Lemma device_key_cases (e : engine) (s : session) :
  device_key e s =
  match device_type s with
  | JS.str d =>
      if String.eqb (toLowerCase e d) "" then "unknown"%string
      else toLowerCase e d
  | _ => "unknown"%string
  end.
Proof.
  unfold device_key, device_of, JS.or. destruct (device_type s) as [| |d];
    simpl; try reflexivity.
  destruct (String.eqb (toLowerCase e d) ""); reflexivity.
Qed.




(** ** C1: the bounce rate *)

Section Keys.
Variables A V : Type.
Variable key : A -> string.
Variable f : A -> option V -> V.

Lemma fold_Some_None (l : list A) (c : option V) :
  fold_left (fun v x => Some (f x v)) l c = None <-> l = [] /\ c = None.
Proof.
  revert c. induction l as [|x l IH]; intros c; simpl.
  - tauto.
  - rewrite IH. split; [intros [_ H]; discriminate | intros [H _]; discriminate].
Qed.

Lemma In_keys_fold (xs : list A) (k : string) :
  In k (JS.keys (fold_left (upsert key f) xs [])) <-> In k (map key xs).
Proof.
  split.
  - intros Hin. destruct (in_dec string_dec k (map key xs)) as [H|H]; [exact H|].
    exfalso. revert Hin. apply get_None_keys. rewrite get_fold.
    apply fold_Some_None. split; [|reflexivity].
    unfold bucket. destruct (filter _ xs) as [|x l] eqn:E; [reflexivity|].
    assert (Hx : In x (filter (fun x => String.eqb (key x) k) xs))
      by (rewrite E; now left).
    apply filter_In in Hx. destruct Hx as [Hx Hk].
    apply String.eqb_eq in Hk. exfalso. apply H. rewrite <- Hk.
    now apply in_map.
  - intros Hin. destruct (in_dec string_dec k (JS.keys (fold_left (upsert key f) xs [])))
      as [H|H]; [exact H|].
    exfalso. apply get_None_keys in H. rewrite get_fold in H.
    apply fold_Some_None in H. destruct H as [H _].
    apply in_map_iff in Hin. destruct Hin as [x [Hk Hx]].
    assert (Hf : In x (bucket key k xs)).
    { apply filter_In. split; [exact Hx|]. now apply String.eqb_eq. }
    rewrite H in Hf. exact Hf.
Qed.

Lemma keys_fold_perm (xs : list A) :
  Permutation (JS.keys (fold_left (upsert key f) xs []))
    (nodup string_dec (map key xs)).
Proof.
  apply NoDup_Permutation.
  - apply NoDup_keys_fold. constructor.
  - apply NoDup_nodup.
  - intros k. rewrite In_keys_fold, nodup_In. tauto.
Qed.
End Keys.

Lemma values_by_keys V (d : V) (o : JS.obj V) :
  NoDup (JS.keys o) ->
  map snd o =
  map (fun k => match JS.get k o with Some v => v | None => d end) (JS.keys o).
Proof.
  induction o as [|[k1 v1] o IH]; simpl; intros Hnd.
  - reflexivity.
  - rewrite String.eqb_refl. f_equal.
    inversion Hnd as [|? ? Hnotin Hnd']; subst.
    rewrite (IH Hnd'). apply map_ext_in. intros k Hk.
    destruct (String.eqb_spec k k1) as [->|Hne]; [contradiction | reflexivity].
Qed.

Lemma filter_length_perm A (p : A -> bool) (l l' : list A) :
  Permutation l l' -> List.length (filter p l) = List.length (filter p l').
Proof.
  induction 1 as [|x l l' _ IH|x y l|l l' l'' _ IH1 _ IH2]; simpl.
  - reflexivity.
  - destruct (p x); simpl; lia.
  - destruct (p x), (p y); reflexivity.
  - lia.
Qed.

Lemma filter_map_length A B (g : A -> B) (p : B -> bool) (l : list A) :
  List.length (filter p (map g l)) = List.length (filter (fun a => p (g a)) l).
Proof.
  induction l as [|a l IH]; simpl; [reflexivity|].
  destruct (p (g a)); simpl; lia.
Qed.

Lemma count_if_perm A (p : A -> bool) (xs xs' : list A) :
  Permutation xs xs' -> count_if p xs = count_if p xs'.
Proof. apply filter_length_perm. Qed.

Lemma count_if_ext A (p q : A -> bool) (xs : list A) :
  (forall x, p x = q x) -> count_if p xs = count_if q xs.
Proof. intros E. unfold count_if. now rewrite (filter_ext _ _ E). Qed.

(** Two duplicate-free lists with the same members among those that pass a
    test have the same number of them. *)
Lemma count_if_same_members A (p : A -> bool) (l l' : list A) :
  NoDup l -> NoDup l' ->
  (forall x, p x = true -> (In x l <-> In x l')) ->
  count_if p l = count_if p l'.
Proof.
  intros Hl Hl' H. unfold count_if. apply Permutation_length.
  apply NoDup_Permutation; try now apply NoDup_filter.
  intros x. rewrite !filter_In. split; intros [Hx Hp]; split;
    try exact Hp; now apply (H x Hp).
Qed.

Lemma keys_counter A (key : A -> string) (xs : list A) (k : string) :
  In k (JS.keys (fold_left (counter_step key) xs [])) <->
  In k (map key xs) /\ k <> "__proto__"%string.
Proof.
  rewrite counter_fold_upsert, In_keys_fold. unfold storable.
  rewrite !in_map_iff. split.
  - intros [x [<- Hx]]. apply filter_In in Hx. destruct Hx as [Hx Hk].
    split; [eauto|]. intros E. rewrite E in Hk. discriminate.
  - intros [[x [<- Hx]] Hk]. exists x. split; [reflexivity|].
    apply filter_In. split; [exact Hx|].
    now apply negb_true_iff, String.eqb_neq.
Qed.

Lemma inherited_proto : JS.inherited "__proto__" = true.
Proof. reflexivity. Qed.

(** The code's [bouncedSessions] is the number of session ids that exactly
    one pageview mentions and that name no member of
    [Object.prototype]. *)
Lemma bouncedSessions_spec (pageviews : list pageview) :
  bouncedSessions pageviews =
  count_if (fun k => negb (JS.inherited k)
                     && Nat.eqb (pageview_count pageviews k) 1)
    (mentioned_session_ids pageviews).
Proof.
  unfold bouncedSessions, sessionPageviewCounts.
  change (fold_left sessionPageviewCounts_step pageviews [])
    with (fold_left (counter_step session_key) pageviews []).
  set (o := fold_left (counter_step session_key) pageviews []).
  rewrite (filter_length_perm _ (Object_values_perm o)).
  rewrite (values_by_keys (count 0)) by apply NoDup_counter_keys.
  rewrite filter_map_length.
  fold (count_if (fun k => is_one match JS.get k o with
                                  | Some v => v
                                  | None => count 0
                                  end) (JS.keys o)).
  rewrite (count_if_ext _
             (fun k => negb (JS.inherited k)
                       && Nat.eqb (pageview_count pageviews k) 1)).
  - apply count_if_same_members.
    + apply NoDup_counter_keys.
    + apply NoDup_nodup.
    + intros k Hk. unfold mentioned_session_ids, o.
      rewrite keys_counter, nodup_In. split; [tauto|].
      intros H. split; [exact H|]. intros ->. discriminate.
  - intros k. unfold o. rewrite get_counter. unfold pageview_count.
    destruct (String.eqb_spec k "__proto__") as [->|Hne]; [reflexivity|].
    destruct (count_if _ pageviews) as [|n]; simpl.
    + now rewrite andb_false_r.
    + unfold counter_cell. destruct (JS.inherited k); simpl; [reflexivity|].
      destruct n; reflexivity.
Qed.

Lemma Q_of_nat_le (a b : nat) : a <= b -> (Q_of_nat a <= Q_of_nat b)%Q.
Proof. intros H. unfold Q_of_nat. rewrite <- Zle_Qle. lia. Qed.

Lemma Q_of_nat_pos (a : nat) : 0 < a -> (0 < Q_of_nat a)%Q.
Proof.
  intros H. unfold Q_of_nat. change 0%Q with (inject_Z 0).
  rewrite <- Zlt_Qlt. lia.
Qed.

Lemma rate_nonneg (b t : nat) :
  0 < t -> (0 <= Q_of_nat b / Q_of_nat t * 100)%Q.
Proof.
  intros Ht. apply Qmult_le_0_compat; [|discriminate].
  apply Qle_shift_div_l; [now apply Q_of_nat_pos|].
  rewrite Qmult_0_l. change 0%Q with (Q_of_nat 0). apply Q_of_nat_le. lia.
Qed.

Lemma rate_le_100 (b t : nat) :
  0 < t -> b <= t -> (Q_of_nat b / Q_of_nat t * 100 <= 100)%Q.
Proof.
  intros Ht Hb.
  assert (H1 : (Q_of_nat b / Q_of_nat t <= 1)%Q).
  { apply Qle_shift_div_r; [now apply Q_of_nat_pos|].
    rewrite Qmult_1_l. now apply Q_of_nat_le. }
  setoid_replace 100%Q with (1 * 100)%Q at 2 by reflexivity.
  apply Qmult_le_compat_r; [exact H1 | discriminate].
Qed.





(** ** Sets *)

Lemma Set_has_In (x : JS.value) (s : list JS.value) :
  JS.Set_has x s = true <-> In x s.
Proof.
  unfold JS.Set_has. rewrite existsb_exists. split.
  - intros [y [Hy E]]. apply value_eqb_eq in E. now subst.
  - intros H. exists x. split; [exact H | now apply value_eqb_eq].
Qed.

Lemma Set_add_In (x y : JS.value) (s : list JS.value) :
  In y (JS.Set_add x s) <-> y = x \/ In y s.
Proof.
  unfold JS.Set_add. destruct (JS.Set_has x s) eqn:E.
  - apply Set_has_In in E. split; [tauto | intros [->|H]; assumption].
  - rewrite in_app_iff. simpl. split; [intros [H|[H|[]]]; auto | intros [->|H]; auto].
Qed.

Lemma Set_add_NoDup (x : JS.value) (s : list JS.value) :
  NoDup s -> NoDup (JS.Set_add x s).
Proof.
  intros Hnd. unfold JS.Set_add. destruct (JS.Set_has x s) eqn:E; [exact Hnd|].
  apply (Permutation_NoDup (l := x :: s)); [apply Permutation_cons_append|].
  constructor; [|exact Hnd]. intros H. apply Set_has_In in H. congruence.
Qed.

Lemma Set_adds_In (l s : list JS.value) (y : JS.value) :
  In y (fold_left (fun s x => JS.Set_add x s) l s) <-> In y l \/ In y s.
Proof.
  revert s. induction l as [|x l IH]; intros s; simpl.
  - tauto.
  - rewrite IH, Set_add_In. split; [intros [H|[H|H]] | intros [[H|H]|H]]; auto.
Qed.

Lemma Set_adds_NoDup (l s : list JS.value) :
  NoDup s -> NoDup (fold_left (fun s x => JS.Set_add x s) l s).
Proof.
  revert s. induction l as [|x l IH]; intros s H; simpl.
  - exact H.
  - apply IH. now apply Set_add_NoDup.
Qed.

(** [new Set(l).size] is the number of distinct members of [l]. *)
Lemma size_new_Set (l : list JS.value) :
  JS.size (JS.new_Set l) = List.length (nodup value_eq_dec l).
Proof.
  unfold JS.size, JS.new_Set. apply Permutation_length, NoDup_Permutation.
  - apply Set_adds_NoDup. constructor.
  - apply NoDup_nodup.
  - intros y. rewrite Set_adds_In, nodup_In. simpl. tauto.
Qed.

Lemma nodup_length_le A (dec : forall a b : A, {a = b} + {a <> b}) (l : list A) :
  List.length (nodup dec l) <= List.length l.
Proof.
  induction l as [|x l IH]; simpl; [lia|].
  destruct (in_dec dec x l); simpl; lia.
Qed.

Lemma nodup_length_perm A (dec : forall a b : A, {a = b} + {a <> b})
  (l l' : list A) :
  Permutation l l' -> List.length (nodup dec l) = List.length (nodup dec l').
Proof.
  intros H. apply Permutation_length, NoDup_Permutation;
    try apply NoDup_nodup.
  intros x. rewrite !nodup_In. split; apply Permutation_in;
    [exact H | now apply Permutation_sym].
Qed.

(** ** C10: traffic by source *)

Lemma source_fold (l : list session) (b : source_bucket) :
  fold_left (fun v x => Some (source_update x v)) l (Some b) =
  Some (mkSourceBucket (bucket_source b) (bucket_sessions b + List.length l)
          (fold_left (fun s x => JS.Set_add x s) (map user_id l)
             (bucket_users b))).
Proof.
  revert b. induction l as [|x l IH]; intros b; simpl.
  - destruct b; simpl. f_equal. f_equal. lia.
  - rewrite IH. simpl. f_equal. f_equal. lia.
Qed.

Lemma bucket_head A (key : A -> string) (k : string) (xs : list A) (x : A)
  (l : list A) :
  bucket key k xs = x :: l -> key x = k.
Proof.
  intros E. assert (H : In x (bucket key k xs)) by (rewrite E; now left).
  apply filter_In in H. now apply String.eqb_eq.
Qed.

(** Under each source, the bucket holds the source, the number of its
    sessions and the set of their user ids. *)
Lemma get_trafficBySource (sessions : list session) (k : string) :
  JS.get k (trafficBySource_of sessions) =
  match bucket source_key k sessions with
  | [] => None
  | _ :: _ =>
      Some (mkSourceBucket (JS.str k)
              (List.length (bucket source_key k sessions))
              (JS.new_Set (map user_id (bucket source_key k sessions))))
  end.
Proof.
  unfold trafficBySource_of. rewrite get_fold. simpl.
  destruct (bucket source_key k sessions) as [|x l] eqn:E; [reflexivity|].
  pose proof (bucket_head _ _ _ E) as Hx.
  simpl. rewrite source_fold. simpl.
  rewrite or_is_string. fold (source_key x). rewrite Hx. reflexivity.
Qed.

Lemma NoDup_keys_trafficBySource (sessions : list session) :
  NoDup (JS.keys (trafficBySource_of sessions)).
Proof. unfold trafficBySource_of. apply NoDup_keys_fold. constructor. Qed.

Lemma In_rows V R (g : V -> R) (o : JS.obj V) (r : R) :
  NoDup (JS.keys o) ->
  In r (map g (JS.Object_values o)) <->
  exists k v, JS.get k o = Some v /\ r = g v.
Proof.
  intros Hnd. rewrite in_map_iff. split.
  - intros [v [<- Hv]]. apply In_Object_values in Hv; [|exact Hnd].
    destruct Hv as [k Hk]. eauto.
  - intros [k [v [Hk ->]]]. exists v. split; [reflexivity|].
    apply In_Object_values; eauto.
Qed.

Lemma NoDup_map_injective A B (h : A -> B) (l : list A) :
  (forall a b, h a = h b -> a = b) -> NoDup l -> NoDup (map h l).
Proof.
  intros Hinj. induction 1 as [|x l Hx _ IH]; simpl; constructor.
  - intros H. apply in_map_iff in H. destruct H as [y [E Hy]].
    apply Hinj in E. now subst.
  - exact IH.
Qed.

Lemma NoDup_rows V R (g : V -> R) (tag : string -> R) (o : JS.obj V) :
  (forall a b, tag a = tag b -> a = b) ->
  (forall k v, JS.get k o = Some v -> g v = tag k) ->
  NoDup (JS.keys o) ->
  NoDup (map g (JS.Object_values o)).
Proof.
  intros Hinj Hg Hnd.
  apply (Permutation_NoDup (l := map g (map snd o))).
  - apply Permutation_map, Permutation_sym, Object_values_perm.
  - rewrite map_map.
    rewrite (map_ext_in (fun e => g (snd e)) (fun e => tag (fst e))).
    + rewrite <- (map_map fst tag). now apply NoDup_map_injective.
    + intros [k v] Hin. simpl. apply Hg. now apply In_get.
Qed.

Lemma source_key_cases (s : session) :
  source_key s =
  match utm_source s with
  | JS.str u => if String.eqb u "" then "direct"%string else u
  | _ => "direct"%string
  end.
Proof.
  unfold source_key, JS.or. destruct (utm_source s) as [| |u]; simpl;
    try reflexivity.
  destruct (String.eqb u ""); reflexivity.
Qed.

(** The rows of [sourceData]: one per source that some session has. *)
Lemma In_source_rows (sessions : list session) (r : source_row) :
  In r (map (fun item =>
               mkSourceRow (bucket_source item) (bucket_sessions item)
                 (JS.size (bucket_users item)))
          (JS.Object_values (trafficBySource_of sessions))) <->
  exists k,
    bucket source_key k sessions <> [] /\
    r = mkSourceRow (JS.str k)
          (List.length (bucket source_key k sessions))
          (List.length (distinct_users (bucket source_key k sessions))).
Proof.
  rewrite In_rows by apply NoDup_keys_trafficBySource. split.
  - intros [k [v [Hk ->]]]. exists k. rewrite get_trafficBySource in Hk.
    destruct (bucket source_key k sessions) as [|x l] eqn:E; [discriminate|].
    injection Hk as <-. simpl. split; [discriminate|].
    f_equal. apply size_new_Set.
  - intros [k [Hne ->]]. exists k. rewrite get_trafficBySource.
    destruct (bucket source_key k sessions) as [|x l] eqn:E; [congruence|].
    eexists. split; [reflexivity|]. simpl. f_equal. symmetry.
    apply size_new_Set.
Qed.

Lemma NoDup_source_rows (sessions : list session) :
  NoDup (map source
           (map (fun item =>
                   mkSourceRow (bucket_source item) (bucket_sessions item)
                     (JS.size (bucket_users item)))
              (JS.Object_values (trafficBySource_of sessions)))).
Proof.
  rewrite map_map. simpl.
  apply (NoDup_rows bucket_source JS.str).
  - congruence.
  - intros k v Hk. rewrite get_trafficBySource in Hk.
    destruct (bucket source_key k sessions); [discriminate|].
    now injection Hk as <-.
  - apply NoDup_keys_trafficBySource.
Qed.


Lemma harmless_source (sessions : list session) :
  forallb harmless sessions = true ->
  forall s, In s sessions -> JS.inherited (source_key s) = false.
Proof.
  intros H s Hs. rewrite forallb_forall in H. specialize (H s Hs).
  unfold harmless in H. apply andb_true_iff in H. destruct H as [H _].
  now apply negb_true_iff.
Qed.



(** ** C3: the timeline *)

Lemma desktop_not_mobile (e : engine) (s : session) :
  is_device e "desktop" s = true -> is_device e "mobile" s = false.
Proof.
  unfold is_device, JS.strict_eq. destruct (device_type s) as [| |d]; simpl;
    try discriminate.
  intros H. apply String.eqb_eq in H. rewrite H. reflexivity.
Qed.

Lemma date_fold (e : engine) (l : list session) (r : date_row) :
  fold_left (fun v x => Some (date_update e x v)) l (Some r) =
  Some (mkDateRow (date r) (date_sessions r + List.length l)
          (desktop r + count_if (is_device e "desktop") l)
          (mobile r + count_if (is_device e "mobile") l)).
Proof.
  unfold count_if. revert r. induction l as [|x l IH]; intros r; simpl.
  - destruct r; simpl. f_equal. f_equal; lia.
  - unfold date_update at 2.
    destruct (is_device e "desktop" x) eqn:Hd.
    + rewrite (desktop_not_mobile _ _ Hd). rewrite IH. simpl.
      f_equal. f_equal; lia.
    + destruct (is_device e "mobile" x); rewrite IH; simpl; f_equal;
        f_equal; lia.
Qed.

(** Under each date that names no member of [Object.prototype],
    [trafficByDate] holds the row of that date's sessions; under the
    other dates it holds nothing. *)
Lemma get_trafficByDate (e : engine) (sessions : list session) (k : string) :
  JS.get k (trafficByDate_of e sessions) =
  if JS.inherited k then None
  else match bucket date_key k sessions with
       | [] => None
       | _ :: _ => Some (date_row_of e k (bucket date_key k sessions))
       end.
Proof.
  unfold trafficByDate_of, plain. rewrite get_fold.
  rewrite (bucket_filter date_key (fun k => negb (JS.inherited k))).
  destruct (JS.inherited k); [reflexivity|]. cbn [negb].
  destruct (bucket date_key k sessions) as [|x l] eqn:E; [reflexivity|].
  pose proof (bucket_head _ _ _ E) as Hx.
  simpl. unfold date_row_of, count_if. simpl.
  unfold date_update at 2.
  destruct (is_device e "desktop" x) eqn:Hd.
  - rewrite (desktop_not_mobile _ _ Hd). rewrite date_fold. simpl.
    unfold count_if. rewrite Hx. reflexivity.
  - destruct (is_device e "mobile" x); rewrite date_fold; simpl;
      unfold count_if; rewrite Hx; reflexivity.
Qed.

Lemma NoDup_keys_trafficByDate (e : engine) (sessions : list session) :
  NoDup (JS.keys (trafficByDate_of e sessions)).
Proof. unfold trafficByDate_of. apply NoDup_keys_fold. constructor. Qed.

Lemma NoDup_map_injective_in A B (h : A -> B) (l : list A) :
  (forall a b, In a l -> In b l -> h a = h b -> a = b) ->
  NoDup l -> NoDup (map h l).
Proof.
  intros Hinj Hnd. induction Hnd as [|x l Hx _ IH]; simpl; constructor.
  - intros H. apply in_map_iff in H. destruct H as [y [E Hy]].
    apply Hinj in E; [now subst | now right | now left].
  - apply IH. intros a b Ha Hb. apply Hinj; now right.
Qed.

Lemma sorted_strict A (key : A -> Z) (l : list A) :
  StronglySorted (fun a b => key a <= key b)%Z l ->
  NoDup (map key l) ->
  StronglySorted (fun a b => key a < key b)%Z l.
Proof.
  induction 1 as [|x l Hs IH Hx]; simpl; intros Hnd.
  - constructor.
  - inversion Hnd as [|? ? Hnotin Hnd']; subst. constructor.
    + now apply IH.
    + rewrite Forall_forall in Hx |- *. intros y Hy.
      specialize (Hx y Hy).
      assert (key x <> key y).
      { intros E. apply Hnotin. rewrite E. now apply in_map. }
      lia.
Qed.

Lemma StronglySorted_impl A (R S : A -> A -> Prop) (l : list A) :
  (forall a b, In a l -> In b l -> R a b -> S a b) ->
  StronglySorted R l -> StronglySorted S l.
Proof.
  intros HRS Hs. induction Hs as [|x l Hs IH Hx]; constructor.
  - apply IH. intros a b Ha Hb. apply HRS; now right.
  - rewrite Forall_forall in Hx |- *. intros y Hy.
    apply HRS; [now left | now right | now apply Hx].
Qed.

(** The rows of [trafficByDate]: one per date that some session has and
    that names no member of [Object.prototype]. *)
Lemma In_date_rows (e : engine) (sessions : list session) (r : date_row) :
  In r (JS.Object_values (trafficByDate_of e sessions))
  <-> exists k,
        JS.inherited k = false /\
        bucket date_key k sessions <> [] /\
        r = date_row_of e k (bucket date_key k sessions).
Proof.
  rewrite <- (map_id (JS.Object_values _)).
  rewrite In_rows by apply NoDup_keys_trafficByDate.
  split.
  - intros [k [v [Hk ->]]]. exists k. rewrite get_trafficByDate in Hk.
    destruct (JS.inherited k); [discriminate|].
    destruct (bucket date_key k sessions) eqn:E; [discriminate|].
    injection Hk as <-. repeat split; [discriminate].
  - intros [k [Hi [Hne ->]]]. exists k. rewrite get_trafficByDate, Hi.
    destruct (bucket date_key k sessions) eqn:E; [congruence|].
    eexists. split; reflexivity.
Qed.

Lemma In_timeline (e : engine) (sessions : list session) (r : date_row) :
  conforming e ->
  In r (Array_sort e (by_date e)
          (JS.Object_values (trafficByDate_of e sessions)))
  <-> exists k,
        JS.inherited k = false /\
        bucket date_key k sessions <> [] /\
        r = date_row_of e k (bucket date_key k sessions).
Proof.
  intros [Hperm _]. rewrite <- In_date_rows. split; apply Permutation_in.
  - apply Hperm.
  - apply Permutation_sym, Hperm.
Qed.

Lemma NoDup_date_rows (e : engine) (sessions : list session) :
  NoDup (map date (JS.Object_values (trafficByDate_of e sessions))).
Proof.
  apply (NoDup_rows date (fun k => k)).
  - auto.
  - intros k v Hk. rewrite get_trafficByDate in Hk.
    destruct (JS.inherited k); [discriminate|].
    destruct (bucket date_key k sessions); [discriminate|].
    now injection Hk as <-.
  - apply NoDup_keys_trafficByDate.
Qed.

Lemma NoDup_timeline_dates (e : engine) (sessions : list session) :
  conforming e ->
  NoDup (map date
           (Array_sort e (by_date e)
              (JS.Object_values (trafficByDate_of e sessions)))).
Proof.
  intros [Hperm _].
  apply (Permutation_NoDup
           (l := map date (JS.Object_values (trafficByDate_of e sessions)))).
  - apply Permutation_map, Permutation_sym, Hperm.
  - apply NoDup_date_rows.
Qed.

Lemma bucket_member A (key : A -> string) (k : string) (xs : list A) :
  bucket key k xs <> [] -> exists x, In x xs /\ key x = k.
Proof.
  unfold bucket. destruct (filter _ xs) as [|x l] eqn:E; [congruence|].
  intros _. assert (H : In x (filter (fun x => String.eqb (key x) k) xs))
    by (rewrite E; now left).
  apply filter_In in H. destruct H as [Hx Hk]. apply String.eqb_eq in Hk. eauto.
Qed.

(** With valid and pairwise different dates, the sort of the timeline is
    the stable sort by time value, and its result is strictly
    ascending. *)
Lemma timeline_strictly_sorted (e : engine) (sessions : list session) :
  conforming e ->
  (forall s, In s sessions -> JS.inherited (date_key s) = false ->
     Date_parse e (date_key s) <> None) ->
  (forall s s', In s sessions -> In s' sessions ->
     JS.inherited (date_key s) = false -> JS.inherited (date_key s') = false ->
     Date_parse e (date_key s) = Date_parse e (date_key s') ->
     date_key s = date_key s') ->
  (forall r,
     In r (JS.Object_values (trafficByDate_of e sessions)) ->
     Date_parse e (date r) = Some (time_of e r)) /\
  StronglySorted (fun a b => time_of e a < time_of e b)%Z
    (Array_sort e (by_date e)
       (JS.Object_values (trafficByDate_of e sessions))).
Proof.
  intros He Hvalid Hinj.
  set (rows := JS.Object_values (trafficByDate_of e sessions)).
  assert (Hrow : forall r, In r rows ->
            exists s, In s sessions /\ date_key s = date r /\
                      JS.inherited (date_key s) = false).
  { intros r Hr. apply In_date_rows in Hr. destruct Hr as [k [Hi [Hne ->]]].
    apply bucket_member in Hne. destruct Hne as [s [Hs <-]]. eauto. }
  assert (Hsome : forall r, In r rows ->
            Date_parse e (date r) = Some (time_of e r)).
  { intros r Hr. destruct (Hrow r Hr) as [s [Hs [E Hi]]].
    specialize (Hvalid s Hs Hi). rewrite E in Hvalid. unfold time_of.
    destruct (Date_parse e (date r)); [reflexivity | congruence]. }
  split; [exact Hsome|].
  assert (Hcmp : forall x y, In x rows -> In y rows ->
            by_date e x y = (time_of e x - time_of e y)%Z).
  { intros x y Hx Hy. unfold by_date.
    now rewrite (Hsome x Hx), (Hsome y Hy). }
  rewrite (proj2 He _ (by_date e) (time_of e) rows Hcmp).
  apply sorted_strict.
  - apply sort_sorted. intros x y Hx Hy. rewrite (Hcmp x y Hx Hy). lia.
  - rewrite <- (map_map date (fun d => match Date_parse e d with
                                       | Some t => t
                                       | None => 0%Z
                                       end)).
    apply NoDup_map_injective_in.
    2: { apply (Permutation_NoDup (l := map date rows)).
         - apply Permutation_map, Permutation_sym, sort_perm.
         - apply NoDup_date_rows. }
    intros a b Ha Hb E.
    apply in_map_iff in Ha. destruct Ha as [ra [<- Hra]].
    apply in_map_iff in Hb. destruct Hb as [rb [<- Hrb]].
    apply sort_In in Hra. apply sort_In in Hrb.
    destruct (Hrow ra Hra) as [sa [Hsa [Ea Hia]]].
    destruct (Hrow rb Hrb) as [sb [Hsb [Eb Hib]]].
    rewrite <- Ea, <- Eb. apply Hinj; try assumption.
    rewrite Ea, Eb, (Hsome ra Hra), (Hsome rb Hrb).
    rewrite (Hsome ra Hra), (Hsome rb Hrb) in E. now f_equal.
Qed.

(** C3, as the code has it.  On an engine whose [sort] does what the
    language promises, [calculateMetrics] either throws or returns metrics
    whose [timelineData] has one row per date portion that some session
    has and that names no member of [Object.prototype] (a date portion
    that does has no row), with the number of that date's sessions and of
    its desktop and mobile sessions, and no two rows with the same date
    string.  When every such date portion parses to a valid date and
    different ones parse to different times, the rows are strictly
    ascending by date. *)
Theorem timeline_rows_and_order (e : engine) (He : conforming e)
  (sessions : list session) (pageviews : list pageview) :
  match calculateMetrics e sessions pageviews with
  | JS.Ok m =>
      (forall r,
         In r (timelineData m) <->
         exists k,
           JS.inherited k = false /\
           bucket date_key k sessions <> [] /\
           r = date_row_of e k (bucket date_key k sessions)) /\
      NoDup (map date (timelineData m)) /\
      ((forall s, In s sessions -> JS.inherited (date_key s) = false ->
          Date_parse e (date_key s) <> None) ->
       (forall s s', In s sessions -> In s' sessions ->
          JS.inherited (date_key s) = false ->
          JS.inherited (date_key s') = false ->
          Date_parse e (date_key s) = Date_parse e (date_key s') ->
          date_key s = date_key s') ->
       StronglySorted (date_before e) (timelineData m))
  | JS.Throw _ => forallb harmless sessions = false
  end.
Proof.
  pose proof (calculateMetrics_cases e sessions pageviews) as H.
  destruct (calculateMetrics e sessions pageviews) as [m|err]; [|exact H].
  destruct H as [_ ->]. cbn [timelineData metrics_of].
  split; [intros r; now apply In_timeline|].
  split; [now apply NoDup_timeline_dates|].
  intros Hvalid Hinj.
  destruct (timeline_strictly_sorted sessions He Hvalid Hinj)
    as [Hsome Hsorted].
  revert Hsorted. apply StronglySorted_impl.
  intros a b Ha Hb Hlt.
  apply (Permutation_in _ (proj1 He _ _ _)) in Ha.
  apply (Permutation_in _ (proj1 He _ _ _)) in Hb.
  unfold date_before. rewrite (Hsome a Ha), (Hsome b Hb). exact Hlt.
Qed.

Lemma timeline_rows_and_order_witness :
  exists m,
    calculateMetrics sample_engine three_sessions five_pageviews = JS.Ok m /\
    map date (timelineData m) = ["2012-03-19"; "2012-03-20"]%string /\
    StronglySorted (date_before sample_engine) (timelineData m).
Proof.
  pose proof (timeline_rows_and_order sample_engine_conforming three_sessions
                five_pageviews) as H.
  destruct (calculateMetrics sample_engine three_sessions five_pageviews)
    as [m|err] eqn:E; [|vm_compute in E; discriminate].
  exists m. split; [reflexivity|].
  split; [vm_compute in E; injection E as <-; reflexivity|].
  destruct H as (_ & _ & H). apply H.
  - intros s Hs _. simpl in Hs.
    destruct Hs as [<-|[<-|[<-|[]]]]; vm_compute; discriminate.
  - intros s s' Hs Hs' _ _. simpl in Hs, Hs'.
    destruct Hs as [<-|[<-|[<-|[]]]]; destruct Hs' as [<-|[<-|[<-|[]]]];
      vm_compute; intros E'; first [reflexivity | discriminate E'].
Defined.

(** The claim as stated fails: two sessions of the same day whose
    [created_at] are written in the two ISO forms give two rows for that
    day, with equal time values, so the rows are not strictly ascending. *)
Lemma timeline_same_day_twice :
  exists m,
    calculateMetrics sample_engine same_day_sessions [] = JS.Ok m /\
    map (time_of sample_engine) (timelineData m)
      = [1332115200000; 1332115200000]%Z /\
    ~ StronglySorted (date_before sample_engine) (timelineData m).
Proof.
  eexists. split; [vm_compute; reflexivity|].
  split; [vm_compute; reflexivity|].
  intros H. inversion H as [|a l _ Hall]; subst.
  inversion Hall as [|b l' Hlt _]; subst.
  vm_compute in Hlt. discriminate Hlt.
Qed.

(** ** C4: landing pages *)

Lemma existsb_key A (key : A -> string) (k : string) (l : list A) :
  existsb (fun p => String.eqb (key p) k) l = true <-> In k (map key l).
Proof.
  rewrite existsb_exists, in_map_iff. split.
  - intros [x [Hx E]]. apply String.eqb_eq in E. eauto.
  - intros [x [E Hx]]. exists x. split; [exact Hx | now apply String.eqb_eq].
Qed.

Lemma is_first_true (before : list pageview) (pv : pageview) :
  is_first before pv = true <->
  JS.inherited (session_key pv) = false /\
  ~ In (session_key pv) (map session_key before).
Proof.
  unfold is_first. rewrite andb_true_iff, !negb_true_iff.
  rewrite <- (existsb_key session_key (session_key pv) before).
  destruct (existsb _ before); split; intros [H1 H2]; split; congruence.
Qed.

(** What [!acc.sessions[id]] answers. *)
Lemma not_seen_is_first (before : list pageview) (pv : pageview)
  (o : JS.obj bool) :
  seen_so_far before o ->
  not_seen (JS.read (session_key pv) o) = is_first before pv.
Proof.
  intros [Htrue Hkeys]. unfold JS.read.
  destruct (JS.get (session_key pv) o) as [b|] eqn:E.
  - rewrite (Htrue _ _ E). simpl. symmetry.
    destruct (is_first before pv) eqn:F; [|reflexivity].
    apply is_first_true in F. destruct F as [_ F]. exfalso. apply F.
    apply (proj1 (Hkeys (session_key pv))). congruence.
  - destruct (JS.inherited (session_key pv)) eqn:Hi; simpl.
    + unfold is_first. now rewrite Hi.
    + symmetry. apply is_first_true. split; [exact Hi|].
      intros Hin. apply (proj2 (Hkeys (session_key pv))); auto.
Qed.

Lemma seen_so_far_next (before : list pageview) (pv : pageview)
  (o : JS.obj bool) :
  seen_so_far before o ->
  seen_so_far (before ++ [pv])
    (if is_first before pv then JS.assign (session_key pv) true o else o).
Proof.
  intros [Htrue Hkeys]. destruct (is_first before pv) eqn:F.
  - apply is_first_true in F. destruct F as [Hi Hnew].
    assert (Hne : session_key pv <> "__proto__"%string)
      by (intros E; rewrite E in Hi; discriminate).
    unfold JS.assign. rewrite (proj2 (String.eqb_neq _ _) Hne). split.
    + intros k b. destruct (string_dec k (session_key pv)) as [->|Hk].
      * rewrite get_set_same. congruence.
      * rewrite get_set_other by exact Hk. apply Htrue.
    + intros k. rewrite map_app, in_app_iff. simpl.
      destruct (string_dec k (session_key pv)) as [->|Hk].
      * rewrite get_set_same. split; [intros _; auto | discriminate].
      * rewrite get_set_other by exact Hk. rewrite Hkeys.
        split; [tauto|]. intros [[H|[H|[]]] Hik]; [tauto | congruence].
  - split; [exact Htrue|]. intros k. rewrite Hkeys, map_app, in_app_iff.
    simpl. split; [tauto|]. intros [[H|[<-|[]]] Hik]; [tauto|].
    split; [|exact Hik].
    destruct (in_dec string_dec (session_key pv) (map session_key before))
      as [Hin|Hout]; [exact Hin|].
    assert (is_first before pv = true) by (apply is_first_true; auto).
    congruence.
Qed.

(** The [pages] counter is built from the first pageview of each session
    id that names no member of [Object.prototype]; [acc.sessions]
    remembers the ids met so far. *)
Lemma landingPages_fold (pvs before : list pageview) (acc : landing_acc) :
  seen_so_far before (acc_sessions acc) ->
  acc_pages (fold_left landingPages_step pvs acc) =
  fold_left (counter_step url_key) (landing_from before pvs) (acc_pages acc).
Proof.
  revert before acc. induction pvs as [|pv pvs IH]; intros before acc Hinv.
  - reflexivity.
  - cbn [fold_left landing_from].
    pose proof (seen_so_far_next pv Hinv) as Hnext.
    unfold landingPages_step at 2. fold (session_key pv). fold (url_key pv).
    rewrite (not_seen_is_first pv Hinv).
    destruct (is_first before pv).
    + rewrite (IH (before ++ [pv])) by exact Hnext. reflexivity.
    + rewrite (IH (before ++ [pv])) by exact Hnext. reflexivity.
Qed.

Lemma landing_pages_counter (pageviews : list pageview) :
  acc_pages (landingPages pageviews) =
  fold_left (counter_step url_key) (landing_pageviews pageviews) [].
Proof.
  unfold landingPages, landing_pageviews.
  apply (@landingPages_fold pageviews [] (mkLandingAcc [] [])).
  split.
  - intros k b. discriminate.
  - intros k. simpl. split; [congruence | tauto].
Qed.

(** Each session id that the pageviews mention and that names no member of
    [Object.prototype] has exactly one landing pageview. *)
Lemma landing_from_keys (pvs before : list pageview) (k : string) :
  In k (map session_key (landing_from before pvs)) <->
  In k (map session_key pvs) /\ JS.inherited k = false /\
  ~ In k (map session_key before).
Proof.
  revert before. induction pvs as [|pv pvs IH]; intros before; simpl.
  - tauto.
  - rewrite map_app, in_app_iff, IH, map_app, in_app_iff. simpl.
    destruct (is_first before pv) eqn:F.
    + apply is_first_true in F. destruct F as [Hi Hnew]. simpl. split.
      * intros [[<-|[]]|[H1 [H2 H3]]]; [tauto|].
        split; [now right|]. split; [exact H2 | tauto].
      * intros [[<-|H1] [H2 H3]]; [left; now left|].
        destruct (string_dec (session_key pv) k) as [<-|Hne];
          [left; now left|].
        right. split; [exact H1|]. split; [exact H2|].
        intros [H|[H|[]]]; [tauto | congruence].
    + simpl. split.
      * intros [[]|[H1 [H2 H3]]]. split; [now right|]. split; [exact H2|tauto].
      * intros [[<-|H1] [H2 H3]].
        -- exfalso.
           assert (is_first before pv = true) by (apply is_first_true; auto).
           congruence.
        -- right. split; [exact H1|]. split; [exact H2|].
           intros [H|[<-|[]]]; [tauto|].
           assert (is_first before pv = true) by (apply is_first_true; auto).
           congruence.
Qed.

Lemma landing_from_NoDup (pvs before : list pageview) :
  NoDup (map session_key (landing_from before pvs)).
Proof.
  revert before. induction pvs as [|pv pvs IH]; intros before; simpl.
  - constructor.
  - destruct (is_first before pv); simpl; [|apply IH].
    constructor; [|apply IH].
    intros Hin. apply landing_from_keys in Hin. destruct Hin as [_ [_ Hin]].
    apply Hin. rewrite map_app, in_app_iff. right. now left.
Qed.


Lemma In_Object_entries V (o : JS.obj V) (k : string) (v : V) :
  NoDup (JS.keys o) ->
  In (k, v) (JS.Object_entries o) <-> JS.get k o = Some v.
Proof.
  intros Hnd. unfold JS.Object_entries. split.
  - intros H. apply (Permutation_in _ (own_order_perm o)) in H.
    now apply In_get.
  - intros H. apply get_In in H.
    now apply (Permutation_in _ (Permutation_sym (own_order_perm o))).
Qed.


(** The rows handed to the sort of the landing pages. *)
Lemma In_landing_rows (pageviews : list pageview) (r : landing_row) :
  In r (map (fun entry => mkLandingRow (fst entry) (snd entry))
          (JS.Object_entries (acc_pages (landingPages pageviews)))) <->
  exists u,
    u <> "__proto__"%string /\
    count_if (fun pv => String.eqb (url_key pv) u)
      (landing_pageviews pageviews) <> 0 /\
    r = landing_row_of u
          (count_if (fun pv => String.eqb (url_key pv) u)
             (landing_pageviews pageviews)).
Proof.
  rewrite landing_pages_counter.
  set (pages := fold_left (counter_step url_key)
                  (landing_pageviews pageviews) []).
  assert (Hnd : NoDup (JS.keys pages)) by apply NoDup_counter_keys.
  rewrite in_map_iff. split.
  - intros [[u c] [<- Hin]]. apply In_Object_entries in Hin; [|exact Hnd].
    unfold pages in Hin. rewrite get_counter in Hin. exists u. simpl.
    destruct (String.eqb_spec u "__proto__") as [|Hne]; [discriminate|].
    destruct (count_if _ (landing_pageviews pageviews)) eqn:E;
      [discriminate|].
    injection Hin as <-. split; [exact Hne|].
    split; [discriminate | reflexivity].
  - intros [u [Hu [Hne ->]]].
    exists (u, counter_cell u
                 (count_if (fun pv => String.eqb (url_key pv) u)
                    (landing_pageviews pageviews))).
    split; [reflexivity|]. apply In_Object_entries; [exact Hnd|].
    unfold pages. rewrite get_counter.
    rewrite (proj2 (String.eqb_neq _ _) Hu).
    destruct (count_if _ (landing_pageviews pageviews)); congruence.
Qed.






(** ** C9: the order of the input rows *)

Lemma bucket_perm A (key : A -> string) (k : string) (xs xs' : list A) :
  Permutation xs xs' -> Permutation (bucket key k xs) (bucket key k xs').
Proof.
  unfold bucket.
  induction 1 as [|x l l' _ IH|x y l|l l' l'' _ IH1 _ IH2]; simpl.
  - constructor.
  - destruct (String.eqb (key x) k); [now constructor | exact IH].
  - destruct (String.eqb (key x) k), (String.eqb (key y) k);
      try apply Permutation_refl. apply perm_swap.
  - eapply Permutation_trans; eassumption.
Qed.

Lemma bucket_perm_nonempty A (key : A -> string) (k : string)
  (xs xs' : list A) :
  Permutation xs xs' -> bucket key k xs <> [] -> bucket key k xs' <> [].
Proof.
  intros Hp Hne E. apply Hne. apply Permutation_nil.
  rewrite <- E. apply Permutation_sym, bucket_perm, Hp.
Qed.

Lemma distinct_users_perm (l l' : list session) :
  Permutation l l' ->
  List.length (distinct_users l) = List.length (distinct_users l').
Proof.
  intros H. unfold distinct_users. apply nodup_length_perm.
  now apply Permutation_map.
Qed.

Lemma bouncedSessions_perm (pvs pvs' : list pageview) :
  Permutation pvs pvs' -> bouncedSessions pvs = bouncedSessions pvs'.
Proof.
  intros Hp. rewrite !bouncedSessions_spec.
  rewrite (count_if_ext _
             (fun k => negb (JS.inherited k)
                       && Nat.eqb (pageview_count pvs' k) 1)).
  - apply count_if_perm. unfold mentioned_session_ids.
    apply NoDup_Permutation; try apply NoDup_nodup.
    intros k. rewrite !nodup_In. split; apply Permutation_in;
      [|apply Permutation_sym]; now apply Permutation_map.
  - intros k. unfold pageview_count. now rewrite (count_if_perm _ Hp).
Qed.

Lemma campaign_fold (l : list session) (r : campaign_row) :
  fold_left (fun v x => Some (campaign_update x v)) l (Some r) =
  Some (mkCampaignRow (campaign r) (campaign_sessions r + List.length l)).
Proof.
  revert r. induction l as [|x l IH]; intros r; simpl.
  - destruct r; simpl. f_equal. f_equal. lia.
  - rewrite IH. simpl. f_equal. f_equal. lia.
Qed.

(** Under each campaign that names no member of [Object.prototype],
    [trafficByCampaign] holds the row of that campaign's sessions; under
    the other campaigns it holds nothing. *)
Lemma get_trafficByCampaign (sessions : list session) (k : string) :
  JS.get k (trafficByCampaign_of sessions) =
  if JS.inherited k then None
  else match bucket campaign_key k sessions with
       | [] => None
       | _ :: _ =>
           Some (mkCampaignRow (JS.str k)
                   (List.length (bucket campaign_key k sessions)))
       end.
Proof.
  unfold trafficByCampaign_of, plain. rewrite get_fold.
  rewrite (bucket_filter campaign_key (fun k => negb (JS.inherited k))).
  destruct (JS.inherited k); [reflexivity|]. cbn [negb].
  destruct (bucket campaign_key k sessions) as [|x l] eqn:E; [reflexivity|].
  pose proof (bucket_head _ _ _ E) as Hx.
  simpl. rewrite campaign_fold. simpl.
  rewrite or_is_string. fold (campaign_key x). rewrite Hx. reflexivity.
Qed.

Lemma NoDup_keys_trafficByCampaign (sessions : list session) :
  NoDup (JS.keys (trafficByCampaign_of sessions)).
Proof. unfold trafficByCampaign_of. apply NoDup_keys_fold. constructor. Qed.

Lemma In_campaign_rows (sessions : list session) (r : campaign_row) :
  In r (JS.Object_values (trafficByCampaign_of sessions)) <->
  exists k,
    JS.inherited k = false /\
    bucket campaign_key k sessions <> [] /\
    r = mkCampaignRow (JS.str k) (List.length (bucket campaign_key k sessions)).
Proof.
  rewrite <- (map_id (JS.Object_values _)).
  rewrite In_rows by apply NoDup_keys_trafficByCampaign. split.
  - intros [k [v [Hk ->]]]. exists k. rewrite get_trafficByCampaign in Hk.
    destruct (JS.inherited k); [discriminate|].
    destruct (bucket campaign_key k sessions) eqn:E; [discriminate|].
    injection Hk as <-. repeat split; [discriminate].
  - intros [k [Hi [Hne ->]]]. exists k. rewrite get_trafficByCampaign, Hi.
    destruct (bucket campaign_key k sessions) eqn:E; [congruence|].
    eexists. split; reflexivity.
Qed.

Lemma NoDup_campaign_rows (sessions : list session) :
  NoDup (map campaign (JS.Object_values (trafficByCampaign_of sessions))).
Proof.
  apply (NoDup_rows campaign JS.str).
  - congruence.
  - intros k v Hk. rewrite get_trafficByCampaign in Hk.
    destruct (JS.inherited k); [discriminate|].
    destruct (bucket campaign_key k sessions); [discriminate|].
    now injection Hk as <-.
  - apply NoDup_keys_trafficByCampaign.
Qed.

Lemma same_rows_perm R (l l' : list R) (P Q : R -> Prop) :
  NoDup l -> NoDup l' ->
  (forall r, In r l <-> P r) -> (forall r, In r l' <-> Q r) ->
  (forall r, P r -> Q r) -> (forall r, Q r -> P r) ->
  Permutation l l'.
Proof.
  intros Hl Hl' HP HQ HPQ HQP. apply NoDup_Permutation; try assumption.
  intros r. rewrite HP, HQ. split; auto.
Qed.

Lemma strictly_sorted_perm_eq A (key : A -> Z) (l l' : list A) :
  StronglySorted (fun a b => key a < key b)%Z l ->
  StronglySorted (fun a b => key a < key b)%Z l' ->
  Permutation l l' -> l = l'.
Proof.
  intros Hs. revert l'. induction Hs as [|x l Hs IH Hx]; intros l' Hs' Hp.
  - apply Permutation_nil in Hp. now subst.
  - destruct Hs' as [|y l' Hs' Hy].
    + apply Permutation_sym, Permutation_nil in Hp. discriminate.
    + assert (E : x = y).
      { assert (Hxin : In x (y :: l'))
          by (apply (Permutation_in _ Hp); now left).
        assert (Hyin : In y (x :: l))
          by (apply (Permutation_in _ (Permutation_sym Hp)); now left).
        destruct Hxin as [E|Hxin]; [now symmetry|].
        destruct Hyin as [E|Hyin]; [exact E|].
        rewrite Forall_forall in Hx, Hy.
        specialize (Hx y Hyin). specialize (Hy x Hxin). lia. }
      subst y. f_equal. apply IH; [exact Hs'|].
      now apply Permutation_cons_inv in Hp.
Qed.

Lemma forallb_perm A (p : A -> bool) (l l' : list A) :
  Permutation l l' -> forallb p l = forallb p l'.
Proof.
  induction 1 as [|x l l' _ IH|x y l|l l' l'' _ IH1 _ IH2]; simpl.
  - reflexivity.
  - now rewrite IH.
  - destruct (p x), (p y); reflexivity.
  - congruence.
Qed.

Lemma date_rows_perm (e : engine) (sessions sessions' : list session) :
  Permutation sessions sessions' ->
  Permutation (JS.Object_values (trafficByDate_of e sessions))
    (JS.Object_values (trafficByDate_of e sessions')).
Proof.
  intros Hp.
  assert (Hrow : forall xs xs' k, Permutation xs xs' ->
            date_row_of e k (bucket date_key k xs)
            = date_row_of e k (bucket date_key k xs')).
  { intros xs xs' k H. unfold date_row_of.
    pose proof (bucket_perm date_key k H) as Hb.
    now rewrite (Permutation_length Hb), !(count_if_perm _ Hb). }
  eapply same_rows_perm.
  - eapply NoDup_map_inv. apply NoDup_date_rows.
  - eapply NoDup_map_inv. apply NoDup_date_rows.
  - intros r. apply In_date_rows.
  - intros r. apply In_date_rows.
  - intros r [k [Hi [Hne ->]]]. exists k. split; [exact Hi|]. split.
    + now apply (bucket_perm_nonempty date_key k Hp).
    + now apply Hrow.
  - intros r [k [Hi [Hne ->]]]. exists k. split; [exact Hi|]. split.
    + now apply (bucket_perm_nonempty date_key k (Permutation_sym Hp)).
    + now apply Hrow, Permutation_sym.
Qed.

Lemma timeline_perm (e : engine) (sessions sessions' : list session) :
  conforming e ->
  Permutation sessions sessions' ->
  Permutation
    (Array_sort e (by_date e) (JS.Object_values (trafficByDate_of e sessions)))
    (Array_sort e (by_date e)
       (JS.Object_values (trafficByDate_of e sessions'))).
Proof.
  intros [Hperm _] Hp.
  eapply Permutation_trans; [apply Hperm|].
  eapply Permutation_trans; [|apply Permutation_sym, Hperm].
  now apply date_rows_perm.
Qed.

Lemma source_rows_perm (sessions sessions' : list session) :
  Permutation sessions sessions' ->
  Permutation
    (map (fun item =>
            mkSourceRow (bucket_source item) (bucket_sessions item)
              (JS.size (bucket_users item)))
       (JS.Object_values (trafficBySource_of sessions)))
    (map (fun item =>
            mkSourceRow (bucket_source item) (bucket_sessions item)
              (JS.size (bucket_users item)))
       (JS.Object_values (trafficBySource_of sessions'))).
Proof.
  intros Hs. eapply same_rows_perm.
  - eapply NoDup_map_inv. apply NoDup_source_rows.
  - eapply NoDup_map_inv. apply NoDup_source_rows.
  - intros r. apply In_source_rows.
  - intros r. apply In_source_rows.
  - intros r [k [Hne ->]]. exists k.
    pose proof (bucket_perm source_key k Hs) as Hb.
    split; [now apply (bucket_perm_nonempty source_key k Hs)|].
    now rewrite (Permutation_length Hb), (distinct_users_perm Hb).
  - intros r [k [Hne ->]]. exists k.
    pose proof (bucket_perm source_key k Hs) as Hb.
    split; [now apply (bucket_perm_nonempty source_key k
                         (Permutation_sym Hs))|].
    now rewrite (Permutation_length Hb), (distinct_users_perm Hb).
Qed.

Lemma campaign_rows_perm (sessions sessions' : list session) :
  Permutation sessions sessions' ->
  Permutation (JS.Object_values (trafficByCampaign_of sessions))
    (JS.Object_values (trafficByCampaign_of sessions')).
Proof.
  intros Hs. eapply same_rows_perm.
  - eapply NoDup_map_inv. apply NoDup_campaign_rows.
  - eapply NoDup_map_inv. apply NoDup_campaign_rows.
  - intros r. apply In_campaign_rows.
  - intros r. apply In_campaign_rows.
  - intros r [k [Hi [Hne ->]]]. exists k. split; [exact Hi|].
    pose proof (bucket_perm campaign_key k Hs) as Hb.
    split; [now apply (bucket_perm_nonempty campaign_key k Hs)|].
    now rewrite (Permutation_length Hb).
  - intros r [k [Hi [Hne ->]]]. exists k. split; [exact Hi|].
    pose proof (bucket_perm campaign_key k Hs) as Hb.
    split; [now apply (bucket_perm_nonempty campaign_key k
                         (Permutation_sym Hs))|].
    now rewrite (Permutation_length Hb).
Qed.

(** C9, as the code has it.  On an engine whose [sort] does what the
    language promises, let [sessions'] be a reordering of [sessions] and
    [pageviews'] a reordering of [pageviews].  Then [calculateMetrics]
    throws on both inputs or on neither, and in the latter case the two
    results have equal [totalSessions], [uniqueUsers], [newSessions],
    [returningSessions], [bounceRate] and [avgPagesPerSession], the same
    [deviceCounts] properties, and [sourceData], [campaignData] and
    [timelineData] equal up to the order of their rows; [timelineData] is
    equal outright when every date portion that has a row parses to a
    valid date and different ones parse to different times.  Nothing is
    said of [topLandingPages], which depends on the order of the
    pageviews. *)
Theorem reordering_the_rows (e : engine) (He : conforming e)
  (sessions sessions' : list session) (pageviews pageviews' : list pageview) :
  Permutation sessions sessions' ->
  Permutation pageviews pageviews' ->
  match calculateMetrics e sessions pageviews,
        calculateMetrics e sessions' pageviews' with
  | JS.Ok m, JS.Ok m' =>
      totalSessions m = totalSessions m' /\
      uniqueUsers m = uniqueUsers m' /\
      (forall k, JS.get k (deviceCounts m) = JS.get k (deviceCounts m')) /\
      newSessions m = newSessions m' /\
      returningSessions m = returningSessions m' /\
      bounceRate m = bounceRate m' /\
      avgPagesPerSession m = avgPagesPerSession m' /\
      Permutation (sourceData m) (sourceData m') /\
      Permutation (campaignData m) (campaignData m') /\
      Permutation (timelineData m) (timelineData m') /\
      ((forall s, In s sessions -> JS.inherited (date_key s) = false ->
          Date_parse e (date_key s) <> None) ->
       (forall s s', In s sessions -> In s' sessions ->
          JS.inherited (date_key s) = false ->
          JS.inherited (date_key s') = false ->
          Date_parse e (date_key s) = Date_parse e (date_key s') ->
          date_key s = date_key s') ->
       timelineData m = timelineData m')
  | JS.Throw _, JS.Throw _ =>
      forallb harmless sessions = false /\
      forallb harmless sessions' = false
  | _, _ => False
  end.
Proof.
  intros Hs Hp.
  pose proof (calculateMetrics_cases e sessions pageviews) as H.
  pose proof (calculateMetrics_cases e sessions' pageviews') as H'.
  pose proof (forallb_perm harmless Hs) as Hwf.
  destruct (calculateMetrics e sessions pageviews) as [m|err];
    destruct (calculateMetrics e sessions' pageviews') as [m'|err'].
  2: { destruct H as [H _]. congruence. }
  2: { destruct H' as [H' _]. congruence. }
  2: { split; assumption. }
  destruct H as [_ ->]. destruct H' as [_ ->].
  cbn [metrics_of totalSessions uniqueUsers deviceCounts newSessions
       returningSessions bounceRate avgPagesPerSession sourceData
       campaignData timelineData].
  rewrite <- (Permutation_length Hs), <- (Permutation_length Hp).
  rewrite <- (bouncedSessions_perm Hp).
  split; [reflexivity|]. split.
  { rewrite !size_new_Set. apply nodup_length_perm.
    now apply Permutation_map. }
  split. { intros k. rewrite !get_counter. now rewrite (count_if_perm _ Hs). }
  split; [apply count_if_perm, Hs|]. split; [apply count_if_perm, Hs|].
  split; [reflexivity|]. split; [reflexivity|].
  split; [now apply source_rows_perm|].
  split; [now apply campaign_rows_perm|].
  split; [now apply timeline_perm|].
  intros Hvalid Hinj.
  apply (strictly_sorted_perm_eq (time_of e)).
  - now apply timeline_strictly_sorted.
  - apply timeline_strictly_sorted; [exact He| |].
    + intros s Hin. apply Hvalid.
      now apply (Permutation_in _ (Permutation_sym Hs)).
    + intros s s' Hin Hin'. apply Hinj;
        now apply (Permutation_in _ (Permutation_sym Hs)).
  - now apply timeline_perm.
Qed.

Lemma reordering_the_rows_witness :
  exists m m',
    calculateMetrics sample_engine three_sessions five_pageviews = JS.Ok m /\
    calculateMetrics sample_engine (rev three_sessions) (rev five_pageviews)
      = JS.Ok m' /\
    bounceRate m = bounceRate m' /\
    Permutation (sourceData m) (sourceData m') /\
    timelineData m = timelineData m'.
Proof.
  pose proof (reordering_the_rows sample_engine_conforming
                (Permutation_rev three_sessions)
                (Permutation_rev five_pageviews)) as H.
  destruct (calculateMetrics sample_engine three_sessions five_pageviews)
    as [m|err] eqn:E; [|vm_compute in E; discriminate].
  destruct (calculateMetrics sample_engine (rev three_sessions)
              (rev five_pageviews))
    as [m'|err'] eqn:E'; [|vm_compute in E'; discriminate].
  exists m, m'. split; [reflexivity|]. split; [reflexivity|].
  destruct H as (_ & _ & _ & _ & _ & Hb & _ & Hsrc & _ & _ & Ht).
  split; [exact Hb|]. split; [exact Hsrc|]. apply Ht.
  - intros s Hs _. simpl in Hs.
    destruct Hs as [<-|[<-|[<-|[]]]]; vm_compute; discriminate.
  - intros s s' Hs Hs' _ _. simpl in Hs, Hs'.
    destruct Hs as [<-|[<-|[<-|[]]]]; destruct Hs' as [<-|[<-|[<-|[]]]];
      vm_compute; intros E''; first [reflexivity | discriminate E''].
Defined.

(** The claim as stated fails on [timelineData]: the two rows of one day,
    which compare equal, come out in the order in which the sessions were
    met. *)
Lemma timeline_follows_session_order :
  Permutation same_day_sessions same_day_sessions_swapped /\
  exists m m',
    calculateMetrics sample_engine same_day_sessions [] = JS.Ok m /\
    calculateMetrics sample_engine same_day_sessions_swapped [] = JS.Ok m' /\
    map date (timelineData m) = ["2012-03-19T00:00:00Z"; "2012-03-19"]%string /\
    map date (timelineData m') = ["2012-03-19"; "2012-03-19T00:00:00Z"]%string /\
    timelineData m <> timelineData m'.
Proof.
  split; [apply perm_swap|].
  eexists. eexists. split; [vm_compute; reflexivity|].
  split; [vm_compute; reflexivity|].
  split; [reflexivity|]. split; [reflexivity|]. discriminate.
Qed.

(** The landing pages do depend on the order of the pageviews. *)
Lemma landing_pages_follow_pageview_order :
  Permutation home_then_cart cart_then_home /\
  exists m m',
    calculateMetrics sample_engine one_session home_then_cart = JS.Ok m /\
    calculateMetrics sample_engine one_session cart_then_home = JS.Ok m' /\
    topLandingPages m = [mkLandingRow "/home" (count 1)] /\
    topLandingPages m' = [mkLandingRow "/cart" (count 1)].
Proof.
  split; [apply perm_swap|].
  eexists. eexists. split; [vm_compute; reflexivity|].
  split; [vm_compute; reflexivity|]. split; reflexivity.
Qed.

(** ** C6: the refund rate *)

Lemma Qpos_bool_true (q : Q) :
  Cleaners.Qpos_bool q = true <-> (0 < q)%Q.
Proof.
  unfold Cleaners.Qpos_bool. rewrite negb_true_iff. split.
  - intros H. apply Qnot_le_lt. intros Hle. apply Qle_bool_iff in Hle.
    congruence.
  - intros H. destruct (Qle_bool q 0) eqn:E; [|reflexivity].
    apply Qle_bool_iff in E. exfalso. now apply (Qlt_not_le _ _ H).
Qed.

Lemma div_by_positive (a b : Q) : (0 < b)%Q -> JS.div a b = JS.num (a / b)%Q.
Proof.
  intros Hb. unfold JS.div. destruct (Qeq_bool b 0) eqn:E; [|reflexivity].
  apply Qeq_bool_iff in E. rewrite E in Hb. exfalso.
  now apply (Qlt_irrefl 0).
Qed.

(** C6.  Over the calculators of the specification, the [refundRate] that
    the hook's [metrics] holds is [totalRefunds / totalRevenue] when
    [totalRevenue > 0] and [0] otherwise, in particular whenever
    [totalRevenue = 0], whatever [totalRefunds] is; it is always a finite
    number (never [NaN] or an infinity, which a division by zero would
    give), and the computation raises nothing. *)
Theorem refund_rate_guarded (order_item product : Type)
  (d : Hook.processed order_item product) :
  let totalRevenue := Cleaners.calculateTotalRevenue (Hook.orders d) in
  let totalRefunds := Cleaners.calculateTotalRefunds (Hook.refunds d) in
  let m := fst (dashboard_metrics d) in
  snd (dashboard_metrics d) = [] /\
  Hook.refundRate m =
    Cleaners.calculateRefundRate (Hook.orders d) (Hook.refunds d) /\
  ((0 < totalRevenue)%Q ->
   Hook.refundRate m = JS.num (totalRefunds / totalRevenue)%Q) /\
  ((totalRevenue == 0)%Q -> Hook.refundRate m = JS.num 0%Q) /\
  (~ (0 < totalRevenue)%Q -> Hook.refundRate m = JS.num 0%Q) /\
  JS.finite (Hook.refundRate m).
Proof.
  simpl. unfold Cleaners.calculateRefundRate.
  split; [reflexivity|]. split; [reflexivity|].
  destruct (Cleaners.Qpos_bool (Cleaners.calculateTotalRevenue (Hook.orders d)))
    eqn:E.
  - apply Qpos_bool_true in E. rewrite (div_by_positive _ E).
    split; [reflexivity|]. split; [|split; [|exact I]].
    + intros Hz. rewrite Hz in E. exfalso. now apply (Qlt_irrefl 0).
    + intros Hn. contradiction.
  - assert (Hn : ~ (0 < Cleaners.calculateTotalRevenue (Hook.orders d))%Q).
    { intros H. apply Qpos_bool_true in H. congruence. }
    split; [intros H; contradiction|]. split; [reflexivity|].
    split; [reflexivity | exact I].
Qed.

Lemma refund_rate_guarded_witness :
  (exists q,
     Hook.refundRate (fst (dashboard_metrics scenario_data)) = JS.num q /\
     (q == 1 # 6)%Q) /\
  Hook.refundRate (fst (dashboard_metrics refund_without_revenue)) = JS.num 0%Q.
Proof.
  split.
  - pose proof (refund_rate_guarded scenario_data) as H. cbv zeta in H.
    destruct H as (_ & _ & Hpos & _). eexists. split.
    + apply Hpos. reflexivity.
    + reflexivity.
  - pose proof (refund_rate_guarded refund_without_revenue) as H.
    cbv zeta in H. destruct H as (_ & _ & _ & Hzero & _).
    apply Hzero. reflexivity.
Defined.

(** ** C8: the row cap *)

Lemma first_rows_length Row (n : nat) (raw : Hook.json Row) :
  List.length (first_rows n raw) <= n.
Proof.
  destruct raw as [rows|]; unfold first_rows;
    [apply firstn_le_length | simpl; lia].
Qed.

Lemma limit_rows_first_rows Row (raw : Hook.json Row) :
  Hook.limit_rows raw = first_rows Hook.LIMIT_ROWS raw.
Proof. destruct raw; reflexivity. Qed.

Lemma limit_rows_capped Row (raw : Hook.json Row) :
  Hook.limit_rows (Hook.json_array (first_rows Hook.LIMIT_ROWS raw)) =
  Hook.limit_rows raw.
Proof.
  destruct raw as [rows|]; unfold Hook.limit_rows, first_rows.
  - rewrite firstn_firstn. now rewrite Nat.min_id.
  - apply firstn_nil.
Qed.

(** C8.  Whatever the cleaners are, [processedData] hands each of the six
    cleaners the first [LIMIT_ROWS = 500] rows of its own document, the
    same limit for all six, and the empty array for a document that is no
    array.  The cleaners are run in the order orders, order items,
    refunds, products, sessions, pageviews, each on the capped array of
    its document; when all six return, [processedData] holds their six
    results, and when one throws it holds six empty arrays and the error.
    Each capped array has at most 500 rows, and the result does not
    change when the documents are cut down to their first 500 rows
    beforehand. *)
Theorem row_cap_uniform (raw_row order_item product : Type)
  (cleanOrdersData : list raw_row -> JS.result (list Cleaners.order))
  (cleanOrderItemsData : list raw_row -> JS.result (list order_item))
  (cleanRefundsData : list raw_row -> JS.result (list Cleaners.refund))
  (cleanProductsData : list raw_row -> JS.result (list product))
  (cleanSessionsData : list raw_row -> JS.result (list session))
  (cleanPageviewsData : list raw_row -> JS.result (list pageview))
  (raw : Hook.raw_data raw_row) :
  Hook.LIMIT_ROWS = 500 /\
  (forall rows : list raw_row,
     first_rows 500 (Hook.json_array rows) = firstn 500 rows) /\
  first_rows 500 (@Hook.json_other raw_row) = [] /\
  Hook.processedData cleanOrdersData cleanOrderItemsData cleanRefundsData
    cleanProductsData cleanSessionsData cleanPageviewsData raw =
  match cleanOrdersData (first_rows 500 (Hook.ordersRaw raw)) with
  | JS.Throw err => cleaning_failed err
  | JS.Ok orders =>
  match cleanOrderItemsData (first_rows 500 (Hook.orderItemsRaw raw)) with
  | JS.Throw err => cleaning_failed err
  | JS.Ok orderItems =>
  match cleanRefundsData (first_rows 500 (Hook.refundsRaw raw)) with
  | JS.Throw err => cleaning_failed err
  | JS.Ok refunds =>
  match cleanProductsData (first_rows 500 (Hook.productsRaw raw)) with
  | JS.Throw err => cleaning_failed err
  | JS.Ok products =>
  match cleanSessionsData (first_rows 500 (Hook.sessionsRaw raw)) with
  | JS.Throw err => cleaning_failed err
  | JS.Ok sessions =>
  match cleanPageviewsData (first_rows 500 (Hook.pageviewsRaw raw)) with
  | JS.Throw err => cleaning_failed err
  | JS.Ok pageviews =>
      (Hook.mkProcessed orders orderItems refunds products sessions
         pageviews, [])
  end end end end end end /\
  (List.length (first_rows 500 (Hook.ordersRaw raw)) <= 500 /\
   List.length (first_rows 500 (Hook.orderItemsRaw raw)) <= 500 /\
   List.length (first_rows 500 (Hook.refundsRaw raw)) <= 500 /\
   List.length (first_rows 500 (Hook.productsRaw raw)) <= 500 /\
   List.length (first_rows 500 (Hook.sessionsRaw raw)) <= 500 /\
   List.length (first_rows 500 (Hook.pageviewsRaw raw)) <= 500) /\
  Hook.processedData cleanOrdersData cleanOrderItemsData cleanRefundsData
    cleanProductsData cleanSessionsData cleanPageviewsData raw =
  Hook.processedData cleanOrdersData cleanOrderItemsData cleanRefundsData
    cleanProductsData cleanSessionsData cleanPageviewsData (capped 500 raw).
Proof.
  split; [reflexivity|]. split; [reflexivity|]. split; [reflexivity|].
  split.
  { unfold Hook.processedData, Hook.clean_all, Hook.limit_all.
    cbn [Hook.ordersLimited Hook.orderItemsLimited Hook.refundsLimited
         Hook.productsLimited Hook.sessionsLimited Hook.pageviewsLimited].
    rewrite !limit_rows_first_rows. change Hook.LIMIT_ROWS with 500.
    destruct (cleanOrdersData _); [|reflexivity].
    destruct (cleanOrderItemsData _); [|reflexivity].
    destruct (cleanRefundsData _); [|reflexivity].
    destruct (cleanProductsData _); [|reflexivity].
    destruct (cleanSessionsData _); [|reflexivity].
    destruct (cleanPageviewsData _); reflexivity. }
  split; [repeat split; apply first_rows_length|].
  unfold Hook.processedData. f_equal. f_equal.
  destruct raw as [r1 r2 r3 r4 r5 r6]. unfold Hook.limit_all, capped.
  cbn [Hook.ordersRaw Hook.orderItemsRaw Hook.refundsRaw Hook.productsRaw
       Hook.sessionsRaw Hook.pageviewsRaw].
  change 500 with Hook.LIMIT_ROWS.
  now rewrite !limit_rows_capped.
Qed.

(** ** C7: where errors are caught *)



(* ================================================================== *)
(** * Part III: further properties of the code *)
(* ================================================================== *)

(** ** Unique users and pages per session (Traffic.jsx, lines 12-13, 33-36) *)

Lemma nodup_nonempty A (dec : forall a b : A, {a = b} + {a <> b}) (l : list A) :
  l <> [] -> 1 <= List.length (nodup dec l).
Proof.
  destruct l as [|x l]; [congruence|]. intros _.
  assert (H : In x (nodup dec (x :: l))) by (apply nodup_In; now left).
  destruct (nodup dec (x :: l)); [contradiction | simpl; lia].
Qed.


Lemma mentioned_ids_le_pageviews (pageviews : list pageview) :
  List.length (mentioned_session_ids pageviews) <= List.length pageviews.
Proof.
  unfold mentioned_session_ids.
  rewrite <- (length_map session_key pageviews). apply nodup_length_le.
Qed.





(** ** Traffic by campaign (Traffic.jsx, lines 55-65) *)

Lemma campaign_key_cases (s : session) :
  campaign_key s =
  match utm_campaign s with
  | JS.str c => if String.eqb c "" then "none"%string else c
  | _ => "none"%string
  end.
Proof.
  unfold campaign_key, JS.or. destruct (utm_campaign s) as [| |c]; simpl;
    try reflexivity.
  destruct (String.eqb c ""); reflexivity.
Qed.

Lemma bucket_nonempty_length A (key : A -> string) (k : string) (xs : list A) :
  bucket key k xs <> [] -> 1 <= List.length (bucket key k xs).
Proof. destruct (bucket key k xs); [congruence | simpl; lia]. Qed.

Lemma count_if_all A (p : A -> bool) (xs : list A) :
  forallb p xs = true -> count_if p xs = List.length xs.
Proof. intros H. unfold count_if. now rewrite forallb_filter_id. Qed.

(** The weights of the rows of a grouping that skips the keys naming a
    member of [Object.prototype]. *)
Lemma plain_rows_sum A V (w : V -> nat) (key : A -> string)
  (f : A -> option V -> V) (inc : A -> nat) (xs : list A) :
  (forall x c, w (f x c) = weight_of w c + inc x) ->
  list_sum (map w (JS.Object_values
                     (fold_left (upsert key f) (plain key xs) [])))
  = list_sum (map inc (plain key xs)).
Proof.
  intros Hw. rewrite (total_weight_values w).
  rewrite (total_weight_fold_by w key f inc (fun _ => True)).
  - reflexivity.
  - intros o x _. split; [apply Hw | exact I].
  - exact I.
Qed.

Lemma list_sum_ones A (xs : list A) :
  list_sum (map (fun _ => 1) xs) = List.length xs.
Proof. induction xs as [|x xs IH]; simpl; [reflexivity | now rewrite IH]. Qed.

(** When [calculateMetrics] returns, [campaignData] has one row per
    campaign that some session falls under and that names no member of
    [Object.prototype], the campaign of a session being its
    [utm_campaign], or ["none"] when that is absent or empty; a row holds
    the number of the campaign's sessions, which is at least 1.  The rows
    add up to the number of sessions whose campaign names no member of
    [Object.prototype]: to [totalSessions] when no campaign does. *)
Theorem campaign_data_partition (e : engine)
  (sessions : list session) (pageviews : list pageview) :
  match calculateMetrics e sessions pageviews with
  | JS.Ok m =>
      (forall s,
         campaign_key s =
         match utm_campaign s with
         | JS.str c => if String.eqb c "" then "none"%string else c
         | _ => "none"%string
         end) /\
      (forall r,
         In r (campaignData m) <->
         exists k,
           JS.inherited k = false /\
           bucket campaign_key k sessions <> [] /\
           r = mkCampaignRow (JS.str k)
                 (List.length (bucket campaign_key k sessions))) /\
      NoDup (map campaign (campaignData m)) /\
      Forall (fun r => 1 <= campaign_sessions r) (campaignData m) /\
      list_sum (map campaign_sessions (campaignData m))
        = count_if (fun s => negb (JS.inherited (campaign_key s))) sessions /\
      list_sum (map campaign_sessions (campaignData m)) <= totalSessions m /\
      (forallb (fun s => negb (JS.inherited (campaign_key s))) sessions = true
       -> list_sum (map campaign_sessions (campaignData m)) = totalSessions m)
  | JS.Throw _ => forallb harmless sessions = false
  end.
Proof.
  pose proof (calculateMetrics_cases e sessions pageviews) as H.
  destruct (calculateMetrics e sessions pageviews) as [m|err]; [|exact H].
  destruct H as [_ ->]. cbn [metrics_of campaignData totalSessions].
  assert (Hsum : list_sum (map campaign_sessions
                             (JS.Object_values (trafficByCampaign_of sessions)))
                 = count_if (fun s => negb (JS.inherited (campaign_key s)))
                     sessions).
  { unfold trafficByCampaign_of.
    rewrite (plain_rows_sum campaign_sessions campaign_key campaign_update
               (fun _ => 1)).
    - apply list_sum_ones.
    - intros x [c|]; reflexivity. }
  split; [apply campaign_key_cases|].
  split; [apply In_campaign_rows|].
  split; [apply NoDup_campaign_rows|]. split; [|split; [|split]].
  - apply Forall_forall. intros r Hr. apply In_campaign_rows in Hr.
    destruct Hr as [k [_ [Hne ->]]]. simpl. now apply bucket_nonempty_length.
  - exact Hsum.
  - rewrite Hsum. apply count_if_le.
  - intros Hall. rewrite Hsum. now apply count_if_all.
Qed.

Lemma campaign_data_partition_witness :
  exists m,
    calculateMetrics sample_engine three_sessions five_pageviews = JS.Ok m /\
    list_sum (map campaign_sessions (campaignData m)) = totalSessions m.
Proof.
  pose proof (campaign_data_partition sample_engine three_sessions
                five_pageviews) as H.
  destruct (calculateMetrics sample_engine three_sessions five_pageviews)
    as [m|err] eqn:E; [|vm_compute in E; discriminate].
  exists m. split; [reflexivity|].
  destruct H as (_ & _ & _ & _ & _ & _ & Hsum).
  apply Hsum. reflexivity.
Defined.

(** ** Totals of the groupings (Traffic.jsx, lines 15-20, 67-99) *)

Lemma count_if_disjoint A (p q : A -> bool) (xs : list A) :
  (forall x, p x = true -> q x = false) ->
  count_if p xs + count_if q xs <= List.length xs.
Proof.
  intros Hpq. unfold count_if. induction xs as [|x xs IH]; simpl; [lia|].
  destruct (p x) eqn:Hp; simpl.
  - rewrite (Hpq x Hp). simpl. lia.
  - destruct (q x); simpl; lia.
Qed.

(** A session is a desktop (mobile) session for the timeline exactly when
    it falls in the ["desktop"] (["mobile"]) bucket of [deviceCounts]. *)
Lemma is_device_key (e : engine) (name : string) (s : session) :
  name <> "unknown"%string -> name <> ""%string ->
  is_device e name s = String.eqb (device_key e s) name.
Proof.
  intros Hu He. rewrite device_key_cases. unfold is_device, JS.strict_eq.
  destruct (device_type s) as [| |d];
    cbn [JS.opt_toLowerCase JS.value_eqb].
  - symmetry. apply (proj2 (String.eqb_neq _ _)). congruence.
  - symmetry. apply (proj2 (String.eqb_neq _ _)). congruence.
  - destruct (String.eqb_spec (toLowerCase e d) "") as [E|E].
    + rewrite E. transitivity false.
      * apply (proj2 (String.eqb_neq _ _)). congruence.
      * symmetry. apply (proj2 (String.eqb_neq _ _)). congruence.
    + reflexivity.
Qed.

Lemma counter_or_zero A (key : A -> string) (xs : list A) (k : string) :
  JS.inherited k = false ->
  or_zero (JS.get k (fold_left (counter_step key) xs [])) =
  count (count_if (fun x => String.eqb (key x) k) xs).
Proof.
  intros Hk. rewrite get_counter.
  destruct (String.eqb_spec k "__proto__") as [->|_]; [discriminate|].
  unfold counter_cell. rewrite Hk.
  destruct (count_if _ xs); reflexivity.
Qed.

Lemma list_sum_indicator_filter A (p q : A -> bool) (xs : list A) :
  list_sum (map (fun x => if p x then 1 else 0) (filter q xs))
  = count_if (fun x => q x && p x) xs.
Proof.
  unfold count_if. induction xs as [|x xs IH]; simpl; [reflexivity|].
  destruct (q x); simpl; [|exact IH]. destruct (p x); simpl; lia.
Qed.

Lemma timeline_sum (e : engine) (sessions : list session)
  (w : date_row -> nat) (inc : session -> nat) :
  conforming e ->
  (forall x c, w (date_update e x c) = weight_of w c + inc x) ->
  list_sum (map w (Array_sort e (by_date e)
                     (JS.Object_values (trafficByDate_of e sessions))))
  = list_sum (map inc (plain date_key sessions)).
Proof.
  intros [Hperm _] Hw.
  rewrite (list_sum_perm (Permutation_map w (Hperm _ (by_date e) _))).
  unfold trafficByDate_of. now apply plain_rows_sum.
Qed.

(** On an engine whose [sort] does what the language promises, when
    [calculateMetrics] returns, the [sessions] of the timeline rows add
    up to the number of sessions whose date portion names no member of
    [Object.prototype], and their [desktop] and [mobile] fields to the
    number of desktop and mobile sessions among those; in every row
    [desktop + mobile <= sessions] with at least one session.  When no
    date portion names such a member, the timeline and the device
    breakdown tell the same story: the [sessions] add up to
    [totalSessions], and [desktop] and [mobile] to the ["desktop"] and
    ["mobile"] entries of [deviceCounts] ([0] when there is none). *)
Theorem timeline_totals (e : engine) (He : conforming e)
  (sessions : list session) (pageviews : list pageview) :
  match calculateMetrics e sessions pageviews with
  | JS.Ok m =>
      list_sum (map date_sessions (timelineData m))
        = count_if (fun s => negb (JS.inherited (date_key s))) sessions /\
      list_sum (map desktop (timelineData m))
        = count_if (fun s => negb (JS.inherited (date_key s))
                             && is_device e "desktop" s) sessions /\
      list_sum (map mobile (timelineData m))
        = count_if (fun s => negb (JS.inherited (date_key s))
                             && is_device e "mobile" s) sessions /\
      Forall (fun r => 1 <= date_sessions r /\
                       desktop r + mobile r <= date_sessions r)
        (timelineData m) /\
      (forallb (fun s => negb (JS.inherited (date_key s))) sessions = true ->
       list_sum (map date_sessions (timelineData m)) = totalSessions m /\
       count (list_sum (map desktop (timelineData m)))
         = or_zero (JS.get "desktop" (deviceCounts m)) /\
       count (list_sum (map mobile (timelineData m)))
         = or_zero (JS.get "mobile" (deviceCounts m)))
  | JS.Throw _ => forallb harmless sessions = false
  end.
Proof.
  pose proof (calculateMetrics_cases e sessions pageviews) as H.
  destruct (calculateMetrics e sessions pageviews) as [m|err]; [|exact H].
  destruct H as [_ ->].
  cbn [metrics_of timelineData totalSessions deviceCounts].
  assert (H1 : list_sum (map date_sessions
                 (Array_sort e (by_date e)
                    (JS.Object_values (trafficByDate_of e sessions))))
               = count_if (fun s => negb (JS.inherited (date_key s)))
                   sessions).
  { rewrite (timeline_sum sessions date_sessions (fun _ => 1) He).
    - apply list_sum_ones.
    - intros x c. unfold date_update.
      destruct (is_device e "desktop" x), (is_device e "mobile" x), c;
        reflexivity. }
  assert (H2 : list_sum (map desktop
                 (Array_sort e (by_date e)
                    (JS.Object_values (trafficByDate_of e sessions))))
               = count_if (fun s => negb (JS.inherited (date_key s))
                                    && is_device e "desktop" s) sessions).
  { rewrite (timeline_sum sessions desktop
               (fun x => if is_device e "desktop" x then 1 else 0) He).
    - apply list_sum_indicator_filter.
    - intros x c. unfold date_update.
      destruct (is_device e "desktop" x), (is_device e "mobile" x), c;
        simpl; lia. }
  assert (H3 : list_sum (map mobile
                 (Array_sort e (by_date e)
                    (JS.Object_values (trafficByDate_of e sessions))))
               = count_if (fun s => negb (JS.inherited (date_key s))
                                    && is_device e "mobile" s) sessions).
  { rewrite (timeline_sum sessions mobile
               (fun x => if is_device e "mobile" x then 1 else 0) He).
    - apply list_sum_indicator_filter.
    - intros x c. unfold date_update.
      destruct (is_device e "desktop" x) eqn:Hd.
      + rewrite (desktop_not_mobile _ _ Hd). destruct c; simpl; lia.
      + destruct (is_device e "mobile" x), c; simpl; lia. }
  split; [exact H1|]. split; [exact H2|]. split; [exact H3|]. split.
  - apply Forall_forall. intros r Hr. apply (In_timeline sessions r He) in Hr.
    destruct Hr as [k [_ [Hne ->]]]. simpl. split.
    + now apply bucket_nonempty_length.
    + apply count_if_disjoint. apply desktop_not_mobile.
  - intros Hall. rewrite H1, H2, H3.
    assert (Hext : forall p : session -> bool,
              count_if (fun s => negb (JS.inherited (date_key s)) && p s)
                sessions = count_if p sessions).
    { intros p. unfold count_if. f_equal. apply filter_ext_in.
      intros s Hs. rewrite forallb_forall in Hall.
      now rewrite (Hall s Hs). }
    split; [now apply count_if_all|].
    rewrite !Hext, !counter_or_zero by reflexivity.
    split; f_equal; apply count_if_ext; intros x; apply is_device_key;
      discriminate.
Qed.

Lemma timeline_totals_witness :
  exists m,
    calculateMetrics sample_engine three_sessions five_pageviews = JS.Ok m /\
    list_sum (map date_sessions (timelineData m)) = 3 /\
    list_sum (map desktop (timelineData m)) = 2 /\
    or_zero (JS.get "desktop" (deviceCounts m)) = count 2.
Proof.
  pose proof (timeline_totals sample_engine_conforming three_sessions
                five_pageviews) as H.
  destruct (calculateMetrics sample_engine three_sessions five_pageviews)
    as [m|err] eqn:E; [|vm_compute in E; discriminate].
  exists m. split; [reflexivity|].
  destruct H as (H1 & H2 & _ & _ & H5).
  destruct (H5 eq_refl) as (_ & Hd & _).
  split; [rewrite H1; reflexivity|].
  split; [rewrite H2; reflexivity|].
  rewrite <- Hd, H2. reflexivity.
Defined.

Lemma landing_count (pageviews : list pageview) :
  List.length (landing_pageviews pageviews)
  = count_if (fun k => negb (JS.inherited k))
      (mentioned_session_ids pageviews).
Proof.
  rewrite <- (length_map session_key (landing_pageviews pageviews)).
  unfold count_if. apply Permutation_length, NoDup_Permutation.
  - apply landing_from_NoDup.
  - apply NoDup_filter, NoDup_nodup.
  - intros k. unfold landing_pageviews, mentioned_session_ids.
    rewrite landing_from_keys, filter_In, nodup_In, negb_true_iff.
    simpl. tauto.
Qed.

(** The rows of the landing pages hold a count between 1 and the number of
    landing pageviews, or a text. *)
Lemma landing_row_bounds (pageviews : list pageview) (r : landing_row) :
  In r (map (fun entry => mkLandingRow (fst entry) (snd entry))
          (JS.Object_entries (acc_pages (landingPages pageviews)))) ->
  match landing_sessions r with
  | count n => 1 <= n <= List.length (landing_pageviews pageviews)
  | native name ones =>
      name = url r /\ JS.inherited name = true /\
      1 <= ones <= List.length (landing_pageviews pageviews)
  end.
Proof.
  intros Hr. apply In_landing_rows in Hr. destruct Hr as [u [_ [Hne ->]]].
  unfold landing_row_of, counter_cell. cbn [landing_sessions url].
  pose proof (count_if_le (fun pv => String.eqb (url_key pv) u)
                (landing_pageviews pageviews)) as Hle.
  destruct (JS.inherited u) eqn:Hu.
  - split; [reflexivity|]. split; [exact Hu|]. lia.
  - lia.
Qed.

Lemma landing_sessions_sum (pageviews : list pageview) :
  list_sum (map (fun r => cell_count (landing_sessions r))
              (map (fun entry => mkLandingRow (fst entry) (snd entry))
                 (JS.Object_entries (acc_pages (landingPages pageviews)))))
  = count_if (fun pv => negb (JS.inherited (url_key pv)))
      (landing_pageviews pageviews).
Proof.
  rewrite map_map. cbn [landing_sessions]. rewrite landing_pages_counter.
  rewrite <- (sum_counter url_key (landing_pageviews pageviews)).
  unfold sum_counts, JS.Object_values, JS.Object_entries.
  now rewrite map_map.
Qed.

(** On an engine whose [sort] does what the language promises, when
    [calculateMetrics] returns, every session id found in the pageviews
    that names no member of [Object.prototype] has one landing pageview,
    so there are at most [pageviews.length] of them; the numbers in the
    [sessions] of [topLandingPages] add up to the number of landing
    pageviews whose URL names no such member; and every row holds a
    number between 1 and the number of landing pageviews, or, under a URL
    that names such a member, a text. *)
Theorem landing_pages_total (e : engine) (He : conforming e)
  (sessions : list session) (pageviews : list pageview) :
  match calculateMetrics e sessions pageviews with
  | JS.Ok m =>
      List.length (landing_pageviews pageviews)
        = count_if (fun k => negb (JS.inherited k))
            (mentioned_session_ids pageviews) /\
      List.length (landing_pageviews pageviews) <= List.length pageviews /\
      list_sum (map (fun r => cell_count (landing_sessions r))
                  (topLandingPages m))
        = count_if (fun pv => negb (JS.inherited (url_key pv)))
            (landing_pageviews pageviews) /\
      Forall
        (fun r =>
           match landing_sessions r with
           | count n => 1 <= n <= List.length (landing_pageviews pageviews)
           | native name ones =>
               name = url r /\ JS.inherited name = true /\
               1 <= ones <= List.length (landing_pageviews pageviews)
           end)
        (topLandingPages m)
  | JS.Throw _ => forallb harmless sessions = false
  end.
Proof.
  pose proof (calculateMetrics_cases e sessions pageviews) as H.
  destruct (calculateMetrics e sessions pageviews) as [m|err]; [|exact H].
  destruct H as [_ ->]. cbn [metrics_of topLandingPages].
  split; [apply landing_count|]. split.
  { rewrite landing_count. eapply Nat.le_trans; [apply count_if_le|].
    apply mentioned_ids_le_pageviews. }
  split.
  - rewrite (list_sum_perm
               (Permutation_map _ (proj1 He _ by_sessions_desc _))).
    apply landing_sessions_sum.
  - apply Forall_forall. intros r Hr.
    apply (Permutation_in _ (proj1 He _ by_sessions_desc _)) in Hr.
    now apply landing_row_bounds.
Qed.

Lemma landing_pages_total_witness :
  exists m,
    calculateMetrics sample_engine three_sessions five_pageviews = JS.Ok m /\
    list_sum (map (fun r => cell_count (landing_sessions r))
                (topLandingPages m)) = 3.
Proof.
  pose proof (landing_pages_total sample_engine_conforming three_sessions
                five_pageviews) as H.
  destruct (calculateMetrics sample_engine three_sessions five_pageviews)
    as [m|err] eqn:E; [|vm_compute in E; discriminate].
  exists m. split; [reflexivity|].
  destruct H as (_ & _ & H & _). rewrite H. reflexivity.
Defined.

(** ** The keys of the device breakdown (Traffic.jsx, lines 15-20) *)

Lemma device_key_nonempty (e : engine) (s : session) :
  device_key e s <> ""%string.
Proof.
  rewrite device_key_cases. destruct (device_type s) as [| |d];
    try discriminate.
  destruct (String.eqb_spec (toLowerCase e d) ""); [discriminate|assumption].
Qed.

Lemma count_if_positive A (p : A -> bool) (xs : list A) (n : nat) :
  count_if p xs = S n -> exists x, In x xs /\ p x = true.
Proof.
  unfold count_if. destruct (filter p xs) as [|x l] eqn:E; [discriminate|].
  intros _. assert (H : In x (filter p xs)) by (rewrite E; now left).
  apply filter_In in H. eauto.
Qed.

(** When [calculateMetrics] returns, every key of [deviceCounts] is a
    non-empty string other than [__proto__] and is the bucket of some
    session.  Under a key that names no member of [Object.prototype] it
    holds the number of the bucket's sessions, between 1 and
    [totalSessions]; under the name of a member it holds a text. *)
Theorem device_counts_keys (e : engine)
  (sessions : list session) (pageviews : list pageview) :
  match calculateMetrics e sessions pageviews with
  | JS.Ok m =>
      forall k c,
        JS.get k (deviceCounts m) = Some c ->
        k <> ""%string /\
        k <> "__proto__"%string /\
        (exists s, In s sessions /\ device_key e s = k) /\
        match c with
        | count n =>
            JS.inherited k = false /\
            n = count_if (fun s => String.eqb (device_key e s) k) sessions /\
            1 <= n <= totalSessions m
        | native name ones =>
            JS.inherited k = true /\ name = k /\
            ones = count_if (fun s => String.eqb (device_key e s) k) sessions
        end
  | JS.Throw _ => forallb harmless sessions = false
  end.
Proof.
  pose proof (calculateMetrics_cases e sessions pageviews) as H.
  destruct (calculateMetrics e sessions pageviews) as [m|err]; [|exact H].
  destruct H as [_ ->]. cbn [metrics_of deviceCounts totalSessions].
  intros k c Hk. rewrite get_counter in Hk.
  destruct (String.eqb_spec k "__proto__") as [|Hproto]; [discriminate|].
  destruct (count_if (fun s => String.eqb (device_key e s) k) sessions)
    as [|n] eqn:E; [discriminate|].
  injection Hk as <-.
  destruct (count_if_positive _ _ E) as [s [Hs Hks]].
  apply String.eqb_eq in Hks. subst k.
  split; [apply device_key_nonempty|]. split; [exact Hproto|].
  split; [eauto|]. unfold counter_cell.
  destruct (JS.inherited (device_key e s)).
  - repeat split.
  - split; [reflexivity|]. split; [reflexivity|]. split; [lia|].
    rewrite <- E. apply count_if_le.
Qed.

(** ** Users per source (Traffic.jsx, lines 38-53) *)

Lemma source_key_nonempty (s : session) : source_key s <> ""%string.
Proof.
  rewrite source_key_cases. destruct (utm_source s) as [| |u];
    try discriminate.
  destruct (String.eqb_spec u ""); [discriminate | assumption].
Qed.

Lemma distinct_users_bucket_le (key : session -> string) (k : string)
  (sessions : list session) :
  List.length (distinct_users (bucket key k sessions))
  <= List.length (distinct_users sessions).
Proof.
  apply NoDup_incl_length; [apply NoDup_nodup|].
  intros u Hu. unfold distinct_users in *. apply nodup_In in Hu.
  apply nodup_In. apply in_map_iff in Hu. destruct Hu as [s [<- Hs]].
  apply filter_In in Hs. apply in_map. tauto.
Qed.

Lemma length_flat_map_sum A B (f : A -> list B) (l : list A) :
  List.length (flat_map f l) = list_sum (map (fun a => List.length (f a)) l).
Proof.
  induction l as [|a l IH]; simpl; [reflexivity|].
  now rewrite length_app, IH.
Qed.

Lemma source_users_sum (sessions : list session) :
  list_sum
    (map source_users
       (map (fun item =>
               mkSourceRow (bucket_source item) (bucket_sessions item)
                 (JS.size (bucket_users item)))
          (JS.Object_values (trafficBySource_of sessions))))
  = list_sum
      (map (fun k =>
              List.length (distinct_users (bucket source_key k sessions)))
         (JS.keys (trafficBySource_of sessions))).
Proof.
  set (o := trafficBySource_of sessions).
  assert (Hnd : NoDup (JS.keys o)) by apply NoDup_keys_trafficBySource.
  rewrite map_map. simpl.
  rewrite (list_sum_perm
             (Permutation_map (fun item => JS.size (bucket_users item))
                (Object_values_perm o))).
  rewrite (values_by_keys (mkSourceBucket JS.undefined 0 []) o Hnd).
  rewrite map_map. f_equal. apply map_ext_in. intros k Hk.
  unfold o. rewrite get_trafficBySource.
  destruct (bucket source_key k sessions) as [|x l] eqn:E.
  - reflexivity.
  - simpl bucket_users. apply size_new_Set.
Qed.

(** When [calculateMetrics] returns, in every row of [sourceData] the
    source is a non-empty string that names no member of
    [Object.prototype], and [1 <= users <= sessions], with
    [users <= uniqueUsers].  A user seen under several sources is counted
    in each of them, so the [users] column adds up to at least
    [uniqueUsers]. *)
Theorem source_users_bounds (e : engine)
  (sessions : list session) (pageviews : list pageview) :
  match calculateMetrics e sessions pageviews with
  | JS.Ok m =>
      Forall (fun r =>
                (exists k, source r = JS.str k /\ k <> ""%string /\
                           JS.inherited k = false) /\
                1 <= source_users r /\
                source_users r <= source_sessions r /\
                source_users r <= uniqueUsers m)
        (sourceData m) /\
      uniqueUsers m <= list_sum (map source_users (sourceData m))
  | JS.Throw _ => forallb harmless sessions = false
  end.
Proof.
  pose proof (calculateMetrics_cases e sessions pageviews) as H.
  destruct (calculateMetrics e sessions pageviews) as [m|err]; [|exact H].
  destruct H as [Hh ->]. cbn [metrics_of sourceData uniqueUsers].
  rewrite size_new_Set. fold (distinct_users sessions). split.
  - apply Forall_forall. intros r Hr. apply In_source_rows in Hr.
    destruct Hr as [k [Hne ->]]. simpl.
    destruct (bucket_member _ _ _ Hne) as [s [Hs Hk]].
    split.
    { exists k. split; [reflexivity|]. rewrite <- Hk.
      split; [apply source_key_nonempty | exact (harmless_source _ Hh s Hs)]. }
    split.
    { unfold distinct_users. apply nodup_nonempty.
      destruct (bucket source_key k sessions); [congruence | discriminate]. }
    split.
    { unfold distinct_users.
      rewrite <- (length_map user_id (bucket source_key k sessions)).
      apply nodup_length_le. }
    apply distinct_users_bucket_le.
  - rewrite source_users_sum, <- length_flat_map_sum.
    apply NoDup_incl_length; [apply NoDup_nodup|].
    intros u Hu. unfold distinct_users in Hu. apply nodup_In in Hu.
    apply in_map_iff in Hu. destruct Hu as [s [<- Hs]].
    apply in_flat_map. exists (source_key s). split.
    + unfold trafficBySource_of. apply In_keys_fold. now apply in_map.
    + unfold distinct_users. apply nodup_In, in_map, filter_In.
      split; [exact Hs | apply String.eqb_refl].
Qed.

(** ** What the component shows (Traffic.jsx, lines 116-281) *)

Lemma percent_of_positive (a t : nat) :
  0 < t -> percent_of a t = JS.num (Q_of_nat a / Q_of_nat t * 100)%Q.
Proof.
  intros Ht. unfold percent_of.
  rewrite (div_by_positive _ (Q_of_nat_pos Ht)). reflexivity.
Qed.

Lemma percent_of_nothing (a : nat) :
  percent_of a 0 = if Nat.eqb a 0 then JS.NaN else JS.Infinity false.
Proof. destruct a; reflexivity. Qed.

Lemma ratio_positive (a t : nat) :
  0 < a -> 0 < t -> (0 < Q_of_nat a / Q_of_nat t * 100)%Q.
Proof.
  intros Ha Ht.
  apply Qmult_lt_0_compat; [|reflexivity].
  apply Qlt_shift_div_l; [now apply Q_of_nat_pos|].
  rewrite Qmult_0_l. now apply Q_of_nat_pos.
Qed.

Lemma In_first_rows A (n : nat) (l : list A) (x : A) :
  In x (firstn n l) -> In x l.
Proof.
  intros H. rewrite <- (firstn_skipn n l). apply in_or_app. now left.
Qed.

Lemma sorted_app_order A (R : A -> A -> Prop) (l1 l2 : list A) :
  StronglySorted R (l1 ++ l2) ->
  forall a b, In a l1 -> In b l2 -> R a b.
Proof.
  induction l1 as [|x l1 IH]; simpl; intros Hs a b Ha Hb; [contradiction|].
  inversion Hs as [|? ? Hs' Hx]; subst. destruct Ha as [<-|Ha].
  - rewrite Forall_forall in Hx. apply Hx, in_or_app. now right.
  - now apply IH.
Qed.

(** The two device cards and the device chart show the sessions whose
    [device_type], lower-cased, is ["desktop"] and ["mobile"]; together
    they are at most [totalSessions]: sessions of any other device type,
    or of none, are in neither.  When [calculateMetrics] throws, so does
    the component. *)
Theorem device_cards (e : engine)
  (sessions : list session) (pageviews : list pageview) :
  match calculateMetrics e sessions pageviews with
  | JS.Ok m =>
      TrafficSection e sessions pageviews = JS.Ok (render m) /\
      kpi_desktop (render m)
        = count (count_if (is_device e "desktop") sessions) /\
      kpi_mobile (render m)
        = count (count_if (is_device e "mobile") sessions) /\
      device_chart (render m) =
        [mkDeviceSlice "Desktop"
           (count (count_if (is_device e "desktop") sessions));
         mkDeviceSlice "Mobile"
           (count (count_if (is_device e "mobile") sessions))] /\
      cell_count (kpi_desktop (render m)) + cell_count (kpi_mobile (render m))
        <= kpi_totalSessions (render m)
  | JS.Throw err => TrafficSection e sessions pageviews = JS.Throw err
  end.
Proof.
  unfold TrafficSection.
  pose proof (calculateMetrics_cases e sessions pageviews) as H.
  destruct (calculateMetrics e sessions pageviews) as [m|err];
    [|reflexivity].
  destruct H as [_ ->].
  cbn [render kpi_desktop kpi_mobile device_chart kpi_totalSessions
       deviceCounts totalSessions metrics_of JS.bind].
  rewrite !counter_or_zero by reflexivity.
  rewrite <- (count_if_ext (is_device e "desktop")
                (fun x => String.eqb (device_key e x) "desktop"))
    by (intros x; apply is_device_key; discriminate).
  rewrite <- (count_if_ext (is_device e "mobile")
                (fun x => String.eqb (device_key e x) "mobile"))
    by (intros x; apply is_device_key; discriminate).
  repeat split. cbn [cell_count].
  apply count_if_disjoint, desktop_not_mobile.
Qed.

(** The Returning Visitors card divides by [totalSessions] unguarded: it
    is [NaN] when there is no session, and otherwise the share
    [returningSessions / totalSessions * 100], between 0 and 100. *)
Theorem returning_visitors_share (e : engine)
  (sessions : list session) (pageviews : list pageview) :
  match calculateMetrics e sessions pageviews with
  | JS.Ok m =>
      TrafficSection e sessions pageviews = JS.Ok (render m) /\
      match sessions with
      | [] => kpi_returning (render m) = JS.NaN
      | _ :: _ =>
          kpi_returning (render m) =
            JS.num (Q_of_nat (returningSessions m)
                    / Q_of_nat (totalSessions m) * 100)%Q /\
          (0 <= Q_of_nat (returningSessions m)
                / Q_of_nat (totalSessions m) * 100 <= 100)%Q
      end
  | JS.Throw err => TrafficSection e sessions pageviews = JS.Throw err
  end.
Proof.
  unfold TrafficSection.
  pose proof (calculateMetrics_cases e sessions pageviews) as H.
  destruct (calculateMetrics e sessions pageviews) as [m|err];
    [|reflexivity].
  destruct H as [_ ->]. split; [reflexivity|].
  destruct sessions as [|s l]; [reflexivity|].
  assert (Hpos : 0 < List.length (s :: l)) by (simpl; lia).
  cbn [render kpi_returning returningSessions totalSessions metrics_of].
  rewrite (percent_of_positive _ Hpos). split; [reflexivity|]. split.
  - now apply rate_nonneg.
  - apply rate_le_100; [exact Hpos | apply count_if_le].
Qed.

(** The sources table sorts [sourceData] by descending sessions and shows
    the first five rows; the sort works in place, so the source chart,
    which was given the same array, holds all the rows in that order.  No
    row left out of the table has more sessions than a row in it. *)
Theorem sources_table_top_five (m : traffic_metrics) :
  Permutation (source_chart (render m)) (sourceData m) /\
  StronglySorted (fun a b => source_sessions b <= source_sessions a)
    (source_chart (render m)) /\
  sources_table (render m) = firstn 5 (source_chart (render m)) /\
  List.length (sources_table (render m))
    = Nat.min 5 (List.length (sourceData m)) /\
  (forall a b,
     In a (sources_table (render m)) ->
     In b (skipn 5 (source_chart (render m))) ->
     source_sessions b <= source_sessions a).
Proof.
  cbn [render source_chart sources_table].
  set (sorted := JS.sort by_source_sessions_desc (sourceData m)).
  assert (Hs : StronglySorted
                 (fun a b => source_sessions b <= source_sessions a) sorted).
  { apply (StronglySorted_impl
             (R := fun a b => (- Z.of_nat (source_sessions a)
                               <= - Z.of_nat (source_sessions b))%Z)).
    - intros a b _ _ Hab. lia.
    - apply sort_sorted. intros x y _ _. unfold by_source_sessions_desc. lia. }
  split; [apply sort_perm|]. split; [exact Hs|]. split; [reflexivity|].
  split.
  - rewrite length_firstn. f_equal. apply Permutation_length, sort_perm.
  - apply sorted_app_order. now rewrite firstn_skipn.
Qed.

(** On an engine whose [sort] does what the language promises, the
    landing page table shows the first five rows of [topLandingPages],
    each with its share of [totalSessions].  The division is unguarded.
    A row that holds a number holds at least 1: with pageviews but no
    session its share is [Infinity], otherwise a positive finite number.
    A row whose URL names a member of [Object.prototype] holds a text,
    and its share is [NaN]. *)
Theorem landing_table_shares (e : engine) (He : conforming e)
  (sessions : list session) (pageviews : list pageview) :
  match calculateMetrics e sessions pageviews with
  | JS.Ok m =>
      TrafficSection e sessions pageviews = JS.Ok (render m) /\
      map line_url (landing_table (render m))
        = map url (firstn 5 (topLandingPages m)) /\
      map line_sessions (landing_table (render m))
        = map landing_sessions (firstn 5 (topLandingPages m)) /\
      List.length (landing_table (render m)) <= 5 /\
      Forall
        (fun l =>
           match line_sessions l with
           | count n =>
               JS.inherited (line_url l) = false /\
               1 <= n /\
               match sessions with
               | [] => line_percent l = JS.Infinity false
               | _ :: _ =>
                   line_percent l =
                     JS.num (Q_of_nat n / Q_of_nat (totalSessions m) * 100)%Q /\
                   (0 < Q_of_nat n / Q_of_nat (totalSessions m) * 100)%Q
               end
           | native _ _ =>
               JS.inherited (line_url l) = true /\
               line_percent l = JS.NaN
           end)
        (landing_table (render m))
  | JS.Throw err => TrafficSection e sessions pageviews = JS.Throw err
  end.
Proof.
  unfold TrafficSection.
  pose proof (calculateMetrics_cases e sessions pageviews) as H.
  destruct (calculateMetrics e sessions pageviews) as [m|err];
    [|reflexivity].
  destruct H as [_ ->]. split; [reflexivity|].
  cbn [render landing_table topLandingPages totalSessions metrics_of].
  set (top := Array_sort e by_sessions_desc _).
  split; [now rewrite map_map|]. split; [now rewrite map_map|].
  split; [rewrite length_map; apply firstn_le_length|].
  apply Forall_forall. intros l Hl. apply in_map_iff in Hl.
  destruct Hl as [r [<- Hr]]. apply In_first_rows in Hr.
  apply (Permutation_in _ (proj1 He _ by_sessions_desc _)) in Hr.
  apply In_landing_rows in Hr. destruct Hr as [u [_ [Hne ->]]].
  unfold landing_row_of, counter_cell.
  cbn [line_sessions line_percent line_url url landing_sessions].
  destruct (JS.inherited u) eqn:Hu; [split; reflexivity|].
  split; [reflexivity|]. split; [lia|].
  cbn [percent_of_counter]. destruct sessions as [|s rest].
  - cbn [List.length]. rewrite percent_of_nothing.
    destruct (count_if _ (landing_pageviews pageviews));
      [congruence | reflexivity].
  - assert (Hpos : 0 < List.length (s :: rest)) by (simpl; lia).
    rewrite (percent_of_positive _ Hpos). split; [reflexivity|].
    apply ratio_positive; [lia | exact Hpos].
Qed.

Lemma landing_table_shares_witness :
  exists m,
    calculateMetrics sample_engine one_session
      [a_pageview "1" "/home"; a_pageview "2" "constructor"] = JS.Ok m /\
    map line_url (landing_table (render m))
      = map url (firstn 5 (topLandingPages m)) /\
    List.length (landing_table (render m)) <= 5 /\
    map line_percent (landing_table (render m))
      = [JS.num (100 # 1)%Q; JS.NaN].
Proof.
  pose proof (landing_table_shares sample_engine_conforming one_session
                [a_pageview "1" "/home"; a_pageview "2" "constructor"]) as H.
  destruct (calculateMetrics sample_engine one_session
              [a_pageview "1" "/home"; a_pageview "2" "constructor"])
    as [m|err] eqn:E; [|vm_compute in E; discriminate].
  exists m. split; [reflexivity|].
  destruct H as (_ & Hurl & _ & Hlen & _).
  split; [exact Hurl|]. split; [exact Hlen|].
  vm_compute in E. injection E as <-. vm_compute. reflexivity.
Defined.

(** ** No sessions (Traffic.jsx, lines 8-114) *)

Lemma perm_nil_eq A (l : list A) : Permutation l [] -> l = [].
Proof. intros H. now apply Permutation_sym, Permutation_nil in H. Qed.

(** On an engine whose [sort] does what the language promises, without
    sessions [calculateMetrics] never throws, whatever the pageviews:
    every count and rate is [0] and every grouping of sessions is empty,
    while the landing pages are still computed from the pageviews alone:
    there is none exactly when every landing pageview has the URL
    [__proto__] (in particular when there is no pageview). *)
Theorem no_sessions (e : engine) (He : conforming e)
  (pageviews : list pageview) :
  exists m,
    calculateMetrics e [] pageviews = JS.Ok m /\
    totalSessions m = 0 /\ uniqueUsers m = 0 /\
    bounceRate m = 0%Q /\ avgPagesPerSession m = 0%Q /\
    newSessions m = 0 /\ returningSessions m = 0 /\
    deviceCounts m = [] /\ sourceData m = [] /\
    campaignData m = [] /\ timelineData m = [] /\
    list_sum (map (fun r => cell_count (landing_sessions r))
                (topLandingPages m))
      = count_if (fun pv => negb (JS.inherited (url_key pv)))
          (landing_pageviews pageviews) /\
    (topLandingPages m = [] <->
     forall pv, In pv (landing_pageviews pageviews) ->
                url_key pv = "__proto__"%string).
Proof.
  eexists. split; [reflexivity|].
  cbn [totalSessions uniqueUsers bounceRate avgPagesPerSession newSessions
       returningSessions deviceCounts sourceData campaignData timelineData
       topLandingPages].
  repeat (split; [reflexivity|]).
  split; [apply perm_nil_eq, (proj1 He)|].
  set (rows := map (fun entry => mkLandingRow (fst entry) (snd entry))
                 (JS.Object_entries (acc_pages (landingPages pageviews)))).
  pose proof (proj1 He _ by_sessions_desc rows) as Hperm.
  split.
  - rewrite (list_sum_perm (Permutation_map _ Hperm)).
    apply landing_sessions_sum.
  - split.
    + intros Hnil pv Hpv.
      destruct (string_dec (url_key pv) "__proto__") as [E|Hne];
        [exact E|]. exfalso.
      assert (Hin : In (landing_row_of (url_key pv)
                          (count_if (fun p => String.eqb (url_key p)
                                                (url_key pv))
                             (landing_pageviews pageviews))) rows).
      { apply In_landing_rows. exists (url_key pv).
        split; [exact Hne|]. split; [|reflexivity].
        unfold count_if.
        assert (Hf : In pv (filter (fun p => String.eqb (url_key p)
                                               (url_key pv))
                              (landing_pageviews pageviews)))
          by (apply filter_In; split;
              [exact Hpv | apply String.eqb_refl]).
        destruct (filter _ (landing_pageviews pageviews));
          [contradiction | discriminate]. }
      apply (Permutation_in _ (Permutation_sym Hperm)) in Hin.
      rewrite Hnil in Hin. exact Hin.
    + intros Hall.
      destruct (Array_sort e by_sessions_desc rows) as [|r l] eqn:E;
        [reflexivity|]. exfalso.
      assert (Hin : In r rows)
        by (apply (Permutation_in _ Hperm); now left).
      apply In_landing_rows in Hin. destruct Hin as [u [Hu [Hne _]]].
      destruct (count_if (fun pv => String.eqb (url_key pv) u)
                  (landing_pageviews pageviews)) eqn:Ec; [congruence|].
      destruct (count_if_positive _ _ Ec) as [pv [Hpv Hk]].
      apply String.eqb_eq in Hk. apply Hu. rewrite <- Hk. now apply Hall.
Qed.

Lemma no_sessions_witness :
  exists m,
    calculateMetrics sample_engine [] five_pageviews = JS.Ok m /\
    timelineData m = [] /\
    topLandingPages m <> [].
Proof.
  destruct (no_sessions sample_engine_conforming five_pageviews)
    as (m & Hm & _ & _ & _ & _ & _ & _ & _ & _ & _ & Ht & _ & Hl).
  exists m. split; [exact Hm|]. split; [exact Ht|].
  intros E.
  pose proof (proj1 Hl E (a_pageview "1" "/home") (or_introl eq_refl)) as F.
  discriminate F.
Defined.

(** ** The timer of the hook (useDashBoardData.js, lines 175-192) *)

Lemma message_or_truthy (m fallback : string) :
  fallback <> ""%string ->
  HookState.error_truthy (Some (Hook.message_or m fallback)) = true.
Proof.
  intros Hf. unfold HookState.error_truthy, Hook.message_or.
  destruct (String.eqb_spec m "") as [E|E]; apply negb_true_iff;
    now apply String.eqb_neq.
Qed.

(** The callback always ends the loading state.  It leaves no error
    exactly when neither the orders nor the sessions came out empty from a
    non-empty document and no error was pending; and running it again on
    the error it has set changes nothing, so the effect, which is re-run
    when [error] changes, settles at once. *)
Theorem timer_callback_settles (raw_row order : Type)
  (orders : list order) (sessions : list session)
  (ordersRaw sessionsRaw : list raw_row) (error : option string) :
  let after := HookState.timer_callback orders sessions ordersRaw sessionsRaw
                 error in
  snd after = false /\
  HookState.timer_callback orders sessions ordersRaw sessionsRaw (fst after)
    = after /\
  (fst after = None <->
   (orders <> [] \/ ordersRaw = []) /\
   (sessions <> [] \/ sessionsRaw = []) /\
   HookState.error_truthy error = false).
Proof.
  cbv zeta. unfold HookState.timer_callback.
  split; [reflexivity|].
  destruct orders as [|o orders], ordersRaw as [|r ordersRaw];
    destruct sessions as [|s sessions], sessionsRaw as [|q sessionsRaw];
    cbn [List.length Nat.eqb Nat.ltb Nat.leb andb fst snd];
    (split;
     [ try reflexivity;
       destruct (HookState.error_truthy error) eqn:E;
       cbn [fst]; rewrite ?E; reflexivity
     | ]);
    try (split; [discriminate | intros (H1 & H2 & _);
                 first [ destruct H1 as [H1|H1]; congruence
                       | destruct H2 as [H2|H2]; congruence ]]);
    (destruct (HookState.error_truthy error) eqn:E; cbn [fst];
     [ split; [ intros ->; discriminate E | intros (_ & _ & H); discriminate H ]
     | split; [ intros _; repeat split; auto; first [left; discriminate | now right]
              | reflexivity ] ]).
Qed.

(** ** What the hook reports once loaded (useDashBoardData.js, lines 34-96
       and 175-192) *)

(** For array documents, the hook ends with [isLoading = false] and:
    - when a cleaner throws, the message it set is kept only if both the
      orders and the sessions documents are empty; otherwise it is
      replaced by "Failed to load order data", or by "Failed to load
      session data" when only the orders document is empty;
    - when the cleaners return, the same two messages report an empty
      result from a non-empty document, orders first, and there is no
      error otherwise. *)
Theorem loaded_error (raw_row order_item product : Type)
  (cleanOrdersData : list raw_row -> JS.result (list Cleaners.order))
  (cleanOrderItemsData : list raw_row -> JS.result (list order_item))
  (cleanRefundsData : list raw_row -> JS.result (list Cleaners.refund))
  (cleanProductsData : list raw_row -> JS.result (list product))
  (cleanSessionsData : list raw_row -> JS.result (list session))
  (cleanPageviewsData : list raw_row -> JS.result (list pageview))
  (o i r p s v : list raw_row) :
  let result :=
    HookState.loaded cleanOrdersData cleanOrderItemsData cleanRefundsData
      cleanProductsData cleanSessionsData cleanPageviewsData o i r p s v in
  snd result = false /\
  match Hook.clean_all cleanOrdersData cleanOrderItemsData cleanRefundsData
          cleanProductsData cleanSessionsData cleanPageviewsData
          (Hook.limit_all (HookState.arrays o i r p s v)) with
  | JS.Throw err =>
      fst result =
        match o, s with
        | _ :: _, _ => Some "Failed to load order data"%string
        | [], _ :: _ => Some "Failed to load session data"%string
        | [], [] => Some (Hook.message_or err "Failed to process data")
        end
  | JS.Ok data =>
      fst result =
        match Hook.orders data, o, Hook.sessions data, s with
        | [], _ :: _, _, _ => Some "Failed to load order data"%string
        | _, _, [], _ :: _ => Some "Failed to load session data"%string
        | _, _, _, _ => None
        end
  end.
Proof.
  cbv zeta. unfold HookState.loaded, Hook.processedData.
  destruct (Hook.clean_all _ _ _ _ _ _ (Hook.limit_all _)) as [data|err];
    cbn [JS.bind JS.try_catch].
  - split; [reflexivity|].
    unfold HookState.timer_callback. cbn [HookState.error_after fold_left fst].
    destruct (Hook.orders data), o, (Hook.sessions data), s; reflexivity.
  - split; [reflexivity|].
    unfold HookState.timer_callback.
    cbn [HookState.error_after fold_left fst Hook.orders Hook.sessions
         List.length Nat.eqb].
    rewrite message_or_truthy by discriminate.
    destruct o, s; reflexivity.
Qed.

(** ** The hook with and without the row cap *)

(** With the same calculators, the hook with the row cap and the hook
    without it compute the same metrics, field by field, and log the same;
    the capped one only adds [limited = 500], also to its fallback. *)
Theorem metrics_of_both_hooks (order_item product : Type)
  (calculateTotalRevenue : list Cleaners.order -> JS.result JS.number)
  (calculateTotalRefunds : list Cleaners.refund -> JS.result JS.number)
  (calculateRefundRate :
     list Cleaners.order -> list Cleaners.refund -> JS.result JS.number)
  (calculateAOV : list Cleaners.order -> JS.result JS.number)
  (d : Hook.processed order_item product) :
  let capped_metrics :=
    Hook.metrics calculateTotalRevenue calculateTotalRefunds
      calculateRefundRate calculateAOV d in
  let plain_metrics :=
    Uncapped.metrics calculateTotalRevenue calculateTotalRefunds
      calculateRefundRate calculateAOV d in
  snd capped_metrics = snd plain_metrics /\
  fst capped_metrics =
    Hook.mkMetrics
      (Uncapped.totalOrders (fst plain_metrics))
      (Uncapped.totalRevenue (fst plain_metrics))
      (Uncapped.totalRefunds (fst plain_metrics))
      (Uncapped.refundRate (fst plain_metrics))
      (Uncapped.aov (fst plain_metrics))
      (Uncapped.netRevenue (fst plain_metrics))
      (Uncapped.totalSessions (fst plain_metrics))
      (Uncapped.totalPageviews (fst plain_metrics))
      (Uncapped.totalProducts (fst plain_metrics))
      500.
Proof.
  cbv zeta. unfold Hook.metrics, Hook.metrics_body, Uncapped.metrics.
  destruct (calculateTotalRevenue (Hook.orders d)); [|split; reflexivity].
  destruct (calculateTotalRefunds (Hook.refunds d)); [|split; reflexivity].
  destruct (calculateRefundRate (Hook.orders d) (Hook.refunds d));
    [|split; reflexivity].
  destruct (calculateAOV (Hook.orders d)); split; reflexivity.
Qed.

(** The hook with the row cap is the hook without it, run on the documents
    cut down to their first 500 rows (a document that is no array being
    replaced by the empty array): same cleaned data, same error reports,
    whatever the cleaners do. *)
Theorem capped_hook_is_uncapped_hook_on_capped_documents
  (raw_row order_item product : Type)
  (cleanOrdersData : Hook.json raw_row -> JS.result (list Cleaners.order))
  (cleanOrderItemsData : Hook.json raw_row -> JS.result (list order_item))
  (cleanRefundsData : Hook.json raw_row -> JS.result (list Cleaners.refund))
  (cleanProductsData : Hook.json raw_row -> JS.result (list product))
  (cleanSessionsData : Hook.json raw_row -> JS.result (list session))
  (cleanPageviewsData : Hook.json raw_row -> JS.result (list pageview))
  (raw : Hook.raw_data raw_row) :
  Hook.processedData
    (fun rows => cleanOrdersData (Hook.json_array rows))
    (fun rows => cleanOrderItemsData (Hook.json_array rows))
    (fun rows => cleanRefundsData (Hook.json_array rows))
    (fun rows => cleanProductsData (Hook.json_array rows))
    (fun rows => cleanSessionsData (Hook.json_array rows))
    (fun rows => cleanPageviewsData (Hook.json_array rows))
    raw
  = Uncapped.processedData cleanOrdersData cleanOrderItemsData
      cleanRefundsData cleanProductsData cleanSessionsData
      cleanPageviewsData (capped Hook.LIMIT_ROWS raw).
Proof.
  unfold Hook.processedData, Uncapped.processedData, Hook.clean_all,
    Uncapped.clean_all, Hook.limit_all, capped.
  cbn [Hook.ordersRaw Hook.orderItemsRaw Hook.refundsRaw Hook.productsRaw
       Hook.sessionsRaw Hook.pageviewsRaw Hook.ordersLimited
       Hook.orderItemsLimited Hook.refundsLimited Hook.productsLimited
       Hook.sessionsLimited Hook.pageviewsLimited].
  now rewrite !limit_rows_first_rows.
Qed.

Lemma limit_rows_short Row (rows : list Row) :
  List.length rows <= Hook.LIMIT_ROWS ->
  Hook.limit_rows (Hook.json_array rows) = rows.
Proof. intros H. unfold Hook.limit_rows. now apply firstn_all2. Qed.

(** When the six documents are arrays of at most 500 rows, the row cap
    changes nothing: the capped hook and the uncapped one hand the same
    rows to the cleaners and end with the same cleaned data and the same
    error reports. *)
Theorem cap_is_invisible_on_short_arrays
  (raw_row order_item product : Type)
  (cleanOrdersData : Hook.json raw_row -> JS.result (list Cleaners.order))
  (cleanOrderItemsData : Hook.json raw_row -> JS.result (list order_item))
  (cleanRefundsData : Hook.json raw_row -> JS.result (list Cleaners.refund))
  (cleanProductsData : Hook.json raw_row -> JS.result (list product))
  (cleanSessionsData : Hook.json raw_row -> JS.result (list session))
  (cleanPageviewsData : Hook.json raw_row -> JS.result (list pageview))
  (o i r p s v : list raw_row) :
  List.length o <= 500 -> List.length i <= 500 -> List.length r <= 500 ->
  List.length p <= 500 -> List.length s <= 500 -> List.length v <= 500 ->
  Hook.processedData
    (fun rows => cleanOrdersData (Hook.json_array rows))
    (fun rows => cleanOrderItemsData (Hook.json_array rows))
    (fun rows => cleanRefundsData (Hook.json_array rows))
    (fun rows => cleanProductsData (Hook.json_array rows))
    (fun rows => cleanSessionsData (Hook.json_array rows))
    (fun rows => cleanPageviewsData (Hook.json_array rows))
    (HookState.arrays o i r p s v)
  = Uncapped.processedData cleanOrdersData cleanOrderItemsData
      cleanRefundsData cleanProductsData cleanSessionsData
      cleanPageviewsData (HookState.arrays o i r p s v).
Proof.
  intros Ho Hi Hr Hp Hs Hv.
  unfold Hook.processedData, Uncapped.processedData, Hook.clean_all,
    Uncapped.clean_all, Hook.limit_all, HookState.arrays.
  cbn [Hook.ordersRaw Hook.orderItemsRaw Hook.refundsRaw Hook.productsRaw
       Hook.sessionsRaw Hook.pageviewsRaw Hook.ordersLimited
       Hook.orderItemsLimited Hook.refundsLimited Hook.productsLimited
       Hook.sessionsLimited Hook.pageviewsLimited].
  now rewrite !limit_rows_short.
Qed.

Lemma cap_is_invisible_on_short_arrays_witness :
  Hook.processedData
    (fun rows => JS.Ok (map an_order (rows_of (Hook.json_array rows))))
    (fun rows => JS.Ok (rows_of (Hook.json_array rows)))
    (fun rows => JS.Ok (map a_refund (rows_of (Hook.json_array rows))))
    (fun rows => JS.Ok (rows_of (Hook.json_array rows)))
    (fun rows : list Q => JS.Ok (@nil session))
    (fun rows : list Q => JS.Ok (@nil pageview))
    (HookState.arrays [100 # 1; 50 # 1]%Q [] [25 # 1]%Q [] [] [])
  = Uncapped.processedData
      (fun raw => JS.Ok (map an_order (rows_of raw)))
      (fun raw => JS.Ok (rows_of raw))
      (fun raw => JS.Ok (map a_refund (rows_of raw)))
      (fun raw => JS.Ok (rows_of raw))
      (fun raw : Hook.json Q => JS.Ok (@nil session))
      (fun raw : Hook.json Q => JS.Ok (@nil pageview))
      (HookState.arrays [100 # 1; 50 # 1]%Q [] [25 # 1]%Q [] [] []).
Proof.
  apply (cap_is_invisible_on_short_arrays
           (fun raw => JS.Ok (map an_order (rows_of raw)))
           (fun raw => JS.Ok (rows_of raw))
           (fun raw => JS.Ok (map a_refund (rows_of raw)))
           (fun raw => JS.Ok (rows_of raw))
           (fun raw : Hook.json Q => JS.Ok (@nil session))
           (fun raw : Hook.json Q => JS.Ok (@nil pageview)));
    simpl; lia.
Defined.
